(** * PlexFileRenamer: rename-plan compiler and direct executor

    A shallow embedding of the Go sources

      - [internal/renamer/formatter.go]  (sanitizeFilename, FormatEpisode,
        FormatMovie, ApplyPathMapping, GetExtension)
      - [internal/renamer/operations.go] (Operation, Result, Execute,
        copyFile, moveFile, BatchExecute)
      - [internal/cli]                   (Prompter, PromptShow, PromptMovie,
        askYesNoAll, PromptLibrary, PromptLocationOutputs, ConfirmProceed,
        ShowOperationPreview, ShowResults, truncatePath)
      - [cmd/main.go]                    (escapeCmdPath, generateOperations,
        pathInLocations, getLocationForPath, parseFlags, run, outputScript
        and the script writers, main)
      - [internal/database/models.go]    (the catalog records)
      - [internal/database/plex.go]      (GetLibraryContent and the loops
        under it, over the query methods)

    Go strings are byte sequences: they are modelled by [string], one
    [ascii] per byte.  The Go standard library functions the sources call
    are modelled in the modules [GoUtf8], [GoUnicode], [GoStrings], [GoFmt]
    and [GoFilepath]; the path functions are those of a POSIX build
    (separator [/], no volume names). *)

From Stdlib Require Import ZArith NArith Bool List Ascii String DecimalString Lia.
From stdpp Require Import gmap strings list.

Local Open Scope string_scope.
Local Open Scope bool_scope.

#[local] Arguments String.append !s1 s2 : simpl nomatch.

(* ===================================================================== *)
(** ** unicode/utf8 *)
(* ===================================================================== *)

Module GoUtf8.

(** A rune is an int32; negative runes occur (strings.Map drops them). *)
Definition rune := Z.

Definition RuneError : rune := 0xFFFD%Z.
Definition RuneSelf : N := 0x80%N.
Definition MaxRune : rune := 0x10FFFF%Z.

Definition byteN (c : ascii) : N := N_of_ascii c.
Definition byteZ (c : ascii) : Z := Z.of_N (N_of_ascii c).
Definition ofZ (z : Z) : ascii := ascii_of_N (Z.to_N (z mod 256)%Z).

(** The [first] table of utf8.go, as (size, lo, hi) of the second byte;
    [None] is the table's [xx] (invalid lead byte).  ASCII bytes are
    handled before the table is consulted. *)
Definition first (b : N) : option (nat * N * N) :=
  (if (b <? 0xC2) then None
   else if (b <=? 0xDF) then Some (2%nat, 0x80, 0xBF)
   else if (b =? 0xE0) then Some (3%nat, 0xA0, 0xBF)
   else if (b <=? 0xEC) then Some (3%nat, 0x80, 0xBF)
   else if (b =? 0xED) then Some (3%nat, 0x80, 0x9F)
   else if (b <=? 0xEF) then Some (3%nat, 0x80, 0xBF)
   else if (b =? 0xF0) then Some (4%nat, 0x90, 0xBF)
   else if (b <=? 0xF3) then Some (4%nat, 0x80, 0xBF)
   else if (b =? 0xF4) then Some (4%nat, 0x80, 0x8F)
   else None)%N.

Definition inRange (lo hi b : N) : bool := ((lo <=? b) && (b <=? hi))%N.
Definition isCont (b : N) : bool := inRange 0x80 0xBF b.

Definition low6 (b : N) : Z := Z.of_N (N.land b 0x3F).

(** utf8.DecodeRuneInString: the first rune of [s] and its width in
    bytes; (RuneError, 0) on the empty string and (RuneError, 1) on an
    invalid encoding. *)
Definition DecodeRuneInString (s : string) : rune * nat :=
  match s with
  | EmptyString => (RuneError, 0)
  | String c0 t =>
    let s0 := byteN c0 in
    if (s0 <? RuneSelf)%N then (Z.of_N s0, 1)
    else
      match first s0 with
      | None => (RuneError, 1)
      | Some (sz, lo, hi) =>
        if Nat.ltb (String.length s) sz then (RuneError, 1)
        else
          match t with
          | EmptyString => (RuneError, 1)
          | String c1 t1 =>
            let s1 := byteN c1 in
            if negb (inRange lo hi s1) then (RuneError, 1)
            else if Nat.leb sz 2 then
              (Z.lor (Z.shiftl (Z.of_N (N.land s0 0x1F)) 6) (low6 s1), 2)
            else
              match t1 with
              | EmptyString => (RuneError, 1)
              | String c2 t2 =>
                let s2 := byteN c2 in
                if negb (isCont s2) then (RuneError, 1)
                else if Nat.leb sz 3 then
                  (Z.lor (Z.lor (Z.shiftl (Z.of_N (N.land s0 0x0F)) 12)
                                (Z.shiftl (low6 s1) 6)) (low6 s2), 3)
                else
                  match t2 with
                  | EmptyString => (RuneError, 1)
                  | String c3 _ =>
                    let s3 := byteN c3 in
                    if negb (isCont s3) then (RuneError, 1)
                    else
                      (Z.lor (Z.lor (Z.lor
                         (Z.shiftl (Z.of_N (N.land s0 0x07)) 18)
                         (Z.shiftl (low6 s1) 12))
                         (Z.shiftl (low6 s2) 6)) (low6 s3), 4)
                  end
              end
          end
      end
  end.

(** utf8.AppendRune: the UTF-8 encoding of [r]; runes out of range and
    surrogates are written as U+FFFD. *)
Definition encode3 (r : Z) : string :=
  String (ofZ (Z.lor 0xE0 (Z.shiftr r 12)))
    (String (ofZ (Z.lor 0x80 (Z.land (Z.shiftr r 6) 0x3F)))
       (String (ofZ (Z.lor 0x80 (Z.land r 0x3F))) EmptyString)).

Definition EncodeRune (r : rune) : string :=
  (if (0 <=? r) && (r <=? 0x7F) then String (ofZ r) EmptyString
   else if (0 <=? r) && (r <=? 0x7FF) then
     String (ofZ (Z.lor 0xC0 (Z.shiftr r 6)))
       (String (ofZ (Z.lor 0x80 (Z.land r 0x3F))) EmptyString)
   else if (r <? 0) || (MaxRune <? r) || ((0xD800 <=? r) && (r <=? 0xDFFF))
     then encode3 RuneError
   else if r <=? 0xFFFF then encode3 r
   else
     String (ofZ (Z.lor 0xF0 (Z.shiftr r 18)))
       (String (ofZ (Z.lor 0x80 (Z.land (Z.shiftr r 12) 0x3F)))
          (String (ofZ (Z.lor 0x80 (Z.land (Z.shiftr r 6) 0x3F)))
             (String (ofZ (Z.lor 0x80 (Z.land r 0x3F))) EmptyString))))%Z.

(** utf8.RuneStart *)
Definition RuneStart (b : N) : bool := negb (N.land b 0xC0 =? 0x80)%N.

(** utf8.DecodeLastRuneInString, on the reversed bytes [rs] of the
    string: the last byte is [hd rs].  The search for a rune start looks
    at most three bytes further back (utf8.UTFMax = 4). *)
Definition decodeBack (k : nat) (rs : list ascii) : rune * nat :=
  let seg := string_of_list_ascii (rev (firstn (S k) rs)) in
  let '(r, size) := DecodeRuneInString seg in
  if Nat.eqb size (S k) then (r, size) else (RuneError, 1).

Definition DecodeLastRune (rs : list ascii) : rune * nat :=
  match rs with
  | [] => (RuneError, 0)
  | c :: back =>
    if (byteN c <? RuneSelf)%N then (Z.of_N (byteN c), 1)
    else
      match back with
      | b1 :: back1 =>
        if RuneStart (byteN b1) then decodeBack 1 rs
        else match back1 with
             | b2 :: back2 =>
               if RuneStart (byteN b2) then decodeBack 2 rs
               else match back2 with
                    | b3 :: _ =>
                      if RuneStart (byteN b3) then decodeBack 3 rs
                      else (RuneError, 1)
                    | [] => (RuneError, 1)
                    end
             | [] => (RuneError, 1)
             end
      | [] => (RuneError, 1)
      end
  end.

End GoUtf8.

(* ===================================================================== *)
(** ** unicode *)
(* ===================================================================== *)

Module GoUnicode.
Import GoUtf8.

(** unicode.IsControl: category Cc, which lies in Latin-1. *)
Definition IsControl (r : rune) : bool :=
  (((0 <=? r) && (r <=? 0x1F)) || ((0x7F <=? r) && (r <=? 0x9F)))%Z.

(** unicode.IsSpace: the Latin-1 switch, then the White_Space table. *)
Definition IsSpace (r : rune) : bool :=
  (if (0 <=? r) && (r <=? 0xFF) then
     ((0x09 <=? r) && (r <=? 0x0D)) || (r =? 0x20) || (r =? 0x85) || (r =? 0xA0)
   else
     (r =? 0x1680) || ((0x2000 <=? r) && (r <=? 0x200A))
     || (r =? 0x2028) || (r =? 0x2029) || (r =? 0x202F) || (r =? 0x205F)
     || (r =? 0x3000))%Z.

End GoUnicode.

(** The Unicode case-mapping table behind unicode.ToLower is not part of
    the repository; the development is parametric in it. *)
Class UnicodeCase := { unicodeToLower : GoUtf8.rune -> GoUtf8.rune }.

(* ===================================================================== *)
(** ** strings, regexp *)
(* ===================================================================== *)

Module GoStrings.
Import GoUtf8.

Fixpoint sdrop (n : nat) (s : string) : string :=
  match n, s with
  | S k, String _ t => sdrop k t
  | _, _ => s
  end.

Fixpoint stake (n : nat) (s : string) : string :=
  match n, s with
  | S k, String c t => String c (stake k t)
  | _, _ => EmptyString
  end.

Definition bytes (s : string) : list ascii := list_ascii_of_string s.
Definition ofBytes (l : list ascii) : string := string_of_list_ascii l.

(** strings.HasPrefix, strings.HasSuffix *)
Definition HasPrefix (s p : string) : bool := String.prefix p s.

Definition HasSuffix (s suffix : string) : bool :=
  Nat.leb (String.length suffix) (String.length s)
  && String.eqb (sdrop (String.length s - String.length suffix) s) suffix.

(** strings.TrimPrefix, strings.TrimSuffix *)
Definition TrimPrefix (s p : string) : string :=
  if HasPrefix s p then sdrop (String.length p) s else s.

Definition TrimSuffix (s suffix : string) : string :=
  if HasSuffix s suffix
  then stake (String.length s - String.length suffix) s else s.

(** strings.ReplaceAll with an empty [old]: [new] is inserted before the
    first rune and after every rune. *)
Fixpoint insertAfterRunes (skip : nat) (new s : string) : string :=
  match s with
  | EmptyString => EmptyString
  | String c t =>
    match skip with
    | S (S k) => String c (insertAfterRunes (S k) new t)
    | S O => String c (new ++ insertAfterRunes 0 new t)
    | O =>
      let w := snd (DecodeRuneInString s) in
      if Nat.leb w 1 then String c (new ++ insertAfterRunes 0 new t)
      else String c (insertAfterRunes (w - 1) new t)
    end
  end.

(** strings.ReplaceAll with a non-empty [old]: the leftmost occurrence
    is replaced and the scan resumes after it ([skip] counts the bytes of
    the occurrence still to be passed over). *)
Fixpoint replaceFrom (skip : nat) (old new s : string) : string :=
  match s with
  | EmptyString => EmptyString
  | String c t =>
    match skip with
    | S k => replaceFrom k old new t
    | O =>
      if String.prefix old s
      then new ++ replaceFrom (String.length old - 1) old new t
      else String c (replaceFrom 0 old new t)
    end
  end.

Definition ReplaceAll (s old new : string) : string :=
  if String.eqb old new then s
  else if String.eqb old EmptyString then new ++ insertAfterRunes 0 new s
  else replaceFrom 0 old new s.

(** strings.Map: every rune of [s] (an invalid byte reads as U+FFFD) is
    mapped and re-encoded; a negative result drops the rune. *)
Fixpoint mapFrom (mapping : rune -> rune) (skip : nat) (s : string) : string :=
  match s with
  | EmptyString => EmptyString
  | String _ t =>
    match skip with
    | S k => mapFrom mapping k t
    | O =>
      let '(c, w) := DecodeRuneInString s in
      let r := mapping c in
      (if (0 <=? r)%Z then EncodeRune r else EmptyString)
        ++ mapFrom mapping (w - 1) t
    end
  end.

Definition Map (mapping : rune -> rune) (s : string) : string :=
  mapFrom mapping 0 s.

(** strings.TrimRight for an ASCII cutset (the trimRightASCII path, the
    one taken for the cutset [" ."] of sanitizeFilename). *)
Definition inCutset (cutset : string) (c : ascii) : bool :=
  existsb (Ascii.eqb c) (bytes cutset).

Fixpoint dropWhileL (f : ascii -> bool) (l : list ascii) : list ascii :=
  match l with
  | [] => []
  | c :: t => if f c then dropWhileL f t else l
  end.

Definition TrimRight (s cutset : string) : string :=
  ofBytes (rev (dropWhileL (inCutset cutset) (rev (bytes s)))).

(** strings.TrimLeftFunc: drop leading runes while [f] holds. *)
Fixpoint trimLeftFrom (f : rune -> bool) (skip : nat) (s : string) : string :=
  match s with
  | EmptyString => EmptyString
  | String _ t =>
    match skip with
    | S k => trimLeftFrom f k t
    | O =>
      let '(r, w) := DecodeRuneInString s in
      if f r then trimLeftFrom f (w - 1) t else s
    end
  end.

Definition TrimLeftFunc (s : string) (f : rune -> bool) : string :=
  trimLeftFrom f 0 s.

(** strings.TrimRightFunc: lastIndexFunc walks back over the runes for
    which [f] holds; [rs] is the reversed prefix still to be scanned and
    [suffix] the bytes already passed.  At the first rune for which [f]
    fails, starting at index i, the result is s[0 : i + wid], with wid
    the width of the rune decoded forwards at s[i:]. *)
Fixpoint trimRightFrom (f : rune -> bool) (skip : nat)
         (rs : list ascii) (suffix : string) : string :=
  match rs with
  | [] => EmptyString
  | c :: back =>
    match skip with
    | S k => trimRightFrom f k back (String c suffix)
    | O =>
      let '(r, size) := DecodeLastRune rs in
      if f r then trimRightFrom f (size - 1) back (String c suffix)
      else
        let head := ofBytes (rev (skipn size rs)) in
        let tail := ofBytes (rev (firstn size rs)) ++ suffix in
        match tail with
        | String c0 _ =>
          if (byteN c0 <? RuneSelf)%N then head ++ stake 1 tail
          else head ++ stake (snd (DecodeRuneInString tail)) tail
        | EmptyString => head
        end
    end
  end.

Definition TrimRightFunc (s : string) (f : rune -> bool) : string :=
  trimRightFrom f 0 (rev (bytes s)) EmptyString.

(** strings.TrimSpace: both ends, Unicode white space. *)
Definition TrimSpace (s : string) : string :=
  TrimRightFunc (TrimLeftFunc s GoUnicode.IsSpace) GoUnicode.IsSpace.

(** strings.ToLower: ASCII strings are lowered byte by byte, any other
    string goes through Map(unicode.ToLower, s). *)
Definition isASCII (s : string) : bool :=
  forallb (fun c => (byteN c <? RuneSelf)%N) (bytes s).

Definition lowerByte (c : ascii) : ascii :=
  let b := byteN c in
  if ((65 <=? b) && (b <=? 90))%N then ascii_of_N (b + 32) else c.

Fixpoint mapBytes (f : ascii -> ascii) (s : string) : string :=
  match s with
  | EmptyString => EmptyString
  | String c t => String (f c) (mapBytes f t)
  end.

Definition ToLower `{UnicodeCase} (s : string) : string :=
  if isASCII s then mapBytes lowerByte s else Map unicodeToLower s.

(** regexp.MustCompile(`\s+`).ReplaceAllString(s, " "): the class \s is
    the ASCII set [\t\n\f\r ]; every maximal run becomes one space. *)
Definition isReSpace (c : ascii) : bool :=
  let b := byteN c in
  ((b =? 9) || (b =? 10) || (b =? 12) || (b =? 13) || (b =? 32))%N.

Fixpoint collapseFrom (inRun : bool) (s : string) : string :=
  match s with
  | EmptyString => EmptyString
  | String c t =>
    if isReSpace c
    then (if inRun then collapseFrom true t else String " " (collapseFrom true t))
    else String c (collapseFrom false t)
  end.

Definition collapseSpaces (s : string) : string := collapseFrom false s.

(** bufio.Reader.ReadString(delim) on the bytes still unread: the text up
    to and including the delimiter, or everything left together with
    io.EOF ([false]) when the delimiter does not occur. *)
Fixpoint ReadString (delim : ascii) (input : string) : string * bool * string :=
  match input with
  | EmptyString => (EmptyString, false, EmptyString)
  | String c t =>
    if Ascii.eqb c delim then (String c EmptyString, true, t)
    else let '(line, ok, rest) := ReadString delim t in (String c line, ok, rest)
  end.

End GoStrings.

(* ===================================================================== *)
(** ** fmt *)
(* ===================================================================== *)

Module GoFmt.

(** fmt.Sprintf("%d", n) *)
Definition d (n : Z) : string := NilZero.string_of_int (Z.to_int n).

(** fmt.Sprintf("%02d", n): zero padding to width two, sign included. *)
Definition d02 (n : Z) : string :=
  let s := d n in
  if Nat.ltb (String.length s) 2 then "0" ++ s else s.

End GoFmt.

(* ===================================================================== *)
(** ** path/filepath (POSIX) *)
(* ===================================================================== *)

Module GoFilepath.

Definition Separator : ascii := "/"%char.
Definition isSep (c : ascii) : bool := Ascii.eqb c Separator.

Definition ToSlash (path : string) : string := path.
Definition FromSlash (path : string) : string := path.

(** The elements of a path between separators. *)
Fixpoint split (s : string) : list string :=
  match s with
  | EmptyString => [EmptyString]
  | String c t =>
    if isSep c then EmptyString :: split t
    else match split t with
         | e :: es => String c e :: es
         | [] => [String c EmptyString]
         end
  end.

Fixpoint joinSep (l : list string) : string :=
  match l with
  | [] => EmptyString
  | [e] => e
  | e :: es => e ++ "/" ++ joinSep es
  end.

(** One element of Clean's loop; [out] holds the elements written so
    far, last one first. *)
Definition cleanStep (rooted : bool) (out : list string) (e : string) : list string :=
  if String.eqb e EmptyString then out
  else if String.eqb e "." then out
  else if String.eqb e ".." then
    match out with
    | top :: rest =>
      if String.eqb top ".." then (if rooted then out else e :: out) else rest
    | [] => if rooted then out else [e]
    end
  else e :: out.

(** filepath.Clean *)
Definition Clean (path : string) : string :=
  match path with
  | EmptyString => "."
  | String c _ =>
    let rooted := isSep c in
    let out := rev (fold_left (cleanStep rooted) (split path) []) in
    if rooted then "/" ++ joinSep out
    else match out with
         | [] => "."
         | _ => joinSep out
         end
  end.

(** filepath.Join *)
Fixpoint Join (elem : list string) : string :=
  match elem with
  | [] => EmptyString
  | e :: es =>
    if String.eqb e EmptyString then Join es else Clean (joinSep elem)
  end.

(** The text up to and including the last separator. *)
Fixpoint uptoLastSep (s : string) : string :=
  match s with
  | EmptyString => EmptyString
  | String c t =>
    if existsb isSep (GoStrings.bytes s) then String c (uptoLastSep t)
    else EmptyString
  end.

(** filepath.Dir *)
Definition Dir (path : string) : string := Clean (uptoLastSep path).

(** filepath.Ext: from the last dot of the last element. *)
Fixpoint Ext (path : string) : string :=
  match path with
  | EmptyString => EmptyString
  | String c t =>
    match Ext t with
    | EmptyString =>
      if Ascii.eqb c "."%char && negb (existsb isSep (GoStrings.bytes t))
      then path else EmptyString
    | e => e
    end
  end.

End GoFilepath.

(* ===================================================================== *)
(** ** internal/database/models.go *)
(* ===================================================================== *)

Module Database.

Record LibrarySection := {
  ls_ID : Z;
  ls_Name : string;
  ls_SectionType : Z;
  ls_Language : string;
  ls_Agent : string
}.

Record SectionLocation := {
  loc_ID : Z;
  loc_LibrarySectionID : Z;
  RootPath : string;
  Available : Z
}.

Record MetadataItem := {
  ID : Z;
  LibrarySectionID : Z;
  MetadataType : Z;
  ParentID : option Z;
  Title : string;
  TitleSort : string;
  OriginalTitle : string;
  Studio : string;
  Year : option Z;
  Index : option Z;
  OriginallyAvailable : string
}.

Record MediaPart := {
  mp_ID : Z;
  MediaItemID : Z;
  File : string;
  Size : Z
}.

Definition SectionTypeMovie : Z := 1.
Definition SectionTypeShow : Z := 2.

Record MovieInfo := { mv_Metadata : MetadataItem; mv_Files : list MediaPart }.
Record EpisodeInfo := { ep_Metadata : MetadataItem; ep_Files : list MediaPart }.
Record SeasonInfo := { se_Metadata : MetadataItem; Episodes : list EpisodeInfo }.
Record ShowInfo := { sh_Metadata : MetadataItem; Seasons : list SeasonInfo }.

Record LibraryContent := {
  Section : LibrarySection;
  Locations : list SectionLocation;
  Movies : list MovieInfo;
  Shows : list ShowInfo
}.

End Database.

(* ===================================================================== *)
(** ** internal/renamer/formatter.go *)
(* ===================================================================== *)

Module Formatter.
Import GoStrings Database.

Definition DefaultTVFormat : string :=
  "{show}/Season {season}/S{snum}E{enum} - {title}{ext}".
Definition DefaultMovieFormat : string := "{title} ({year}){ext}".

Record Formatter := { TVFormat : string; MovieFormat : string }.

Definition NewFormatter (tvFormat movieFormat : string) : Formatter :=
  {| TVFormat := if String.eqb tvFormat "" then DefaultTVFormat else tvFormat;
     MovieFormat := if String.eqb movieFormat "" then DefaultMovieFormat
                    else movieFormat |}.

Definition dquote : string := String "034"%char "".
Definition backslash : string := String "092"%char "".

(** The [replacements] map of sanitizeFilename, in the order of the
    source text. *)
Definition replacements : list (string * string) :=
  [ (":", " -"); ("/", "-"); (backslash, "-"); ("*", ""); ("?", "");
    (dquote, "'"); ("<", ""); (">", ""); ("|", "-") ].

Definition dropControl (r : GoUtf8.rune) : GoUtf8.rune :=
  if GoUnicode.IsControl r then (-1)%Z else r.

(** sanitizeFilename, with the order in which the [range] loop visits
    the map given by [order] (Go leaves the iteration order of a map
    unspecified). *)
Definition sanitizeFilenameIn (order : list (string * string)) (name : string) : string :=
  let result := name in
  let result :=
    fold_left (fun result on => ReplaceAll result (fst on) (snd on)) order result in
  let result := Map dropControl result in
  let result := TrimRight result " ." in
  let result := collapseSpaces result in
  TrimSpace result.

Definition sanitizeFilename (name : string) : string :=
  sanitizeFilenameIn replacements name.

Definition FormatEpisode (f : Formatter) (show season : MetadataItem)
           (episode : EpisodeInfo) (ext : string) : string :=
  let result := TVFormat f in
  let result := ReplaceAll result "{show}" (sanitizeFilename (Title show)) in
  let seasonNum := match Index season with Some i => i | None => 0%Z end in
  let result := ReplaceAll result "{season}" (GoFmt.d seasonNum) in
  let result := ReplaceAll result "{snum}" (GoFmt.d02 seasonNum) in
  let episodeNum :=
    match Index (ep_Metadata episode) with Some i => i | None => 0%Z end in
  let result := ReplaceAll result "{enum}" (GoFmt.d02 episodeNum) in
  let result :=
    ReplaceAll result "{title}" (sanitizeFilename (Title (ep_Metadata episode))) in
  let year := match Year show with Some y => GoFmt.d y | None => "" end in
  let result := ReplaceAll result "{year}" year in
  let result := ReplaceAll result "{ext}" ext in
  result.

Definition FormatMovie (f : Formatter) (movie : MovieInfo) (ext : string) : string :=
  let result := MovieFormat f in
  let result :=
    ReplaceAll result "{title}" (sanitizeFilename (Title (mv_Metadata movie))) in
  let year :=
    match Year (mv_Metadata movie) with Some y => GoFmt.d y | None => "Unknown" end in
  let result := ReplaceAll result "{year}" year in
  let result := ReplaceAll result "{ext}" ext in
  result.

Definition ApplyPathMapping (path srcPrefix dstPrefix : string) : string :=
  if String.eqb srcPrefix "" || String.eqb dstPrefix "" then path
  else
    let normalizedPath := GoFilepath.ToSlash path in
    let normalizedSrc := GoFilepath.ToSlash srcPrefix in
    if HasPrefix normalizedPath normalizedSrc then
      let newPath := dstPrefix ++ sdrop (String.length normalizedSrc) normalizedPath in
      GoFilepath.FromSlash newPath
    else path.

Definition GetExtension (path : string) : string := GoFilepath.Ext path.

End Formatter.

(* ===================================================================== *)
(** ** os, io: the file system the executor runs against *)
(* ===================================================================== *)

Module GoOs.

Inductive Errno := ENOENT | EEXIST | ENOTDIR | EISDIR | EACCES | EXDEV | EIO | ENOSPC.

Inductive res (A : Type) := Ok (a : A) | Err (e : Errno).
Arguments Ok {A} a.
Arguments Err {A} e.

(** os.IsNotExist *)
Definition IsNotExist (e : Errno) : bool :=
  match e with ENOENT => true | _ => false end.

Record FileNode := { data : string; mode : N }.

Record FileInfo := { Size : Z; Mode : N; IsDir : bool }.

(** Every call into the operating system is recorded. *)
Inductive Syscall :=
| SysStat (name : string)
| SysMkdirAll (path : string) (perm : N)
| SysRename (oldpath newpath : string)
| SysOpen (name : string)
| SysCreate (name : string)
| SysCopy (dst src : string)
| SysRemove (name : string)
| SysChmod (name : string) (perm : N).

(** Regular files by path, the set of directories, and the calls made so
    far (latest first).  Paths are compared as written. *)
Record World := {
  files : gmap string FileNode;
  dirs : gset string;
  trace : list Syscall
}.

(** What the environment decides: which calls fail for reasons outside
    the file system state (permissions, a rename across devices, an I/O
    error), the bytes found in the destination after io.Copy returns,
    and the permission bits of a newly created file.  os.Stat is decided
    by the state alone: it fails, with ENOENT, exactly when the name is
    neither a file nor a directory. *)
Record Env := {
  mkdirFault : string -> option Errno;
  renameFault : string -> string -> option Errno;
  openFault : string -> option Errno;
  createFault : string -> option Errno;
  copyFault : string -> string -> option Errno;
  copyWrites : string -> string -> string -> string;
  removeFault : string -> option Errno;
  chmodFault : string -> option Errno;
  createMode : N
}.

(** A call either returns or panics (a nil dereference in the caller). *)
Inductive outcome (A : Type) := Done (a : A) | Panic.
Arguments Done {A} a.
Arguments Panic {A}.

Definition M (A : Type) : Type := World -> outcome A * World.

Definition ret {A} (a : A) : M A := fun w => (Done a, w).
Definition panic {A} : M A := fun w => (Panic, w).
Definition bind {A B} (m : M A) (k : A -> M B) : M B :=
  fun w => match m w with
           | (Done a, w') => k a w'
           | (Panic, w') => (Panic, w')
           end.

Definition logged (c : Syscall) (w : World) : World :=
  {| files := files w; dirs := dirs w; trace := c :: trace w |}.

Definition setFiles (fs : gmap string FileNode) (w : World) : World :=
  {| files := fs; dirs := dirs w; trace := trace w |}.

Definition setDirs (ds : gset string) (w : World) : World :=
  {| files := files w; dirs := ds; trace := trace w |}.

Definition infoOf (f : FileNode) : FileInfo :=
  {| Size := Z.of_nat (String.length (data f)); Mode := mode f; IsDir := false |}.

(** 0755 *)
Definition perm0755 : N := 493%N.

Definition dirInfo : FileInfo := {| Size := 0; Mode := perm0755; IsDir := true |}.

Definition lookupInfo (w : World) (name : string) : res FileInfo :=
  match files w !! name with
  | Some f => Ok (infoOf f)
  | None => if decide (name ∈ dirs w) then Ok dirInfo else Err ENOENT
  end.

Fixpoint ancestors (fuel : nat) (path : string) : list string :=
  match fuel with
  | O => []
  | S k =>
    let dir := GoFilepath.Dir path in
    if String.eqb dir path then [] else dir :: ancestors k dir
  end.

(** The directories os.MkdirAll(path) makes sure exist. *)
Definition mkdirChain (path : string) : list string :=
  path :: ancestors (String.length path) path.

Section Calls.
Context (env : Env).

(** os.Stat *)
Definition Stat (name : string) : M (res FileInfo) :=
  fun w => let w := logged (SysStat name) w in (Done (lookupInfo w name), w).

(** os.MkdirAll *)
Definition MkdirAll (path : string) (perm : N) : M (res unit) :=
  fun w =>
    let w := logged (SysMkdirAll path perm) w in
    let chain := mkdirChain path in
    match mkdirFault env path with
    | Some e => (Done (Err e), w)
    | None =>
      if existsb (fun p => bool_decide (is_Some (files w !! p))) chain
      then (Done (Err ENOTDIR), w)
      else (Done (Ok tt), setDirs (list_to_set chain ∪ dirs w) w)
    end.

(** os.Rename of a regular file; an existing regular file at
    [newpath] is replaced. *)
Definition Rename (oldpath newpath : string) : M (res unit) :=
  fun w =>
    let w := logged (SysRename oldpath newpath) w in
    match files w !! oldpath with
    | None => (Done (Err ENOENT), w)
    | Some f =>
      match renameFault env oldpath newpath with
      | Some e => (Done (Err e), w)
      | None =>
        if decide (newpath ∈ dirs w) then (Done (Err EISDIR), w)
        else (Done (Ok tt), setFiles (<[newpath := f]> (delete oldpath (files w))) w)
      end
    end.

(** os.Open: the handle is the name it was opened under. *)
Definition Open (name : string) : M (res string) :=
  fun w =>
    let w := logged (SysOpen name) w in
    match lookupInfo w name with
    | Err e => (Done (Err e), w)
    | Ok _ =>
      match openFault env name with
      | Some e => (Done (Err e), w)
      | None => (Done (Ok name), w)
      end
    end.

(** os.Create: creates the file or truncates an existing one. *)
Definition Create (name : string) : M (res string) :=
  fun w =>
    let w := logged (SysCreate name) w in
    match createFault env name with
    | Some e => (Done (Err e), w)
    | None =>
      if decide (name ∈ dirs w) then (Done (Err EISDIR), w)
      else
        let m := match files w !! name with
                 | Some f => mode f
                 | None => createMode env
                 end in
        (Done (Ok name), setFiles (<[name := {| data := ""; mode := m |}]> (files w)) w)
    end.

(** io.Copy(dst, src) between two open files. *)
Definition Copy (dst src : string) : M (res Z) :=
  fun w =>
    let w := logged (SysCopy dst src) w in
    match files w !! src with
    | None => (Done (Err EISDIR), w)
    | Some f =>
      let written := copyWrites env src dst (data f) in
      let w' :=
        match files w !! dst with
        | Some g => setFiles (<[dst := {| data := written; mode := mode g |}]> (files w)) w
        | None => w
        end in
      match copyFault env src dst with
      | Some e => (Done (Err e), w')
      | None => (Done (Ok (Z.of_nat (String.length written))), w')
      end
    end.

(** os.Remove of a file, or of a directory (whose emptiness is not
    tracked). *)
Definition Remove (name : string) : M (res unit) :=
  fun w =>
    let w := logged (SysRemove name) w in
    match removeFault env name with
    | Some e => (Done (Err e), w)
    | None =>
      match files w !! name with
      | Some _ => (Done (Ok tt), setFiles (delete name (files w)) w)
      | None =>
        if decide (name ∈ dirs w)
        then (Done (Ok tt), setDirs (dirs w ∖ {[name]}) w)
        else (Done (Err ENOENT), w)
      end
    end.

(** os.Chmod *)
Definition Chmod (name : string) (perm : N) : M (res unit) :=
  fun w =>
    let w := logged (SysChmod name perm) w in
    match chmodFault env name with
    | Some e => (Done (Err e), w)
    | None =>
      match files w !! name with
      | Some f => (Done (Ok tt), setFiles (<[name := {| data := data f; mode := perm |}]> (files w)) w)
      | None => (Done (Err ENOENT), w)
      end
    end.

End Calls.

End GoOs.

Declare Scope go_scope.
Delimit Scope go_scope with go.
Notation "'let*' x ':=' m 'in' k" := (GoOs.bind m (fun x => k))
  (at level 10, x pattern, m at level 100, k at level 200) : go_scope.

(* ===================================================================== *)
(** ** internal/renamer/operations.go *)
(* ===================================================================== *)

Module Operations.
Import GoOs.
Local Open Scope go_scope.

Definition OperationMode := string.
Definition ModeCopy : OperationMode := "copy".
Definition ModeMove : OperationMode := "move".

Record Operation := {
  Source : string;
  Destination : string;
  Mode : OperationMode
}.

(** The values built with fmt.Errorf, one constructor per format:
    - [ErrSourceMissing src]: "source file does not exist: %s"
    - [ErrCreateDir dir e]:   "failed to create directory %s: %w"
    - [ErrOpenSource e]:      "failed to open source: %w"
    - [ErrCreateDest e]:      "failed to create destination: %w"
    - [ErrCopy e]:            "failed to copy: %w"
    - [ErrVerifyCopy e]:      "failed to verify copy: %w"
    - [ErrSizeMismatch]:      "copy verification failed: size mismatch"
    - [ErrRemoveSource e]:    "copied successfully but failed to remove source: %w"
    - [ErrUnknownMode m]:     "unknown operation mode: %s" *)
Inductive error :=
| ErrSourceMissing (src : string)
| ErrCreateDir (dir : string) (e : Errno)
| ErrOpenSource (e : Errno)
| ErrCreateDest (e : Errno)
| ErrCopy (e : Errno)
| ErrVerifyCopy (e : Errno)
| ErrSizeMismatch
| ErrRemoveSource (e : Errno)
| ErrUnknownMode (m : string).

Record Result := {
  Op : Operation;
  Success : bool;
  Skipped : bool;
  Error : option error;
  Message : string
}.

Section Executor.
Context (env : Env).

Definition copyFile (src dst : string) : M (option error) :=
  let* sourceFile := Open env src in
  match sourceFile with
  | Err e => ret (Some (ErrOpenSource e))
  | Ok sourceFile =>
    let* destFile := Create env dst in
    match destFile with
    | Err e => ret (Some (ErrCreateDest e))
    | Ok destFile =>
      let* n := Copy env destFile sourceFile in
      match n with
      | Err e =>
        let* _ := Remove env dst in
        ret (Some (ErrCopy e))
      | Ok _ =>
        let* sourceInfo := Stat src in
        let* _ := match sourceInfo with
                  | Ok sourceInfo => Chmod env dst (GoOs.Mode sourceInfo)
                  | Err _ => ret (Ok tt)
                  end in
        ret None
      end
    end
  end.

(** [srcInfo, _ := os.Stat(src)] drops the error; srcInfo.Size() on the nil
    FileInfo of a failed Stat is a nil dereference. *)
Definition moveFile (src dst : string) : M (option error) :=
  let* renamed := Rename env src dst in
  match renamed with
  | Ok _ => ret None
  | Err _ =>
    let* err := copyFile src dst in
    match err with
    | Some err => ret (Some err)
    | None =>
      let* srcInfo := Stat src in
      let* dstInfo := Stat dst in
      match dstInfo with
      | Err e => ret (Some (ErrVerifyCopy e))
      | Ok dstInfo =>
        match srcInfo with
        | Err _ => panic
        | Ok srcInfo =>
          if negb (Size srcInfo =? Size dstInfo)%Z then
            let* _ := Remove env dst in
            ret (Some ErrSizeMismatch)
          else
            let* removed := Remove env src in
            match removed with
            | Err e => ret (Some (ErrRemoveSource e))
            | Ok _ => ret None
            end
        end
      end
    end
  end.

Definition Execute (op : Operation) (dryRun : bool) : M Result :=
  let result err success skipped message :=
    {| Op := op; Success := success; Skipped := skipped;
       Error := err; Message := message |} in
  if dryRun then ret (result None true false "dry run - no changes made")
  else
    let* src := Stat (Source op) in
    if match src with Err e => IsNotExist e | Ok _ => false end
    then ret (result (Some (ErrSourceMissing (Source op))) false false "")
    else
      let* dst := Stat (Destination op) in
      match dst with
      | Ok _ => ret (result None true true "destination already exists, skipped")
      | Err _ =>
        let destDir := GoFilepath.Dir (Destination op) in
        let* made := MkdirAll env destDir perm0755 in
        match made with
        | Err e => ret (result (Some (ErrCreateDir destDir e)) false false "")
        | Ok _ =>
          let* err :=
            if String.eqb (Mode op) ModeCopy then copyFile (Source op) (Destination op)
            else if String.eqb (Mode op) ModeMove then moveFile (Source op) (Destination op)
            else ret (Some (ErrUnknownMode (Mode op))) in
          match err with
          | Some err => ret (result (Some err) false false "")
          | None => ret (result None true false (Mode op ++ " completed"))
          end
        end
      end.

(** BatchExecute; the progress callback only prints. *)
Fixpoint BatchExecute (operations : list Operation) (dryRun : bool) : M (list Result) :=
  match operations with
  | [] => ret []
  | op :: rest =>
    let* r := Execute op dryRun in
    let* rs := BatchExecute rest dryRun in
    ret (r :: rs)
  end.

End Executor.

End Operations.

(* ===================================================================== *)
(** ** internal/cli/prompt.go *)
(* ===================================================================== *)

Module Cli.
Import GoStrings Database.

Record PathPreview := { pv_Source : string; pv_Destination : string }.

Record LocationWithOutput := { Location : SectionLocation; OutputPath : string }.

(** What a prompt puts on the terminal. *)
Inductive Display :=
| DisplayShow (show : ShowInfo) (episodeCount : nat) (previews : list PathPreview)
| DisplayMovie (movie : MovieInfo) (previews : list PathPreview)
| Ask (prompt : string).

(** The only error a prompt returns is the reader's. *)
Inductive ioError := EOF.

(** The Prompter with its ApprovalState: the bytes still unread on
    standard input, the approval choices, and what was displayed so far
    (latest first). *)
Record Prompter := {
  stdin : string;
  ApproveAll : bool;
  ApprovedShows : gmap Z bool;
  SkippedShows : gmap Z bool;
  ApprovedMovies : gmap Z bool;
  displayed : list Display
}.

Definition NewPrompter (input : string) : Prompter :=
  {| stdin := input; ApproveAll := false; ApprovedShows := ∅;
     SkippedShows := ∅; ApprovedMovies := ∅; displayed := [] |}.

Definition display (d : Display) (p : Prompter) : Prompter :=
  {| stdin := stdin p; ApproveAll := ApproveAll p;
     ApprovedShows := ApprovedShows p; SkippedShows := SkippedShows p;
     ApprovedMovies := ApprovedMovies p; displayed := d :: displayed p |}.

Definition readLine (p : Prompter) : (string * bool) * Prompter :=
  let '(line, ok, rest) := ReadString "010"%char (stdin p) in
  ((line, ok),
   {| stdin := rest; ApproveAll := ApproveAll p;
      ApprovedShows := ApprovedShows p; SkippedShows := SkippedShows p;
      ApprovedMovies := ApprovedMovies p; displayed := displayed p |}).

Definition setApproveAll (p : Prompter) : Prompter :=
  {| stdin := stdin p; ApproveAll := true;
     ApprovedShows := ApprovedShows p; SkippedShows := SkippedShows p;
     ApprovedMovies := ApprovedMovies p; displayed := displayed p |}.

Section Prompts.
Context `{UnicodeCase}.

(** (yes, approveAll, err) *)
Definition askYesNoAll (prompt : string) (p : Prompter)
  : (bool * bool * option ioError) * Prompter :=
  let p := display (Ask prompt) p in
  let '((input, ok), p) := readLine p in
  if negb ok then ((false, false, Some EOF), p)
  else
    let input := TrimSpace (ToLower input) in
    if String.eqb input "y" || String.eqb input "yes" then ((true, false, None), p)
    else if String.eqb input "a" || String.eqb input "all"
    then ((true, true, None), setApproveAll p)
    else ((false, false, None), p).

Definition PromptShow (show : ShowInfo) (episodeCount : nat)
           (previews : list PathPreview) (p : Prompter)
  : (bool * bool * option ioError) * Prompter :=
  if ApproveAll p then ((true, false, None), p)
  else
    let p := display (DisplayShow show episodeCount previews) p in
    askYesNoAll "Rename files for this show?" p.

Definition PromptMovie (movie : MovieInfo) (previews : list PathPreview)
           (p : Prompter)
  : (bool * bool * option ioError) * Prompter :=
  if ApproveAll p then ((true, false, None), p)
  else
    let p := display (DisplayMovie movie previews) p in
    askYesNoAll "Rename files for this movie?" p.

End Prompts.

End Cli.

(* ===================================================================== *)
(** ** cmd/main.go *)
(* ===================================================================== *)

Module Main.
Import GoStrings Database Formatter Operations Cli.

Record Config := {
  DatabasePath : string;
  OutputDir : string;
  DryRun : bool;
  ScriptMode : bool;
  ScriptShell : string;
  ScriptOutput : string;
  cfg_Mode : OperationMode;
  cfg_TVFormat : string;
  cfg_MovieFormat : string;
  PathMapSrc : string;
  PathMapDst : string;
  AutoApprove : bool
}.

(** escapeCmdPath escapes special characters for Windows batch scripts. *)
Definition escapeCmdPath (path : string) : string :=
  let result := path in
  let result := ReplaceAll result "%" "%%" in
  let result := ReplaceAll result "^" "^^" in
  let result := ReplaceAll result "&" "^&" in
  let result := ReplaceAll result "<" "^<" in
  let result := ReplaceAll result ">" "^>" in
  let result := ReplaceAll result "|" "^|" in
  let result := ReplaceAll result "!" "^!" in
  result.

Section Planner.
Context `{UnicodeCase}.

Definition normalizePathForComparison (path : string) : string :=
  let normalized := ToLower (GoFilepath.ToSlash path) in
  let normalized := TrimPrefix normalized "//?/" in
  let normalized := TrimPrefix normalized "//./" in
  normalized.

(** The test both pathInLocations and getLocationForPath apply to one
    location. *)
Definition underLocation (normalizedPath : string) (loc : SectionLocation) : bool :=
  let normalizedLoc := normalizePathForComparison (RootPath loc) in
  let normalizedLoc := TrimSuffix normalizedLoc "/" in
  HasPrefix normalizedPath (normalizedLoc ++ "/").

Definition pathInLocations (filePath : string) (locations : list SectionLocation) : bool :=
  let normalizedPath := normalizePathForComparison filePath in
  existsb (underLocation normalizedPath) locations.

Definition getLocationForPath (filePath : string) (locations : list SectionLocation) : string :=
  let normalizedPath := normalizePathForComparison filePath in
  match find (underLocation normalizedPath) locations with
  | Some loc => RootPath loc
  | None => ""
  end.

Definition fileInLocations (files : list MediaPart) (locations : list SectionLocation) : bool :=
  existsb (fun file => pathInLocations (File file) locations) files.

Definition showInLocations (show : ShowInfo) (locations : list SectionLocation) : bool :=
  existsb (fun season =>
             existsb (fun episode => fileInLocations (ep_Files episode) locations)
                     (Episodes season))
          (Seasons show).

Section Generate.
Context (config : Config) (formatter : Formatter)
        (content : LibraryContent)
        (selectedLocations : option (list SectionLocation))
        (locationOutputs : list LocationWithOutput).

(** The getOutputPath closure. *)
Definition getOutputPath (filePath : string) : string :=
  match find (fun lo => pathInLocations filePath [Location lo]) locationOutputs with
  | Some lo => OutputPath lo
  | None =>
    if negb (String.eqb (OutputDir config) "") then OutputDir config
    else
      let locPath := getLocationForPath filePath (Locations content) in
      if negb (String.eqb locPath "") then locPath
      else "."
  end.

(** [selectedLocations != nil && !pathInLocations(file.File, ...)] *)
Definition filteredOut (file : MediaPart) : bool :=
  match selectedLocations with
  | Some sel => negb (pathInLocations (File file) sel)
  | None => false
  end.

Definition sourcePath (file : MediaPart) : string :=
  let srcPath := File file in
  if negb (String.eqb (PathMapSrc config) "")
  then ApplyPathMapping srcPath (PathMapSrc config) (PathMapDst config)
  else srcPath.

(** The body of the loop over movie.Files. *)
Definition moviePreviews (movie : MovieInfo) : list PathPreview :=
  flat_map (fun file =>
    if filteredOut file then []
    else
      let srcPath := sourcePath file in
      let ext := GetExtension srcPath in
      let destName := FormatMovie formatter movie ext in
      let outputDir := getOutputPath (File file) in
      let destPath := GoFilepath.Join [outputDir; destName] in
      [{| pv_Source := srcPath; pv_Destination := destPath |}])
    (mv_Files movie).

(** The body of the loops over show.Seasons, season.Episodes and
    episode.Files. *)
Definition showPreviews (show : ShowInfo) : list PathPreview :=
  flat_map (fun season =>
    flat_map (fun episode =>
      flat_map (fun file =>
        if filteredOut file then []
        else
          let srcPath := sourcePath file in
          let ext := GetExtension srcPath in
          let destName :=
            FormatEpisode formatter (sh_Metadata show) (se_Metadata season)
                          episode ext in
          let outputDir := getOutputPath (File file) in
          let destPath := GoFilepath.Join [outputDir; destName] in
          [{| pv_Source := srcPath; pv_Destination := destPath |}])
        (ep_Files episode))
      (Episodes season))
    (Seasons show).

Definition toOperation (pv : PathPreview) : Operation :=
  {| Source := pv_Source pv; Destination := pv_Destination pv;
     Mode := cfg_Mode config |}.

Definition interactive : bool :=
  negb (AutoApprove config) && negb (ScriptMode config).

(** The loop over content.Movies; [operations] is the slice built so
    far.  An error of the prompt returns (nil, err). *)
Fixpoint movieLoop (movies : list MovieInfo) (operations : list Operation)
         (p : Prompter) : (list Operation * option ioError) * Prompter :=
  match movies with
  | [] => ((operations, None), p)
  | movie :: rest =>
    if match selectedLocations with
       | Some sel => negb (fileInLocations (mv_Files movie) sel)
       | None => false
       end
    then movieLoop rest operations p
    else
      let previews := moviePreviews movie in
      let '((proceed, _, err), p) :=
        if interactive then PromptMovie movie previews p
        else ((true, false, None), p) in
      match err with
      | Some err => (([], Some err), p)
      | None =>
        if negb proceed then movieLoop rest operations p
        else movieLoop rest (operations ++ map toOperation previews) p
      end
  end.

(** The loop over content.Shows. *)
Fixpoint showLoop (shows : list ShowInfo) (operations : list Operation)
         (p : Prompter) : (list Operation * option ioError) * Prompter :=
  match shows with
  | [] => ((operations, None), p)
  | show :: rest =>
    if match selectedLocations with
       | Some sel => negb (showInLocations show sel)
       | None => false
       end
    then showLoop rest operations p
    else
      let previews := showPreviews show in
      if Nat.eqb (List.length previews) 0 then showLoop rest operations p
      else
        let '((proceed, _, err), p) :=
          if interactive then PromptShow show (List.length previews) previews p
          else ((true, false, None), p) in
        match err with
        | Some err => (([], Some err), p)
        | None =>
          if negb proceed then showLoop rest operations p
          else showLoop rest (operations ++ map toOperation previews) p
        end
  end.

Definition generateOperations (prompter : Prompter)
  : (list Operation * option ioError) * Prompter :=
  let operations := [] in
  if (ls_SectionType (Section content) =? SectionTypeMovie)%Z
  then movieLoop (Movies content) operations prompter
  else if (ls_SectionType (Section content) =? SectionTypeShow)%Z
  then showLoop (Shows content) operations prompter
  else ((operations, None), prompter).

End Generate.
End Planner.

End Main.

(* ===================================================================== *)
(** ** int, strings.Split, strings.SplitN, fmt.Sscanf *)
(* ===================================================================== *)

Module GoScan.
Import GoUtf8 GoStrings.

(** The Go [int] of a 64-bit build; its arithmetic wraps around. *)
Definition MinInt : Z := (- 2 ^ 63)%Z.
Definition MaxInt : Z := (2 ^ 63 - 1)%Z.
Definition wrapInt (z : Z) : Z := ((z + 2 ^ 63) mod 2 ^ 64 - 2 ^ 63)%Z.

(** strings.Split(s, sep) for a non-empty separator: the texts between
    the occurrences of [sep], found from the left without overlap
    ([skip] counts the bytes of an occurrence still to be passed over). *)
Fixpoint splitFrom (skip : nat) (sep s : string) : list string :=
  match s with
  | EmptyString => [EmptyString]
  | String c t =>
    match skip with
    | S k => splitFrom k sep t
    | O =>
      if String.prefix sep s
      then EmptyString :: splitFrom (String.length sep - 1) sep t
      else match splitFrom 0 sep t with
           | e :: es => String c e :: es
           | [] => [String c EmptyString]
           end
    end
  end.

Definition Split (s sep : string) : list string := splitFrom 0 sep s.

(** The text before and the text after the first occurrence of a
    non-empty [sep] (strings.Index and the two slices genSplit takes). *)
Fixpoint cut (sep s : string) : option (string * string) :=
  match s with
  | EmptyString => None
  | String c t =>
    if String.prefix sep s then Some (EmptyString, sdrop (String.length sep) s)
    else match cut sep t with
         | Some (before, after) => Some (String c before, after)
         | None => None
         end
  end.

Fixpoint splitUpTo (n : nat) (sep s : string) : list string :=
  match n with
  | O => [s]
  | S k =>
    match cut sep s with
    | Some (before, after) => before :: splitUpTo k sep after
    | None => [s]
    end
  end.

(** strings.SplitN(s, sep, n) for a non-empty separator. *)
Definition SplitN (s sep : string) (n : Z) : list string :=
  if (n =? 0)%Z then []
  else if (n <? 0)%Z then Split s sep
  else splitUpTo (Z.to_nat n - 1) sep s.

(** fmt's SkipSpace as Sscanf runs it: white space is passed over, a
    newline is an error. *)
Fixpoint skipSpace (skip : nat) (s : string) : option string :=
  match s with
  | EmptyString => Some EmptyString
  | String _ t =>
    match skip with
    | S k => skipSpace k t
    | O =>
      let '(r, w) := DecodeRuneInString s in
      if (r =? 10)%Z then None
      else if GoUnicode.IsSpace r then skipSpace (w - 1) t
      else Some s
    end
  end.

Definition isDigit (c : ascii) : bool := ((48 <=? byteN c) && (byteN c <=? 57))%N.

(** The bytes scanNumber accepts for the verb %d: the decimal digits and
    the underscore. *)
Fixpoint digitRun (s : string) : string :=
  match s with
  | EmptyString => EmptyString
  | String c t =>
    if isDigit c || Ascii.eqb c "_" then String c (digitRun t) else EmptyString
  end.

(** The value of a text of decimal digits; [None] when another byte
    occurs in it (strconv.ParseInt in base 10 rejects the underscore). *)
Fixpoint decimalFrom (acc : Z) (tok : string) : option Z :=
  match tok with
  | EmptyString => Some acc
  | String c t =>
    if isDigit c then decimalFrom (10 * acc + (byteZ c - 48))%Z t else None
  end.

(** fmt.Sscanf(str, "%d", &idx): the integer stored, or [None] when
    Sscanf returns an error.  An optional sign and the digits are read
    after leading white space; what follows the number is not looked at;
    a number that does not fit the int is an error. *)
Definition Sscanf_d (str : string) : option Z :=
  match skipSpace 0 str with
  | None => None
  | Some s =>
    let '(negative, s) :=
      match s with
      | String c t =>
        if Ascii.eqb c "-" then (true, t)
        else if Ascii.eqb c "+" then (false, t)
        else (false, s)
      | EmptyString => (false, s)
      end in
    match digitRun s with
    | EmptyString => None
    | tok =>
      match decimalFrom 0 tok with
      | None => None
      | Some v =>
        let v := if negative then (- v)%Z else v in
        if ((MinInt <=? v) && (v <=? MaxInt))%Z then Some v else None
      end
    end
  end.

End GoScan.

(* ===================================================================== *)
(** ** internal/cli: the other prompts and the reports *)
(* ===================================================================== *)

(** Lines that are printed for information only (headers, the listed
    locations, the echo of a chosen path) are not recorded; a question
    put to the user is recorded as [Ask], as in [Cli]. *)
Module Interactive.
Import GoStrings Database Operations Cli GoScan.

(** What ShowResults counts and lists. *)
Record ResultsBox := {
  succeeded : nat;
  skipped : nat;
  failed : nat;
  failures : list Result
}.

Definition countResult (box : ResultsBox) (r : Result) : ResultsBox :=
  match Error r with
  | Some _ =>
    {| succeeded := succeeded box; skipped := skipped box;
       failed := S (failed box); failures := failures box ++ [r] |}
  | None =>
    if Skipped r then
      {| succeeded := succeeded box; skipped := S (skipped box);
         failed := failed box; failures := failures box |}
    else if Success r then
      {| succeeded := S (succeeded box); skipped := skipped box;
         failed := failed box; failures := failures box |}
    else box
  end.

(** ShowResults: the three counters handed to PrintResultsBox and the
    failures listed under "Failed operations:". *)
Definition ShowResults (results : list Result) : ResultsBox :=
  fold_left countResult results
            {| succeeded := 0; skipped := 0; failed := 0; failures := [] |}.

(** ShowOperationPreview: the operations printed, and the number
    announced by "... and %d more operations", if any. *)
Definition ShowOperationPreview (operations : list Operation) (limit : Z)
  : list Operation * option Z :=
  let count := Z.of_nat (List.length operations) in
  let count := if ((0 <? limit) && (limit <? count))%Z then limit else count in
  (firstn (Z.to_nat count) operations,
   if ((0 <? limit) && (limit <? Z.of_nat (List.length operations)))%Z
   then Some (Z.of_nat (List.length operations) - limit)%Z else None).

(** truncatePath; [None] is the run-time panic of a slice expression
    whose low bound lies outside the string. *)
Definition truncatePath (path : string) (maxLen : Z) : option string :=
  let len := Z.of_nat (String.length path) in
  if (len <=? maxLen)%Z then Some path
  else
    let low := wrapInt (wrapInt (len - maxLen) + 3) in
    if ((0 <=? low) && (low <=? len))%Z
    then Some ("..." ++ sdrop (Z.to_nat low) path)
    else None.

Section Prompts.
Context `{UnicodeCase}.

(** (yes, err) *)
Definition askYesNo (prompt : string) (p : Prompter)
  : (bool * option ioError) * Prompter :=
  let p := display (Ask prompt) p in
  let '((input, ok), p) := readLine p in
  if negb ok then ((false, Some EOF), p)
  else
    let input := TrimSpace (ToLower input) in
    ((String.eqb input "y" || String.eqb input "yes", None), p).

Definition ConfirmProceed (operationCount : nat) (mode : OperationMode)
           (dryRun : bool) (p : Prompter) : (bool * option ioError) * Prompter :=
  if dryRun then ((true, None), p)
  else askYesNo "Proceed?" p.

(** The loop of promptLocationsLoop; [selected] is the slice built so
    far. *)
Fixpoint locationsLoop (locations : list SectionLocation) (approveAll : bool)
         (selected : list SectionLocation) (p : Prompter)
  : (list SectionLocation * option ioError) * Prompter :=
  match locations with
  | [] => ((selected, None), p)
  | loc :: rest =>
    if approveAll then locationsLoop rest approveAll (selected ++ [loc]) p
    else
      let '((yes, all, err), p) := askYesNoAll "  Process this location?" p in
      match err with
      | Some err => (([], Some err), p)
      | None =>
        if all then locationsLoop rest true (selected ++ [loc]) p
        else if yes then locationsLoop rest approveAll (selected ++ [loc]) p
        else locationsLoop rest approveAll selected p
      end
  end.

(** (proceed, selectedLocations, err); [None] is the nil slice. *)
Definition promptLocationsLoop (locations : list SectionLocation) (p : Prompter)
  : (bool * option (list SectionLocation) * option ioError) * Prompter :=
  let '((selected, err), p) := locationsLoop locations false [] p in
  match err with
  | Some err => ((false, None, Some err), p)
  | None =>
    if Nat.eqb (List.length selected) 0 then ((false, None, None), p)
    else ((true, Some selected, None), p)
  end.

(** The location a part of the answer names, if it names one. *)
Definition locationByNumber (locations : list SectionLocation) (part : string)
  : list SectionLocation :=
  let part := TrimSpace part in
  match Sscanf_d part with
  | Some idx =>
    if ((1 <=? idx) && (idx <=? Z.of_nat (List.length locations)))%Z
    then match nth_error locations (Z.to_nat (idx - 1)) with
         | Some loc => [loc]
         | None => []
         end
    else []
  | None => []
  end.

Definition PromptLibrary (section : LibrarySection)
           (locations : list SectionLocation) (p : Prompter)
  : (bool * option (list SectionLocation) * option ioError) * Prompter :=
  let p := display (Ask "Process this library? ") p in
  let '((input, ok), p) := readLine p in
  if negb ok then ((false, None, Some EOF), p)
  else
    let input := TrimSpace (ToLower input) in
    if String.eqb input "y" || String.eqb input "yes" then ((true, None, None), p)
    else if String.eqb input "l" || String.eqb input "loop"
    then promptLocationsLoop locations p
    else if String.eqb input "n" || String.eqb input "no" then ((false, None, None), p)
    else
      let selected := flat_map (locationByNumber locations) (Split input ",") in
      if Nat.ltb 0 (List.length selected) then ((true, Some selected, None), p)
      else ((false, None, None), p).

(** The loop of PromptLocationOutputs; [results] is the slice built so
    far. *)
Fixpoint outputsLoop (locations : list SectionLocation) (defaultOutput : string)
         (results : list LocationWithOutput) (p : Prompter)
  : (list LocationWithOutput * option ioError) * Prompter :=
  match locations with
  | [] => ((results, None), p)
  | loc :: rest =>
    let p := display (Ask "  Output path: ") p in
    let '((input, ok), p) := readLine p in
    if negb ok then (([], Some EOF), p)
    else
      let input := TrimSpace input in
      let outputPath := if negb (String.eqb input "") then input else defaultOutput in
      outputsLoop rest defaultOutput
                  (results ++ [{| Location := loc; OutputPath := outputPath |}]) p
  end.

Definition PromptLocationOutputs (locations : list SectionLocation)
           (defaultOutput : string) (p : Prompter)
  : (list LocationWithOutput * option ioError) * Prompter :=
  outputsLoop locations defaultOutput [] p.

End Prompts.

End Interactive.

(* ===================================================================== *)
(** ** internal/database/plex.go *)
(* ===================================================================== *)

Module Plex.
Import Database.

Definition MediaTypeMovie : Z := 1.
Definition MediaTypeShow : Z := 2.

(** An error of database/sql, as a query method wraps and returns it. *)
Inductive sqlError := SqlError (message : string).

Inductive result (A : Type) := Rows (a : A) | Failed (e : sqlError).
Arguments Rows {A} a.
Arguments Failed {A} e.

(** The opened database as its query methods show it.  The connection
    is read-only and immutable, so each query is a function of its
    arguments. *)
Record PlexDB := {
  GetLibrarySections : result (list LibrarySection);
  GetSectionLocations : Z -> result (list SectionLocation);
  GetMetadataItems : Z -> Z -> result (list MetadataItem);
  GetChildMetadata : Z -> result (list MetadataItem);
  GetMediaParts : Z -> result (list MediaPart)
}.

Section Content.
Context (p : PlexDB).

(** The loop of getMovies; [movies] is the slice built so far. *)
Fixpoint moviesLoop (items : list MetadataItem) (movies : list MovieInfo)
  : result (list MovieInfo) :=
  match items with
  | [] => Rows movies
  | item :: rest =>
    match GetMediaParts p (ID item) with
    | Failed e => Failed e
    | Rows files =>
      moviesLoop rest (movies ++ [{| mv_Metadata := item; mv_Files := files |}])
    end
  end.

Definition getMovies (sectionID : Z) : result (list MovieInfo) :=
  match GetMetadataItems p sectionID MediaTypeMovie with
  | Failed e => Failed e
  | Rows items => moviesLoop items []
  end.

Fixpoint episodesLoop (episodes : list MetadataItem) (episodeInfos : list EpisodeInfo)
  : result (list EpisodeInfo) :=
  match episodes with
  | [] => Rows episodeInfos
  | episode :: rest =>
    match GetMediaParts p (ID episode) with
    | Failed e => Failed e
    | Rows files =>
      episodesLoop rest
        (episodeInfos ++ [{| ep_Metadata := episode; ep_Files := files |}])
    end
  end.

Definition getEpisodes (seasonID : Z) : result (list EpisodeInfo) :=
  match GetChildMetadata p seasonID with
  | Failed e => Failed e
  | Rows episodes => episodesLoop episodes []
  end.

Fixpoint seasonsLoop (seasons : list MetadataItem) (seasonInfos : list SeasonInfo)
  : result (list SeasonInfo) :=
  match seasons with
  | [] => Rows seasonInfos
  | season :: rest =>
    match getEpisodes (ID season) with
    | Failed e => Failed e
    | Rows episodes =>
      seasonsLoop rest
        (seasonInfos ++ [{| se_Metadata := season; Episodes := episodes |}])
    end
  end.

Definition getSeasons (showID : Z) : result (list SeasonInfo) :=
  match GetChildMetadata p showID with
  | Failed e => Failed e
  | Rows seasons => seasonsLoop seasons []
  end.

Fixpoint showsLoop (shows : list MetadataItem) (showInfos : list ShowInfo)
  : result (list ShowInfo) :=
  match shows with
  | [] => Rows showInfos
  | show :: rest =>
    match getSeasons (ID show) with
    | Failed e => Failed e
    | Rows seasons =>
      showsLoop rest (showInfos ++ [{| sh_Metadata := show; Seasons := seasons |}])
    end
  end.

Definition getShows (sectionID : Z) : result (list ShowInfo) :=
  match GetMetadataItems p sectionID MediaTypeShow with
  | Failed e => Failed e
  | Rows shows => showsLoop shows []
  end.

Definition GetLibraryContent (section : LibrarySection) : result LibraryContent :=
  match GetSectionLocations p (ls_ID section) with
  | Failed e => Failed e
  | Rows locations =>
    if (ls_SectionType section =? SectionTypeMovie)%Z then
      match getMovies (ls_ID section) with
      | Failed e => Failed e
      | Rows movies =>
        Rows {| Section := section; Locations := locations;
                Movies := movies; Shows := [] |}
      end
    else if (ls_SectionType section =? SectionTypeShow)%Z then
      match getShows (ls_ID section) with
      | Failed e => Failed e
      | Rows shows =>
        Rows {| Section := section; Locations := locations;
                Movies := []; Shows := shows |}
      end
    else
      Rows {| Section := section; Locations := locations;
              Movies := []; Shows := [] |}
  end.

End Content.

End Plex.

(* ===================================================================== *)
(** ** cmd/main.go: the flags, the scripts and the run *)
(* ===================================================================== *)

Module App.
Import GoStrings Database Formatter GoOs Operations Cli Main GoScan Interactive.
Local Open Scope go_scope.

(** The values the flag package holds after flag.Parse: one per flag
    declared in parseFlags, and the remaining arguments. *)
Record Flags := {
  flag_output : string;
  flag_dry_run : bool;
  flag_script : bool;
  flag_shell : string;
  flag_script_output : string;
  flag_mode : string;
  flag_tv_format : string;
  flag_movie_format : string;
  flag_path_map : string;
  flag_auto_approve : bool;
  flag_args : list string
}.

(** The defaults the declarations give. *)
Definition defaultFlags (args : list string) : Flags :=
  {| flag_output := ""; flag_dry_run := false; flag_script := false;
     flag_shell := "cmd"; flag_script_output := ""; flag_mode := "move";
     flag_tv_format := DefaultTVFormat; flag_movie_format := DefaultMovieFormat;
     flag_path_map := ""; flag_auto_approve := false; flag_args := args |}.

(** The ways the program ends with os.Exit(1), by the message printed
    before:
    - [InvalidMode m]:       "Invalid mode: %s (use 'copy' or 'move')"
    - [InvalidPathMap]:      "Invalid path-map format. Use: old:new"
    - [MissingDatabasePath]: "Error: database path is required"
    - [RunFailed]:           "Error: %v" with the error of run *)
Inductive Exit (E : Type) :=
| InvalidMode (mode : string)
| InvalidPathMap
| MissingDatabasePath
| RunFailed (err : E).
Arguments InvalidMode {E} mode.
Arguments InvalidPathMap {E}.
Arguments MissingDatabasePath {E}.
Arguments RunFailed {E} err.

Inductive runError :=
| ErrOpenDatabase (e : Plex.sqlError)
| ErrLibrarySections (e : Plex.sqlError)
| ErrPrompt (e : ioError)
| ErrScriptFile (e : Errno).

Definition newline : string := String "010" EmptyString.
Definition quoted (s : string) : string := dquote ++ s ++ dquote.

(** fmt.Sprintf("%d", n) of a length or an index. *)
Definition num (n : nat) : string := GoFmt.d (Z.of_nat n).

(** The head of a generated script, after the title lines: each line
    begins with [mark]. *)
Definition scriptHead (mark : string) (operations : list Operation) (config : Config)
  : string :=
  mark ++ "Mode: " ++ cfg_Mode config ++ newline
  ++ mark ++ "Output directory: " ++ OutputDir config ++ newline
  ++ mark ++ "Total operations: " ++ num (List.length operations) ++ newline
  ++ (if negb (String.eqb (PathMapSrc config) "")
      then mark ++ "Path mapping: " ++ PathMapSrc config ++ " -> "
           ++ PathMapDst config ++ newline
      else "").

Fixpoint previewBlocks (i : nat) (operations : list Operation) : string :=
  match operations with
  | [] => ""
  | op :: rest =>
    "[" ++ num i ++ "] " ++ Mode op ++ newline
    ++ "    From: " ++ Source op ++ newline
    ++ "    To:   " ++ Destination op ++ newline
    ++ newline
    ++ previewBlocks (S i) rest
  end.

(** What writeScriptPreview writes. *)
Definition writeScriptPreview (operations : list Operation) (config : Config) : string :=
  "============================================" ++ newline
  ++ "Plex File Renamer - DRY RUN PREVIEW" ++ newline
  ++ "============================================" ++ newline
  ++ newline
  ++ scriptHead "" operations config
  ++ newline
  ++ "This is a PREVIEW - no files will be modified." ++ newline
  ++ "Remove --dry-run flag to generate an executable script." ++ newline
  ++ newline
  ++ "============================================" ++ newline
  ++ "PLANNED OPERATIONS" ++ newline
  ++ "============================================" ++ newline
  ++ newline
  ++ previewBlocks 1 operations
  ++ "============================================" ++ newline
  ++ "Total: " ++ num (List.length operations) ++ " operations" ++ newline
  ++ "============================================" ++ newline.

Fixpoint cmdBlocks (i total : nat) (config : Config) (operations : list Operation)
  : string :=
  match operations with
  | [] => ""
  | op :: rest =>
    let src := escapeCmdPath (Source op) in
    let dst := escapeCmdPath (Destination op) in
    let destDir := escapeCmdPath (GoFilepath.Dir (Destination op)) in
    "echo [" ++ num i ++ "/" ++ num total ++ "] " ++ cfg_Mode config ++ newline
    ++ "echo   From: " ++ escapeCmdPath (Source op) ++ newline
    ++ "echo   To:   " ++ escapeCmdPath (Destination op) ++ newline
    ++ "if not exist " ++ quoted destDir ++ " mkdir " ++ quoted destDir ++ newline
    ++ (if String.eqb (cfg_Mode config) ModeCopy
        then "if not exist " ++ quoted dst ++ " copy " ++ quoted src ++ " "
             ++ quoted dst ++ newline
        else "if not exist " ++ quoted dst ++ " move " ++ quoted src ++ " "
             ++ quoted dst ++ newline)
    ++ cmdBlocks (S i) total config rest
  end.

(** What writeScriptCmd writes. *)
Definition writeScriptCmd (operations : list Operation) (config : Config) : string :=
  "@echo off" ++ newline
  ++ "REM ============================================" ++ newline
  ++ "REM Generated by Plex File Renamer" ++ newline
  ++ "REM ============================================" ++ newline
  ++ "REM" ++ newline
  ++ scriptHead "REM " operations config
  ++ "REM" ++ newline
  ++ "REM This script will skip files that already exist at destination." ++ newline
  ++ "REM ============================================" ++ newline
  ++ newline
  ++ cmdBlocks 1 (List.length operations) config operations
  ++ newline
  ++ "echo." ++ newline
  ++ "echo Completed " ++ num (List.length operations) ++ " operations." ++ newline
  ++ "pause" ++ newline.

(** The escaping of a path for a single-quoted PowerShell string. *)
Definition escapePowerShell (path : string) : string := ReplaceAll path "'" "''".

Fixpoint powerShellBlocks (i total : nat) (config : Config)
         (operations : list Operation) : string :=
  match operations with
  | [] => ""
  | op :: rest =>
    let src := escapePowerShell (Source op) in
    let dst := escapePowerShell (Destination op) in
    let destDir := escapePowerShell (GoFilepath.Dir (Destination op)) in
    "Write-Host '[" ++ num i ++ "/" ++ num total ++ "] " ++ cfg_Mode config ++ "'"
    ++ newline
    ++ "Write-Host '  From: " ++ src ++ "'" ++ newline
    ++ "Write-Host '  To:   " ++ dst ++ "'" ++ newline
    ++ "if (-not (Test-Path '" ++ destDir
    ++ "')) { New-Item -ItemType Directory -Path '" ++ destDir
    ++ "' -Force | Out-Null }" ++ newline
    ++ (if String.eqb (cfg_Mode config) ModeCopy
        then "if (-not (Test-Path '" ++ dst ++ "')) { Copy-Item -Path '" ++ src
             ++ "' -Destination '" ++ dst ++ "' }" ++ newline
        else "if (-not (Test-Path '" ++ dst ++ "')) { Move-Item -Path '" ++ src
             ++ "' -Destination '" ++ dst ++ "' }" ++ newline)
    ++ powerShellBlocks (S i) total config rest
  end.

(** What writeScriptPowerShell writes. *)
Definition writeScriptPowerShell (operations : list Operation) (config : Config)
  : string :=
  "# ============================================" ++ newline
  ++ "# Generated by Plex File Renamer" ++ newline
  ++ "# ============================================" ++ newline
  ++ "#" ++ newline
  ++ scriptHead "# " operations config
  ++ "#" ++ newline
  ++ "# This script will skip files that already exist at destination." ++ newline
  ++ "# ============================================" ++ newline
  ++ newline
  ++ powerShellBlocks 1 (List.length operations) config operations
  ++ newline
  ++ "Write-Host 'Completed " ++ num (List.length operations) ++ " operations.'"
  ++ newline.

(** The escaping of a path for a single-quoted word of a POSIX shell:
    the quote is closed, an escaped quote is written, the quote is opened
    again. *)
Definition escapeBash (path : string) : string := ReplaceAll path "'" "'\''".

(** The lines written for one operation: the progress, the directory,
    the transfer. *)
Definition bashBlock (i total : nat) (config : Config) (op : Operation) : string :=
  let src := escapeBash (Source op) in
  let dst := escapeBash (Destination op) in
  let destDir := escapeBash (GoFilepath.Dir (Destination op)) in
  "echo '[" ++ num i ++ "/" ++ num total ++ "] " ++ cfg_Mode config ++ "'" ++ newline
  ++ "echo '  From: " ++ src ++ "'" ++ newline
  ++ "echo '  To:   " ++ dst ++ "'" ++ newline
  ++ "mkdir -p '" ++ destDir ++ "'" ++ newline
  ++ (if String.eqb (cfg_Mode config) ModeCopy
      then "[ ! -f '" ++ dst ++ "' ] && cp '" ++ src ++ "' '" ++ dst ++ "'" ++ newline
      else "[ ! -f '" ++ dst ++ "' ] && mv '" ++ src ++ "' '" ++ dst ++ "'" ++ newline).

Fixpoint bashBlocks (i total : nat) (config : Config) (operations : list Operation)
  : string :=
  match operations with
  | [] => ""
  | op :: rest => bashBlock i total config op ++ bashBlocks (S i) total config rest
  end.

(** What writeScriptBash writes. *)
Definition writeScriptBash (operations : list Operation) (config : Config) : string :=
  "#!/bin/bash" ++ newline
  ++ "# ============================================" ++ newline
  ++ "# Generated by Plex File Renamer" ++ newline
  ++ "# ============================================" ++ newline
  ++ "#" ++ newline
  ++ scriptHead "# " operations config
  ++ "#" ++ newline
  ++ "# This script will skip files that already exist at destination." ++ newline
  ++ "# ============================================" ++ newline
  ++ newline
  ++ bashBlocks 1 (List.length operations) config operations
  ++ newline
  ++ "echo 'Completed " ++ num (List.length operations) ++ " operations.'" ++ newline.

(** Writing through the open file: the text is appended to what the
    file holds.  The code ignores the errors of fmt.Fprintf; the writes
    are taken to go through, and they are not recorded as calls. *)
Definition WriteString (name text : string) : M unit :=
  fun w =>
    match files w !! name with
    | Some f =>
      (Done tt,
       setFiles (<[name := {| data := data f ++ text; mode := mode f |}]> (files w)) w)
    | None => (Done tt, w)
    end.

Section Run.
Context `{UnicodeCase}.
Context (env : Env).

Definition isPowerShell (shell : string) : bool :=
  String.eqb shell "powershell" || String.eqb shell "ps" || String.eqb shell "ps1".

Definition isBash (shell : string) : bool :=
  String.eqb shell "bash" || String.eqb shell "sh".

(** The name of the file outputScript creates. *)
Definition scriptFile (config : Config) : string :=
  if negb (String.eqb (ScriptOutput config) "") then ScriptOutput config
  else if DryRun config then "rename_preview.txt"
  else
    let shell := ToLower (ScriptShell config) in
    if isPowerShell shell then "rename.ps1"
    else if isBash shell then "rename.sh"
    else "rename.bat".

(** The text outputScript writes into it. *)
Definition scriptText (operations : list Operation) (config : Config) : string :=
  if DryRun config then writeScriptPreview operations config
  else
    let shell := ToLower (ScriptShell config) in
    if isPowerShell shell then writeScriptPowerShell operations config
    else if isBash shell then writeScriptBash operations config
    else writeScriptCmd operations config.

Definition outputScript (operations : list Operation) (config : Config)
  : M (option runError) :=
  let outputFile := scriptFile config in
  let* file := Create env outputFile in
  match file with
  | Err e => ret (Some (ErrScriptFile e))
  | Ok file =>
    let* _ := WriteString file (scriptText operations config) in
    ret None
  end.

(** parseFlags: the configuration, or the exit it ends the program
    with. *)
Definition parseFlags (flags : Flags) : Config + Exit runError :=
  let databasePath := match flag_args flags with
                      | arg :: _ => arg
                      | [] => ""
                      end in
  let config mode pathMapSrc pathMapDst :=
    {| DatabasePath := databasePath; OutputDir := flag_output flags;
       DryRun := flag_dry_run flags; ScriptMode := flag_script flags;
       ScriptShell := flag_shell flags; ScriptOutput := flag_script_output flags;
       cfg_Mode := mode; cfg_TVFormat := flag_tv_format flags;
       cfg_MovieFormat := flag_movie_format flags;
       PathMapSrc := pathMapSrc; PathMapDst := pathMapDst;
       AutoApprove := flag_auto_approve flags |} in
  let withMode mode :=
    if negb (String.eqb (flag_path_map flags) "") then
      match SplitN (flag_path_map flags) ":" 2 with
      | [src; dst] => inl (config mode src dst)
      | _ => inr InvalidPathMap
      end
    else inl (config mode "" "") in
  let modeStr := ToLower (flag_mode flags) in
  if String.eqb modeStr "copy" then withMode ModeCopy
  else if String.eqb modeStr "move" then withMode ModeMove
  else inr (InvalidMode (flag_mode flags)).

(** What a run leaves to be seen besides its error: the prompter, the
    file system, and what ShowOperationPreview and ShowResults were
    given to print. *)
Record Session := {
  prompter : Prompter;
  world : World;
  previewed : option (list Operation * option Z);
  reported : option ResultsBox
}.

(** The loop of run over the library sections; [allOperations] is the
    slice built so far. *)
Fixpoint sectionsLoop (config : Config) (formatter : Formatter) (db : Plex.PlexDB)
         (sections : list LibrarySection) (allOperations : list Operation)
         (p : Prompter) : (list Operation * option ioError) * Prompter :=
  match sections with
  | [] => ((allOperations, None), p)
  | section :: rest =>
    match Plex.GetLibraryContent db section with
    | Plex.Failed _ => sectionsLoop config formatter db rest allOperations p
    | Plex.Rows content =>
      let generate selectedLocations locationOutputs p :=
        let '((ops, err), p) :=
          generateOperations config formatter content selectedLocations
                             locationOutputs p in
        match err with
        | Some err => (([], Some err), p)
        | None => sectionsLoop config formatter db rest (allOperations ++ ops) p
        end in
      if negb (AutoApprove config) && negb (ScriptMode config) then
        let '((proceed, locations, err), p) :=
          PromptLibrary section (Locations content) p in
        match err with
        | Some err => (([], Some err), p)
        | None =>
          if negb proceed then sectionsLoop config formatter db rest allOperations p
          else
            match locations with
            | Some (loc :: more) =>
              let '((locationOutputs, err), p) :=
                PromptLocationOutputs (loc :: more) (OutputDir config) p in
              match err with
              | Some err => (([], Some err), p)
              | None => generate locations locationOutputs p
              end
            | _ => generate locations [] p
            end
        end
      else generate None [] p
    end
  end.

(** The loop over allOperations in run. *)
Fixpoint executeAll (operations : list Operation) (dryRun : bool) : M (list Result) :=
  match operations with
  | [] => ret []
  | op :: rest =>
    let* r := Execute env op dryRun in
    let* rs := executeAll rest dryRun in
    ret (r :: rs)
  end.

(** run; [openDatabase] is database.Open on the machine the program
    runs on, and [input] what standard input holds. *)
Definition run (openDatabase : string -> Plex.result Plex.PlexDB) (config : Config)
           (input : string) (w : World) : outcome (option runError) * Session :=
  let session p w previewed reported :=
    {| prompter := p; world := w; previewed := previewed; reported := reported |} in
  let p := NewPrompter input in
  match openDatabase (DatabasePath config) with
  | Plex.Failed e => (Done (Some (ErrOpenDatabase e)), session p w None None)
  | Plex.Rows db =>
    match Plex.GetLibrarySections db with
    | Plex.Failed e => (Done (Some (ErrLibrarySections e)), session p w None None)
    | Plex.Rows sections =>
      if Nat.eqb (List.length sections) 0 then (Done None, session p w None None)
      else
        let formatter := NewFormatter (cfg_TVFormat config) (cfg_MovieFormat config) in
        let '((allOperations, err), p) :=
          sectionsLoop config formatter db sections [] p in
        match err with
        | Some err => (Done (Some (ErrPrompt err)), session p w None None)
        | None =>
          if Nat.eqb (List.length allOperations) 0
          then (Done None, session p w None None)
          else if ScriptMode config then
            let '(err, w) := outputScript allOperations config w in
            (err, session p w None None)
          else
            let previewed := Some (ShowOperationPreview allOperations 10) in
            let '((proceed, err), p) :=
              ConfirmProceed (List.length allOperations) (cfg_Mode config)
                             (DryRun config) p in
            match err with
            | Some err => (Done (Some (ErrPrompt err)), session p w previewed None)
            | None =>
              if negb proceed then (Done None, session p w previewed None)
              else
                match executeAll allOperations (DryRun config) w with
                | (Done results, w) =>
                  (Done None, session p w previewed (Some (ShowResults results)))
                | (Panic, w) => (Panic, session p w previewed None)
                end
            end
        end
    end
  end.

(** main, from the parsed flags on: the exit the program ends with, or
    [None] when main returns. *)
Definition main (openDatabase : string -> Plex.result Plex.PlexDB) (flags : Flags)
           (input : string) (w : World)
  : outcome (option (Exit runError)) * option Session :=
  match parseFlags flags with
  | inr exit => (Done (Some exit), None)
  | inl config =>
    if String.eqb (DatabasePath config) "" then (Done (Some MissingDatabasePath), None)
    else
      match run openDatabase config input w with
      | (Done (Some err), s) => (Done (Some (RunFailed err)), Some s)
      | (Done None, s) => (Done None, Some s)
      | (Panic, s) => (Panic, Some s)
      end
  end.

End Run.

End App.

(* ===================================================================== *)
(** ** Reference definitions and scenarios *)
(* ===================================================================== *)

Module Spec.
Import GoStrings.

(** Character-wise substitution: every byte [c] of [s] is replaced by
    [f c]. *)
Fixpoint substBytes (f : ascii -> string) (s : string) : string :=
  match s with
  | EmptyString => EmptyString
  | String c t => f c ++ substBytes f t
  end.

Definition substOne (old : ascii) (new : string) (c : ascii) : string :=
  if Ascii.eqb c old then new else String c EmptyString.

(** The batch escaping as the specification words it: a percent sign is
    doubled, a caret of the input is doubled, and each of & < > | ! gets
    one caret in front; every other byte stands for itself. *)
Definition escapeCmdChar (c : ascii) : string :=
  if Ascii.eqb c "%" then "%%"
  else if Ascii.eqb c "^" then "^^"
  else if Ascii.eqb c "&" || Ascii.eqb c "<" || Ascii.eqb c ">"
          || Ascii.eqb c "|" || Ascii.eqb c "!"
  then String "^" (String c EmptyString)
  else String c EmptyString.

Definition escapeCmdPath_spec (path : string) : string :=
  substBytes escapeCmdChar path.

(** The substitution table of sanitizeFilename read as a function of one
    byte. *)
Fixpoint tableLookup (table : list (string * string)) (c : ascii) : string :=
  match table with
  | [] => String c EmptyString
  | (old, new) :: rest =>
    if String.eqb old (String c EmptyString) then new else tableLookup rest c
  end.

(** [c] is one of the bytes the table replaces. *)
Definition isKey (table : list (string * string)) (c : ascii) : Prop :=
  exists new, In (String c EmptyString, new) table.

(** Every pattern of the table is a single byte, and no replacement text
    contains a byte the table replaces. *)
Definition bytewiseTable (table : list (string * string)) : Prop :=
  forall old new, In (old, new) table ->
    (exists o, old = String o EmptyString)
    /\ forall c, In c (bytes new) -> ~ isKey table c.

(** What the replacements followed by the removal of control characters
    make of one byte of an ASCII name. *)
Definition scrub (c : ascii) : string :=
  substBytes (fun c => if (0 <=? Formatter.dropControl (GoUtf8.byteZ c))%Z
                       then GoUtf8.EncodeRune (Formatter.dropControl (GoUtf8.byteZ c))
                       else EmptyString)
             (tableLookup Formatter.replacements c).

Definition lastByte (s : string) : option ascii := last (bytes s).

Definition firstByte (s : string) : option ascii := head (bytes s).

(** The nine characters sanitizeFilename is to keep out of a name: colon,
    slash, backslash, asterisk, question mark, double quote, less-than,
    greater-than and pipe. *)
Definition forbidden : list ascii :=
  [ ":"%char; "/"%char; "092"%char; "*"%char; "?"%char; "034"%char;
    "<"%char; ">"%char; "|"%char ].

(** An ASCII byte that is neither one of the nine characters nor a
    control character. *)
Definition plainByte (c : ascii) : bool :=
  (GoUtf8.byteN c <? GoUtf8.RuneSelf)%N
  && negb (existsb (Ascii.eqb c) forbidden)
  && negb (GoUnicode.IsControl (GoUtf8.byteZ c)).

End Spec.

Module ExecSpec.
Import GoOs Operations.

(** os.Stat(name) succeeds. *)
Definition present (w : World) (name : string) : bool :=
  match lookupInfo w name with Ok _ => true | Err _ => false end.

(** Same files and directories; only the record of calls may differ. *)
Definition sameDisk (w w' : World) : Prop :=
  files w' = files w /\ dirs w' = dirs w.

(** What a live Execute reports for an operation whose destination is
    already there: skipped, unless the source is missing. *)
Definition rerunOutcome (w : World) (op : Operation) (r : Result) : Prop :=
  Op r = op /\
  if present w (Source op)
  then Skipped r = true /\ Success r = true /\ Error r = None
  else Skipped r = false /\ Success r = false /\
       Error r = Some (ErrSourceMissing (Source op)).

(** moveFile takes the fallback and the copy reports no error: rename is
    refused, the source opens, the destination can be created, io.Copy
    returns nil. *)
Record fallbackCopies (env : Env) (w : World) (src dst : string) : Prop := {
  fb_rename : is_Some (renameFault env src dst);
  fb_open : openFault env src = None;
  fb_create : createFault env dst = None;
  fb_notdir : dst ∉ dirs w;
  fb_copy : copyFault env src dst = None
}.

(** A live Execute gets as far as the transfer: the destination is not
    there and its directory can be made. *)
Record reachesTransfer (env : Env) (w : World) (op : Operation) : Prop := {
  rt_absent : present w (Destination op) = false;
  rt_mkdir : mkdirFault env (GoFilepath.Dir (Destination op)) = None;
  rt_clear : Forall (fun p => files w !! p = None)
                    (mkdirChain (GoFilepath.Dir (Destination op)));
  rt_notdir : Destination op ∉ mkdirChain (GoFilepath.Dir (Destination op))
}.

End ExecSpec.

Module PlanSpec.
Import Database Formatter Operations Cli Main.

Section Plan.
Context `{UnicodeCase}.
Context (formatter : Formatter) (content : LibraryContent)
        (locationOutputs : list LocationWithOutput).

(** [format] gives the file name of catalog file [file] from its
    extension: it is the movie or episode template expanded for the
    entity of the catalog that owns the file. *)
Inductive ownerFormat (file : MediaPart) : (string -> string) -> Prop :=
| OfMovie (movie : MovieInfo) :
    In movie (Movies content) -> In file (mv_Files movie) ->
    ownerFormat file (FormatMovie formatter movie)
| OfEpisode (show : ShowInfo) (season : SeasonInfo) (episode : EpisodeInfo) :
    In show (Shows content) -> In season (Seasons show) ->
    In episode (Episodes season) -> In file (ep_Files episode) ->
    ownerFormat file
      (FormatEpisode formatter (sh_Metadata show) (se_Metadata season) episode).

(** [op] places a file of the catalog: the source is the (mapped) path of
    the file, the destination is the output directory resolved for the
    file's catalog path joined with the formatted name, which takes its
    extension from the source. *)
Definition places (config : Config) (op : Operation) : Prop :=
  exists file format,
    ownerFormat file format
    /\ Source op = sourcePath config file
    /\ Destination op =
         GoFilepath.Join [getOutputPath config content locationOutputs (File file);
                          format (GetExtension (sourcePath config file))]
    /\ Mode op = cfg_Mode config.

(** Two operations made for one file of the catalog under two
    configurations: each has the file's path under its own mapping as
    source, and both destinations are the formatted name joined onto the
    one output directory resolved for the file's catalog path. *)
Definition sameOutputDir (c c' : Config) (op op' : Operation) : Prop :=
  exists file format,
    let dir := getOutputPath c content locationOutputs (File file) in
    ownerFormat file format
    /\ Source op = sourcePath c file /\ Source op' = sourcePath c' file
    /\ dir = getOutputPath c' content locationOutputs (File file)
    /\ Destination op
       = GoFilepath.Join [dir; format (GetExtension (sourcePath c file))]
    /\ Destination op'
       = GoFilepath.Join [dir; format (GetExtension (sourcePath c' file))].

Definition samePreview (c c' : Config) (pv pv' : PathPreview) : Prop :=
  sameOutputDir c c' (toOperation c pv) (toOperation c' pv').

(** Two runs of generateOperations end alike: the same error, and plans
    that correspond operation by operation. *)
Definition samePlans (c c' : Config)
           (r r' : (list Operation * option ioError) * Prompter) : Prop :=
  snd (fst r) = snd (fst r')
  /\ Forall2 (sameOutputDir c c') (fst (fst r)) (fst (fst r')).

End Plan.

(** Two configurations that agree on everything the planner reads apart
    from the path mapping. *)
Definition sameExceptMapping (c c' : Config) : Prop :=
  OutputDir c = OutputDir c' /\ ScriptMode c = ScriptMode c'
  /\ AutoApprove c = AutoApprove c' /\ cfg_Mode c = cfg_Mode c'.

(** Two prompters about to read the same input with the same standing
    approval. *)
Definition sameInput (p p' : Prompter) : Prop :=
  stdin p = stdin p' /\ ApproveAll p = ApproveAll p'.

End PlanSpec.

Module Scenario.
Import GoOs Database Formatter Operations Cli Main.

(** A case table that lowers A-Z and leaves every other rune alone; it
    agrees with unicode.ToLower on the ASCII paths of the scenarios
    (strings.ToLower does not consult the table for an ASCII string). *)
Definition asciiCase : UnicodeCase :=
  {| unicodeToLower r := if ((65 <=? r) && (r <=? 90))%Z then (r + 32)%Z else r |}.

Definition item (id : Z) (type : Z) (title : string) (year index : option Z) : MetadataItem :=
  {| ID := id; LibrarySectionID := 1; MetadataType := type; ParentID := None;
     Title := title; TitleSort := title; OriginalTitle := ""; Studio := "";
     Year := year; Index := index; OriginallyAvailable := "" |}.

Definition part (id : Z) (file : string) : MediaPart :=
  {| mp_ID := id; MediaItemID := id; File := file; Size := 0 |}.

Definition location (id : Z) (root : string) : SectionLocation :=
  {| loc_ID := id; loc_LibrarySectionID := 1; RootPath := root; Available := 1 |}.

Definition section (type : Z) : LibrarySection :=
  {| ls_ID := 1; ls_Name := "Library"; ls_SectionType := type;
     ls_Language := "en"; ls_Agent := "" |}.

Definition config (output : string) (mode : OperationMode)
           (mapSrc mapDst : string) (auto script : bool) : Config :=
  {| DatabasePath := "plex.db"; OutputDir := output; DryRun := false;
     ScriptMode := script; ScriptShell := "cmd"; ScriptOutput := "";
     cfg_Mode := mode; cfg_TVFormat := DefaultTVFormat;
     cfg_MovieFormat := DefaultMovieFormat;
     PathMapSrc := mapSrc; PathMapDst := mapDst; AutoApprove := auto |}.

Definition defaultFormatter : Formatter := NewFormatter DefaultTVFormat DefaultMovieFormat.

(** The show of the end-to-end scenario. *)
Definition showA : ShowInfo :=
  {| sh_Metadata := item 10 2 "Show A" (Some 2020%Z) None;
     Seasons :=
       [ {| se_Metadata := item 11 3 "Season 1" None (Some 1%Z);
            Episodes :=
              [ {| ep_Metadata := item 12 4 "Pilot" None (Some 3%Z);
                   ep_Files := [ part 1 "/src/Show A/ep1.mkv" ] |} ] |} ] |}.

Definition showLibrary (locations : list SectionLocation) : LibraryContent :=
  {| Section := section SectionTypeShow; Locations := locations;
     Movies := []; Shows := [showA] |}.

(** A movie that already sits under its library root with the name the
    default template gives it. *)
Definition placedMovie : MovieInfo :=
  {| mv_Metadata := item 20 1 "Movie" (Some 2020%Z) None;
     mv_Files := [ part 2 "/lib/Movie (2020).mkv" ] |}.

Definition placedLibrary : LibraryContent :=
  {| Section := section SectionTypeMovie; Locations := [ location 1 "/lib" ];
     Movies := [placedMovie]; Shows := [] |}.

(** A movie whose metadata has no media part. *)
Definition emptyMovie : MovieInfo :=
  {| mv_Metadata := item 30 1 "Lost" None None; mv_Files := [] |}.

Definition emptyLibrary : LibraryContent :=
  {| Section := section SectionTypeMovie; Locations := [ location 1 "/lib" ];
     Movies := [emptyMovie]; Shows := [] |}.

Definition newline : string := String "010" EmptyString.

(** "a." followed by U+00A0 (no-break space, bytes C2 A0). *)
Definition dotNbsp : string :=
  String "a" (String "." (String "194" (String "160" EmptyString))).

(** An environment in which no call fails and io.Copy writes what it
    reads. *)
Definition quiet : Env :=
  {| mkdirFault := fun _ => None; renameFault := fun _ _ => None;
     openFault := fun _ => None; createFault := fun _ => None;
     copyFault := fun _ _ => None; copyWrites := fun _ _ bytes => bytes;
     removeFault := fun _ => None; chmodFault := fun _ => None;
     createMode := 420%N |}.

(** Rename fails (another device); everything else as in [quiet]. *)
Definition crossDevice : Env :=
  {| mkdirFault := fun _ => None; renameFault := fun _ _ => Some EXDEV;
     openFault := fun _ => None; createFault := fun _ => None;
     copyFault := fun _ _ => None; copyWrites := fun _ _ bytes => bytes;
     removeFault := fun _ => None; chmodFault := fun _ => None;
     createMode := 420%N |}.

(** Across devices, with a transfer that loses the last bytes without
    reporting an error. *)
Definition shortCopy : Env :=
  {| mkdirFault := fun _ => None; renameFault := fun _ _ => Some EXDEV;
     openFault := fun _ => None; createFault := fun _ => None;
     copyFault := fun _ _ => None;
     copyWrites := fun _ _ bytes => GoStrings.stake 2 bytes;
     removeFault := fun _ => None; chmodFault := fun _ => None;
     createMode := 420%N |}.

(** Across devices, with a source that cannot be removed. *)
Definition stuckSource : Env :=
  {| mkdirFault := fun _ => None; renameFault := fun _ _ => Some EXDEV;
     openFault := fun _ => None; createFault := fun _ => None;
     copyFault := fun _ _ => None; copyWrites := fun _ _ bytes => bytes;
     removeFault := fun name => if String.eqb name "/src/a.mkv" then Some EACCES else None;
     chmodFault := fun _ => None;
     createMode := 420%N |}.

Definition media : FileNode := {| data := "video"; mode := 420%N |}.

(** One media file under /src; /out does not exist yet. *)
Definition disk : World :=
  {| files := {[ "/src/a.mkv" := media ]};
     dirs := {[ "/"; "/src" ]};
     trace := [] |}.

(** The same source with the destination already in place. *)
Definition diskWithBoth : World :=
  {| files := {[ "/src/a.mkv" := media; "/out/a.mkv" := media ]};
     dirs := {[ "/"; "/src"; "/out" ]};
     trace := [] |}.

(** Only the destination is present (the source was moved there). *)
Definition diskMoved : World :=
  {| files := {[ "/out/a.mkv" := media ]};
     dirs := {[ "/"; "/src"; "/out" ]};
     trace := [] |}.

Definition moveA : Operation :=
  {| Source := "/src/a.mkv"; Destination := "/out/a.mkv"; Mode := ModeMove |}.

Definition copyA : Operation :=
  {| Source := "/src/a.mkv"; Destination := "/out/a.mkv"; Mode := ModeCopy |}.

End Scenario.

(* ===================================================================== *)
(** ** Reference definitions for the other functions *)
(* ===================================================================== *)

Module NameSpec.
Import GoUtf8 Spec.

(** A byte that may stand in a file name: none of the nine characters
    and no ASCII control character. *)
Definition allowedByte (c : ascii) : Prop :=
  ~ In c forbidden /\ (32 <= byteN c)%N /\ byteN c <> 127%N.

End NameSpec.

Module FrameSpec.
Import GoOs.
(** [w'] differs from [w] at most in the files named in [names], and
    every directory of [w] is still there. *)
Definition changedWithin (names : list string) (w w' : World) : Prop :=
  (forall p, p ∉ names -> files w' !! p = files w !! p) /\ dirs w ⊆ dirs w'.

(** The shape of a result: it names its operation, an error and success
    exclude each other, and a skipped operation counts as a success. *)
Definition wellFormed (op : Operations.Operation) (r : Operations.Result) : Prop :=
  Operations.Op r = op
  /\ (Operations.Error r = None <-> Operations.Success r = true)
  /\ (Operations.Skipped r = true -> Operations.Success r = true).

(** The errors copyFile builds. *)
Definition copyError (e : Operations.error) : Prop :=
  match e with
  | Operations.ErrOpenSource _ | Operations.ErrCreateDest _ | Operations.ErrCopy _ => True
  | _ => False
  end.

(** The errors moveFile builds besides those of copyFile. *)
Definition moveError (e : Operations.error) : Prop :=
  match e with
  | Operations.ErrVerifyCopy _ | Operations.ErrSizeMismatch
  | Operations.ErrRemoveSource _ => True
  | _ => False
  end.
End FrameSpec.

Module FullPlan.
Import Database Formatter Operations Cli Main.
Section Plan.
Context `{UnicodeCase}.
Context (config : Config) (formatter : Formatter) (content : LibraryContent)
        (selectedLocations : option (list SectionLocation))
        (locationOutputs : list LocationWithOutput).

Definition movieOperations (movie : MovieInfo) : list Operation :=
  map (toOperation config)
      (moviePreviews config formatter content selectedLocations locationOutputs movie).

Definition showOperations (show : ShowInfo) : list Operation :=
  map (toOperation config)
      (showPreviews config formatter content selectedLocations locationOutputs show).

(** One operation for every eligible file of the library, in the order
    of the catalog. *)
Definition wholePlan : list Operation :=
  if (ls_SectionType (Section content) =? SectionTypeMovie)%Z
  then flat_map movieOperations (Movies content)
  else if (ls_SectionType (Section content) =? SectionTypeShow)%Z
  then flat_map showOperations (Shows content)
  else [].
End Plan.
End FullPlan.

Module ShellSpec.
Import GoStrings.

(** The value a POSIX shell gives a word that is written with
    single-quoted parts and backslash escapes only (quote removal):
    between single quotes every byte stands for itself; outside them a
    single quote opens a quoted part, a backslash makes the next byte
    stand for itself, and a backslash before a newline is dropped with
    it.  [None]: the quote is left open, or the word has an unquoted byte
    of another kind, which this reader does not cover. *)
Fixpoint shRead (quoted : bool) (word : string) : option string :=
  match word with
  | EmptyString => if quoted then None else Some EmptyString
  | String c t =>
    if quoted then
      if Ascii.eqb c "'" then shRead false t
      else option_map (String c) (shRead true t)
    else if Ascii.eqb c "'" then shRead true t
    else if Ascii.eqb c "\" then
      match t with
      | String e t' =>
        if Ascii.eqb e "010" then shRead false t'
        else option_map (String e) (shRead false t')
      | EmptyString => None
      end
    else None
  end.

Definition shWord (word : string) : option string := shRead false word.

End ShellSpec.

Module PlexSpec.
Import Database Plex.

Section Mirrors.
Context (p : PlexDB).

(** The episodes of a season as the queries give them. *)
Definition seasonMirrors (se : SeasonInfo) : Prop :=
  GetChildMetadata p (ID (se_Metadata se)) = Rows (map ep_Metadata (Episodes se))
  /\ Forall (fun e => GetMediaParts p (ID (ep_Metadata e)) = Rows (ep_Files e))
            (Episodes se).

(** The seasons of a show as the queries give them. *)
Definition showMirrors (sh : ShowInfo) : Prop :=
  GetChildMetadata p (ID (sh_Metadata sh)) = Rows (map se_Metadata (Seasons sh))
  /\ Forall seasonMirrors (Seasons sh).

End Mirrors.

End PlexSpec.

Module RunSpec.
Import Operations.
(** The result Execute gives in a dry run. *)
Definition dryResult (op : Operation) : Result :=
  {| Op := op; Success := true; Skipped := false; Error := None;
     Message := "dry run - no changes made" |}.
End RunSpec.

Module Catalog.
Import Database Plex Scenario.

(** A database whose movie items are two movies, the second without a
    media part, and whose show items are one show with one season and
    one episode. *)
Definition catalog : PlexDB :=
  {| GetLibrarySections := Rows [section 1; section 2];
     GetSectionLocations := fun id => Rows [location id "/media"];
     GetMetadataItems := fun _ type =>
       if (type =? 1)%Z
       then Rows [item 10 1 "Alien" (Some 1979%Z) None;
                  item 11 1 "Brazil" (Some 1985%Z) None]
       else if (type =? 2)%Z
       then Rows [item 20 2 "Show A" None None]
       else Rows [];
     GetChildMetadata := fun id =>
       if (id =? 20)%Z then Rows [item 21 3 "Season 1" None (Some 1%Z)]
       else if (id =? 21)%Z then Rows [item 22 4 "Pilot" None (Some 3%Z)]
       else Rows [];
     GetMediaParts := fun id =>
       if (id =? 10)%Z then Rows [part 100 "/media/Alien.mkv"]
       else if (id =? 22)%Z then Rows [part 220 "/media/Show A/ep1.mkv"]
       else Rows [] |}.

(** A library with two locations. *)
Definition libraryA : list SectionLocation :=
  [location 1 "/media/a"; location 2 "/media/b"].

End Catalog.

Module RunScenario.
Import GoOs Database Formatter Operations Cli Main Plex App Scenario Catalog.

Definition dryConfig : Config :=
  {| DatabasePath := "plex.db"; OutputDir := "/out"; DryRun := true;
     ScriptMode := false; ScriptShell := "cmd"; ScriptOutput := "";
     cfg_Mode := ModeMove; cfg_TVFormat := DefaultTVFormat;
     cfg_MovieFormat := DefaultMovieFormat;
     PathMapSrc := ""; PathMapDst := ""; AutoApprove := true |}.

Definition opened (path : string) : result PlexDB := Rows catalog.

Definition unreadable (path : string) : result PlexDB :=
  Failed (SqlError "unable to open database file").

End RunScenario.

(* ===================================================================== *)
(** ** Facts about the string functions *)
(* ===================================================================== *)

Module StringFacts.
Import GoStrings Spec.

Lemma append_nil_r (s : string) : s ++ "" = s.
Proof. induction s as [|c s IH]; simpl; [reflexivity | now rewrite IH]. Qed.

Lemma append_assoc (a b c : string) : (a ++ b) ++ c = a ++ (b ++ c).
Proof. induction a as [|x a IH]; simpl; [reflexivity | now rewrite IH]. Qed.

Lemma substBytes_app f (a b : string) :
  substBytes f (a ++ b) = substBytes f a ++ substBytes f b.
Proof.
  induction a as [|c a IH]; simpl; [reflexivity|].
  now rewrite IH, append_assoc.
Qed.

Lemma substBytes_compose f g (s : string) :
  substBytes g (substBytes f s) = substBytes (fun c => substBytes g (f c)) s.
Proof.
  induction s as [|c s IH]; simpl; [reflexivity|].
  now rewrite substBytes_app, IH.
Qed.

Lemma substBytes_ext f g :
  (forall c, f c = g c) -> forall s, substBytes f s = substBytes g s.
Proof.
  intros Hfg s. induction s as [|c s IH]; simpl; [reflexivity|].
  now rewrite Hfg, IH.
Qed.

Lemma substBytes_id f (s : string) :
  (forall c, f c = String c "") -> substBytes f s = s.
Proof.
  intros Hf. induction s as [|c s IH]; simpl; [reflexivity|].
  now rewrite Hf, IH.
Qed.

(** Replacing a one-byte pattern is a character-wise substitution. *)
Lemma replaceFrom_single (old : ascii) (new s : string) :
  replaceFrom 0 (String old "") new s = substBytes (substOne old new) s.
Proof.
  induction s as [|c s IH]; [reflexivity|].
  cbn [replaceFrom substBytes String.prefix String.length Nat.sub].
  unfold substOne at 1.
  destruct (ascii_dec old c) as [->|Hne].
  - rewrite Ascii.eqb_refl, IH.
    destruct s; reflexivity.
  - destruct (Ascii.eqb_spec c old) as [->|_]; [congruence|].
    now rewrite IH.
Qed.

Lemma ReplaceAll_single (old : ascii) (new s : string) :
  ReplaceAll s (String old "") new = substBytes (substOne old new) s.
Proof.
  unfold ReplaceAll.
  destruct (String.eqb_spec (String old "") new) as [<-|_].
  - symmetry. apply substBytes_id. intros c. unfold substOne.
    destruct (Ascii.eqb_spec c old) as [->|_]; reflexivity.
  - cbn [String.eqb]. apply replaceFrom_single.
Qed.

End StringFacts.

(* ===================================================================== *)
(** ** Script escaping (escapeCmdPath) *)
(* ===================================================================== *)

Module ScriptFacts.
Import GoStrings Spec StringFacts Main.

(** C8. For every input, escapeCmdPath returns the string in which each
    percent sign is doubled, each caret of the input is doubled, and each
    of & < > | ! is preceded by exactly one caret; the carets put in
    front of those five characters are not doubled, because the caret
    replacement runs before they are introduced. *)
Theorem escapeCmdPath_refines_spec (path : string) :
  escapeCmdPath path = escapeCmdPath_spec path.
Proof.
  unfold escapeCmdPath, escapeCmdPath_spec.
  rewrite !ReplaceAll_single, !substBytes_compose.
  apply substBytes_ext. intros c.
  destruct c as [[] [] [] [] [] [] [] []]; vm_compute; reflexivity.
Qed.

End ScriptFacts.

(* ===================================================================== *)
(** ** The executor (Execute, copyFile, moveFile, BatchExecute) *)
(* ===================================================================== *)

Module ExecutorFacts.
Import GoOs Operations ExecSpec Scenario.

Ltac unfold_calls :=
  unfold bind, Open, Create, Copy, Remove, Chmod, Stat, Rename, MkdirAll,
         ret, panic, lookupInfo, logged, setFiles, setDirs in *.

Ltac decide_by_computation :=
  apply (bool_decide_unpack _); vm_compute; exact I.

(** *** The calls *)

Lemma Rename_spec env old new w f :
  files w !! old = Some f ->
  Rename env old new w =
  match renameFault env old new with
  | Some e => (Done (Err e), logged (SysRename old new) w)
  | None =>
    if decide (new ∈ dirs w) then (Done (Err EISDIR), logged (SysRename old new) w)
    else (Done (Ok tt),
          setFiles (<[new := f]> (delete old (files w))) (logged (SysRename old new) w))
  end.
Proof. intros Hf. unfold Rename. cbn. rewrite Hf. reflexivity. Qed.

Lemma MkdirAll_ok env path perm w :
  mkdirFault env path = None ->
  Forall (fun p => files w !! p = None) (mkdirChain path) ->
  MkdirAll env path perm w =
  (Done (Ok tt),
   setDirs (list_to_set (mkdirChain path) ∪ dirs w) (logged (SysMkdirAll path perm) w)).
Proof.
  intros Hf Hclear. unfold MkdirAll. rewrite Hf. cbn [files logged].
  replace (existsb _ (mkdirChain path)) with false; [reflexivity|].
  symmetry. apply not_true_is_false. intros Hex.
  apply existsb_exists in Hex as (p & Hin & Hp).
  rewrite Forall_forall in Hclear.
  apply bool_decide_eq_true in Hp. rewrite (Hclear p) in Hp.
  - by destruct Hp.
  - by apply list_elem_of_In.
Qed.

Lemma present_false w name :
  present w name = false -> files w !! name = None /\ name ∉ dirs w.
Proof.
  unfold present, lookupInfo.
  destruct (files w !! name); [discriminate|].
  destruct (decide (name ∈ dirs w)); [discriminate | auto].
Qed.

Lemma sameDisk_present w w' name : sameDisk w w' -> present w' name = present w name.
Proof. intros [Hf Hd]. unfold present, lookupInfo. rewrite Hf, Hd. reflexivity. Qed.

(** *** copyFile *)

(** Whatever fails, copyFile leaves a source other than the destination
    as it was; when it reports no error the destination holds what
    io.Copy wrote. *)
Lemma copyFile_frame env src dst w f :
  src <> dst -> files w !! src = Some f ->
  exists r w', copyFile env src dst w = (Done r, w')
    /\ files w' !! src = Some f
    /\ (r = None ->
        exists g, files w' !! dst = Some g
                  /\ data g = copyWrites env src dst (data f)).
Proof.
  intros Hne Hsrc.
  unfold copyFile. unfold_calls.
  simpl. rewrite Hsrc.
  repeat (case_match; simplify_map_eq/=; eauto 10).
  all: eexists _, _; split; [reflexivity|]; simplify_map_eq/=.
  all: split; [done|]; intros; simplify_eq; eauto.
Qed.

Lemma copyFile_succeeds env src dst w f :
  src <> dst -> files w !! src = Some f -> fallbackCopies env w src dst ->
  exists w' g, copyFile env src dst w = (Done None, w')
    /\ files w' !! src = Some f
    /\ files w' !! dst = Some g /\ data g = copyWrites env src dst (data f).
Proof.
  intros Hne Hsrc [_ Hopen Hcreate Hnotdir Hcopy].
  unfold copyFile. unfold_calls.
  simpl. rewrite Hsrc, Hopen, Hcreate.
  destruct (decide (dst ∈ dirs w)) as [|_]; [done|].
  simplify_map_eq/=.
  repeat (case_match; simplify_map_eq/=).
  all: eexists _, _; split; [reflexivity|]; simplify_map_eq/=; repeat split; done.
Qed.


(** *** Dry run *)

(** C4. With dryRun = true Execute returns a result with Success = true
    and no error, and the world it returns is the world it was given:
    no file or directory changed and no call into the operating system
    was made (the record of calls is the same), for every operation and
    every file system, so also when the source path does not exist. *)
Theorem dryRun_touches_nothing env op w :
  exists r, Execute env op true w = (Done r, w)
    /\ Op r = op /\ Success r = true /\ Skipped r = false /\ Error r = None.
Proof. eexists. split; [reflexivity|]. cbn. auto. Qed.

Lemma dryRun_batch_touches_nothing env ops w :
  exists rs, BatchExecute env ops true w = (Done rs, w)
    /\ Forall2 (fun op r => Op r = op /\ Success r = true /\ Error r = None) ops rs.
Proof.
  induction ops as [|op ops (rs & Hrs & Hall)].
  - exists []. split; [reflexivity | constructor].
  - eexists (_ :: rs). cbn [BatchExecute]. unfold bind at 1.
    cbn [Execute ret]. unfold bind at 1. rewrite Hrs. split; [reflexivity|].
    constructor; [cbn; auto | exact Hall].
Qed.

Example dryRun_missing_source :
  present diskMoved (Source moveA) = false
  /\ Execute quiet moveA true diskMoved
     = (Done {| Op := moveA; Success := true; Skipped := false; Error := None;
                Message := "dry run - no changes made" |}, diskMoved).
Proof. split; [vm_compute; reflexivity | reflexivity]. Qed.

(** *** Skip on exists *)

Lemma Execute_dest_present env op w :
  present w (Destination op) = true ->
  exists r w', Execute env op false w = (Done r, w')
    /\ sameDisk w w' /\ rerunOutcome w op r.
Proof.
  unfold rerunOutcome, sameDisk, present. intros Hd.
  unfold Execute. unfold_calls. cbn.
  destruct (files w !! Destination op) eqn:Hfd;
  destruct (files w !! Source op) eqn:Hfs; cbn;
  repeat (case_match; simplify_map_eq/=);
  eexists _, _; (split; [reflexivity|]); cbn; auto.
Qed.

Lemma rerunOutcome_sameDisk w w' op r :
  sameDisk w w' -> rerunOutcome w' op r -> rerunOutcome w op r.
Proof.
  intros Hs [Hop Hr]. split; [exact Hop|].
  rewrite <- (sameDisk_present w w' _ Hs). exact Hr.
Qed.

Lemma Batch_dest_present env ops w :
  Forall (fun op => present w (Destination op) = true) ops ->
  exists rs w', BatchExecute env ops false w = (Done rs, w')
    /\ sameDisk w w' /\ Forall2 (rerunOutcome w) ops rs.
Proof.
  revert w. induction ops as [|op ops IH]; intros w Hall.
  - exists [], w. repeat split. constructor.
  - inversion Hall as [|? ? Hop Hops]; subst.
    destruct (Execute_dest_present env op w Hop) as (r & w1 & Hex & Hs1 & Hr).
    destruct (IH w1) as (rs & w2 & Hb & Hs2 & Hrs).
    { eapply Forall_impl; [exact Hops|]. intros o Ho. cbn in Ho |- *.
      rewrite (sameDisk_present w w1 _ Hs1). exact Ho. }
    exists (r :: rs), w2. cbn [BatchExecute]. unfold bind at 1. rewrite Hex.
    unfold bind at 1. rewrite Hb. split; [reflexivity|].
    split.
    + destruct Hs1 as [a b], Hs2 as [c d]. split; congruence.
    + constructor; [exact Hr|].
      eapply Forall2_impl; [exact Hrs|]. intros o x Hx.
      eapply rerunOutcome_sameDisk; eauto.
Qed.

(** C1 (as the code has it). When every destination of an operation list
    is already there, a live run changes no file and no directory, so no
    destination is overwritten; each operation is reported skipped (with
    Success) when its source is still there, and as failed with the
    source-missing error when the source is gone (Execute checks the
    source before the destination).  This holds for each single Execute
    and for BatchExecute over the whole list. *)
Theorem rerun_overwrites_nothing env ops w :
  Forall (fun op => present w (Destination op) = true) ops ->
  (forall op, In op ops ->
     exists r w', Execute env op false w = (Done r, w')
       /\ sameDisk w w' /\ rerunOutcome w op r)
  /\ exists rs w', BatchExecute env ops false w = (Done rs, w')
       /\ sameDisk w w' /\ Forall2 (rerunOutcome w) ops rs.
Proof.
  intros Hall. split; [|by apply Batch_dest_present].
  intros op Hop. apply Execute_dest_present.
  rewrite Forall_forall in Hall. apply Hall. by apply list_elem_of_In.
Qed.

Lemma rerun_overwrites_nothing_witness :
  Forall (fun op => present diskWithBoth (Destination op) = true) [copyA; moveA]
  /\ exists rs w', BatchExecute quiet [copyA; moveA] false diskWithBoth = (Done rs, w')
       /\ sameDisk diskWithBoth w'
       /\ Forall2 (rerunOutcome diskWithBoth) [copyA; moveA] rs.
Proof.
  assert (H : Forall (fun op => present diskWithBoth (Destination op) = true)
                     [copyA; moveA])
    by (repeat constructor; vm_compute; reflexivity).
  split; [exact H|].
  exact (proj2 (rerun_overwrites_nothing quiet [copyA; moveA] diskWithBoth H)).
Defined.

(** After a first live run has moved the file, its destination is there;
    the second run of the same list does not report the operation as
    skipped but as failed: the source is missing. *)
Lemma second_move_run_not_skipped :
  let live ops w :=
    match BatchExecute quiet ops false w with
    | (Done rs, w') => (map (fun r => (Success r, Skipped r, Error r)) rs, w')
    | (Panic, w') => ([], w')
    end in
  let first := live [moveA] disk in
  let second := live [moveA] (snd first) in
  fst first = [(true, false, None)]
  /\ present (snd first) (Destination moveA) = true
  /\ fst second = [(false, false, Some (ErrSourceMissing "/src/a.mkv"))].
Proof. vm_compute. repeat split. Qed.


(** *** moveFile *)

(** moveFile on a source file other than the destination returns, and the
    source is then as it was or gone; gone only with a destination of the
    same size. *)
Lemma moveFile_keeps_or_moves env src dst w f :
  src <> dst -> files w !! src = Some f ->
  exists r w', moveFile env src dst w = (Done r, w')
    /\ (files w' !! src = Some f \/ files w' !! src = None)
    /\ (files w' !! src = None ->
        exists g, files w' !! dst = Some g
                  /\ String.length (data g) = String.length (data f)).
Proof.
  intros Hne Hsrc.
  unfold moveFile.
  unfold bind at 1. rewrite (Rename_spec env src dst w f Hsrc).
  destruct (renameFault env src dst) as [e|] eqn:Hren.
  2: destruct (decide (dst ∈ dirs w)) as [Hdir|Hdir].
  3: { (* the rename went through *)
    eexists _, _. split; [reflexivity|]. cbn. simplify_map_eq.
    split; [by right | eauto]. }
  all: set (w1 := logged (SysRename src dst) w).
  all: destruct (copyFile_frame env src dst w1 f Hne Hsrc) as (r & w2 & Hcp & Hs2 & Hd2).
  all: cbn beta iota; unfold bind at 1; fold w1; rewrite Hcp.
  all: destruct r as [err|].
  1,3: eexists _, _; split; [reflexivity|]; split; [by left | congruence].
  all: destruct (Hd2 eq_refl) as (g & Hg & Hdata).
  all: unfold_calls; cbn; rewrite Hs2, Hg; cbn.
  all: destruct (Z.eqb_spec (Z.of_nat (String.length (data f)))
                            (Z.of_nat (String.length (data g)))) as [Heq|Hneq]; cbn.
  all: repeat (case_match; simplify_map_eq/=).
  all: eexists _, _; (split; [reflexivity|]); simplify_map_eq/=.
  all: repeat split; eauto; try congruence.
  all: intros _; exists g; split; [done | lia].
Qed.

(** The fallback of moveFile when the copy reports no error and the sizes
    differ. *)
Lemma moveFile_size_mismatch env src dst w f :
  src <> dst -> files w !! src = Some f ->
  fallbackCopies env w src dst ->
  String.length (copyWrites env src dst (data f)) <> String.length (data f) ->
  exists w', moveFile env src dst w = (Done (Some ErrSizeMismatch), w')
    /\ files w' !! src = Some f
    /\ hd_error (trace w') = Some (SysRemove dst)
    /\ (removeFault env dst = None -> files w' !! dst = None).
Proof.
  intros Hne Hsrc Hfb Hlen.
  unfold moveFile. unfold bind at 1. rewrite (Rename_spec env src dst w f Hsrc).
  destruct (fb_rename _ _ _ _ Hfb) as [e0 He0]. rewrite He0.
  set (w1 := logged (SysRename src dst) w).
  destruct (copyFile_succeeds env src dst w1 f Hne Hsrc)
    as (w2 & g & Hcp & Hs2 & Hg & Hdata).
  { destruct Hfb. by constructor. }
  cbn beta iota. unfold bind at 1. rewrite Hcp.
  unfold_calls. cbn. rewrite Hs2, Hg. cbn. rewrite Hdata.
  destruct (Z.eqb_spec (Z.of_nat (String.length (data f)))
                       (Z.of_nat (String.length (copyWrites env src dst (data f)))))
    as [Heq|_]; [lia|]. cbn.
  repeat (case_match; simplify_map_eq/=).
  all: eexists; (split; [reflexivity|]); simplify_map_eq/=; repeat split; done.
Qed.

(** C2. moveFile on a source file other than the destination returns,
    and afterwards the source is either exactly as it was or gone; it is
    gone only if the destination is a file of the same byte size (after
    a rename that went through, or after the fallback's size check).
    When the fallback copy reports no error but the sizes differ,
    moveFile returns the size-mismatch error, the source is as it was,
    the last call made is the removal of the destination, and the
    destination is gone whenever that removal is not itself refused. *)
Theorem moveFile_fallback_safe env src dst w f :
  src <> dst -> files w !! src = Some f ->
  exists r w', moveFile env src dst w = (Done r, w')
    /\ (files w' !! src = Some f \/ files w' !! src = None)
    /\ (files w' !! src = None ->
        exists g, files w' !! dst = Some g
                  /\ String.length (data g) = String.length (data f))
    /\ (fallbackCopies env w src dst ->
        String.length (copyWrites env src dst (data f)) <> String.length (data f) ->
        r = Some ErrSizeMismatch
        /\ files w' !! src = Some f
        /\ hd_error (trace w') = Some (SysRemove dst)
        /\ (removeFault env dst = None -> files w' !! dst = None)).
Proof.
  intros Hne Hsrc.
  destruct (moveFile_keeps_or_moves env src dst w f Hne Hsrc)
    as (r & w' & Hmv & Hcases & Hgone).
  exists r, w'. repeat (split; [assumption|]).
  intros Hfb Hlen.
  destruct (moveFile_size_mismatch env src dst w f Hne Hsrc Hfb Hlen)
    as (w'' & Hmv' & Hrest).
  rewrite Hmv in Hmv'. injection Hmv' as -> ->. split; [reflexivity | exact Hrest].
Qed.

Lemma moveFile_fallback_safe_witness :
  exists w', moveFile shortCopy "/src/a.mkv" "/out/a.mkv" disk
             = (Done (Some ErrSizeMismatch), w')
    /\ files w' !! "/src/a.mkv" = Some media
    /\ files w' !! "/out/a.mkv" = None.
Proof.
  assert (Hne : "/src/a.mkv" <> "/out/a.mkv") by discriminate.
  assert (Hsrc : files disk !! "/src/a.mkv" = Some media) by (vm_compute; reflexivity).
  destruct (moveFile_fallback_safe shortCopy "/src/a.mkv" "/out/a.mkv" disk media Hne Hsrc)
    as (r & w' & Hmv & _ & _ & Hmismatch).
  destruct Hmismatch as (Hr & Hkept & _ & Hgone).
  - constructor; try reflexivity; [by eexists | decide_by_computation].
  - cbn. lia.
  - exists w'. rewrite Hmv, Hr. auto.
Defined.

(** *** A source that cannot be removed *)

Lemma moveFile_removal_fails env src dst w f e :
  src <> dst -> files w !! src = Some f ->
  fallbackCopies env w src dst ->
  String.length (copyWrites env src dst (data f)) = String.length (data f) ->
  removeFault env src = Some e ->
  exists w' g, moveFile env src dst w = (Done (Some (ErrRemoveSource e)), w')
    /\ files w' !! src = Some f
    /\ files w' !! dst = Some g
    /\ data g = copyWrites env src dst (data f).
Proof.
  intros Hne Hsrc Hfb Hlen Hrm.
  unfold moveFile. unfold bind at 1. rewrite (Rename_spec env src dst w f Hsrc).
  destruct (fb_rename _ _ _ _ Hfb) as [e0 He0]. rewrite He0.
  set (w1 := logged (SysRename src dst) w).
  destruct (copyFile_succeeds env src dst w1 f Hne Hsrc)
    as (w2 & g & Hcp & Hs2 & Hg & Hdata).
  { destruct Hfb. by constructor. }
  cbn beta iota. unfold bind at 1. rewrite Hcp.
  unfold_calls. cbn. rewrite Hs2, Hg. cbn.
  rewrite Hdata, Hlen, Z.eqb_refl, Hrm. cbn.
  eexists _, g. split; [reflexivity|]. cbn. auto.
Qed.

(** C3 (as the code has it). A live move whose rename is refused, whose
    copy reports no error and passes the size check, and whose source
    then cannot be removed, is reported as failed: Success = false,
    Skipped = false, and Error is the diagnostic "copied successfully
    but failed to remove source: ..." ([ErrRemoveSource]).  The
    destination holds what was copied and the source is still there. *)
Theorem removal_failure_reported_as_failure env op w f e :
  Mode op = ModeMove ->
  files w !! Source op = Some f ->
  reachesTransfer env w op ->
  fallbackCopies env w (Source op) (Destination op) ->
  String.length (copyWrites env (Source op) (Destination op) (data f))
    = String.length (data f) ->
  removeFault env (Source op) = Some e ->
  exists r w', Execute env op false w = (Done r, w')
    /\ Success r = false /\ Skipped r = false
    /\ Error r = Some (ErrRemoveSource e)
    /\ files w' !! Source op = Some f
    /\ exists g, files w' !! Destination op = Some g
         /\ data g = copyWrites env (Source op) (Destination op) (data f).
Proof.
  intros Hmode Hsrc [Habs Hmk Hclear Hnd] Hfb Hlen Hrm.
  destruct (present_false _ _ Habs) as [Hdst Hdstd].
  assert (Hne : Source op <> Destination op) by (intros Heq; congruence).
  unfold Execute.
  unfold bind at 1. unfold Stat at 1. unfold lookupInfo at 1.
  cbn [files logged]. rewrite Hsrc.
  cbn beta iota. unfold bind at 1. unfold Stat at 1. unfold lookupInfo at 1.
  cbn [files dirs logged].
  rewrite Hdst. destruct (decide (Destination op ∈ dirs w)) as [|_]; [done|].
  cbn beta iota. unfold bind at 1.
  rewrite MkdirAll_ok by assumption.
  cbn beta iota. rewrite Hmode. cbn [String.eqb ModeCopy ModeMove Ascii.eqb Bool.eqb].
  unfold bind at 1.
  match goal with |- context [moveFile env _ _ ?w0] => set (w2 := w0) end.
  destruct (moveFile_removal_fails env (Source op) (Destination op) w2 f e)
    as (w3 & g & Hmv & Hs3 & Hd3 & Hdata); try assumption.
  { destruct Hfb. constructor; try assumption. subst w2. cbn [dirs setDirs logged].
    intros [Hin|Hin]%elem_of_union; [|done].
    by apply elem_of_list_to_set in Hin. }
  rewrite Hmv. eexists _, w3. split; [reflexivity|]. cbn. eauto 10.
Qed.

Lemma removal_failure_reported_as_failure_witness :
  exists r w', Execute stuckSource moveA false disk = (Done r, w')
    /\ Success r = false /\ Skipped r = false
    /\ Error r = Some (ErrRemoveSource EACCES)
    /\ files w' !! "/src/a.mkv" = Some media
    /\ exists g, files w' !! "/out/a.mkv" = Some g /\ data g = "video".
Proof.
  apply (removal_failure_reported_as_failure stuckSource moveA disk media EACCES).
  - reflexivity.
  - vm_compute; reflexivity.
  - constructor.
    + vm_compute; reflexivity.
    + reflexivity.
    + let l := eval vm_compute in (mkdirChain (GoFilepath.Dir (Destination moveA))) in
      change (Forall (fun p => files disk !! p = None) l).
      repeat constructor; vm_compute; reflexivity.
    + decide_by_computation.
  - constructor; try reflexivity; [by eexists | decide_by_computation].
  - reflexivity.
  - reflexivity.
Defined.

(** The same run, evaluated: the copy is in place and was verified, the
    source could not be removed, and the outcome is not a success. *)
Lemma stuck_source_is_a_failure :
  let run := Execute stuckSource moveA false disk in
  fst run = Done {| Op := moveA; Success := false; Skipped := false;
                    Error := Some (ErrRemoveSource EACCES); Message := "" |}
  /\ files (snd run) !! "/out/a.mkv" = Some media
  /\ files (snd run) !! "/src/a.mkv" = Some media.
Proof. vm_compute. repeat split. Qed.

(** *** A move, directly and through the fallback *)

(** With a rename that goes through and with one that is refused across
    devices, the move leaves one copy of the file, at the destination. *)
Example move_leaves_one_copy :
  let moved env :=
    let run := Execute env moveA false disk in
    (match fst run with Done r => Some (Success r, Error r) | Panic => None end,
     files (snd run) !! "/src/a.mkv", files (snd run) !! "/out/a.mkv") in
  moved quiet = (Some (true, None), None, Some media)
  /\ moved crossDevice = (Some (true, None), None, Some media).
Proof. vm_compute. split; reflexivity. Qed.

(** A copy leaves the source in place. *)
Example copy_keeps_source :
  let run := Execute quiet copyA false disk in
  files (snd run) !! "/src/a.mkv" = Some media
  /\ files (snd run) !! "/out/a.mkv" = Some media.
Proof. vm_compute. split; reflexivity. Qed.

(** *** Every call returns *)

Lemma copyFile_returns env src dst w :
  exists r w', copyFile env src dst w = (Done r, w')
    /\ (r = None -> is_Some (files w' !! src)).
Proof.
  unfold copyFile. unfold_calls. simpl.
  repeat (case_match; simplify_map_eq/=).
  all: eexists _, _; (split; [reflexivity|]); intros; simplify_eq/=.
  all: destruct (decide (src = dst)) as [->|Hne]; simplify_map_eq/=; eauto.
Qed.

(** The nil dereference of moveFile is never reached: a copy that
    reported no error leaves the source where os.Stat finds it. *)
Lemma moveFile_returns env src dst w :
  exists r w', moveFile env src dst w = (Done r, w').
Proof.
  unfold moveFile. unfold bind at 1.
  destruct (Rename env src dst w) as [[[[]|e]|] w1] eqn:Hren.
  1: by eexists _, _.
  2: { unfold Rename in Hren. repeat case_match; simplify_eq. }
  destruct (copyFile_returns env src dst w1) as (r & w2 & Hcp & Hsrc).
  unfold bind at 1. rewrite Hcp. destruct r as [err|]; [by eexists _, _|].
  destruct (Hsrc eq_refl) as [f Hf].
  unfold_calls. cbn. rewrite Hf.
  repeat (case_match; simplify_map_eq/=); by eexists _, _.
Qed.

Lemma Execute_returns env op dryRun w :
  exists r w', Execute env op dryRun w = (Done r, w').
Proof.
  unfold Execute. destruct dryRun; [by eexists _, _|].
  unfold bind at 1. unfold Stat at 1.
  destruct (match lookupInfo _ _ with Err e => IsNotExist e | Ok _ => false end);
    [by eexists _, _|].
  unfold bind at 1. unfold Stat at 1.
  destruct (lookupInfo _ (Destination op)); [by eexists _, _|].
  unfold bind at 1.
  destruct (MkdirAll env _ _ _) as [[[[]|e']|] w1] eqn:Hmk.
  2: by eexists _, _.
  2: { unfold MkdirAll in Hmk. repeat case_match; simplify_eq. }
  unfold bind at 1.
  destruct (String.eqb (Mode op) ModeCopy).
  - destruct (copyFile_returns env (Source op) (Destination op) w1) as (r & w2 & -> & _).
    destruct r; by eexists _, _.
  - destruct (String.eqb (Mode op) ModeMove).
    + destruct (moveFile_returns env (Source op) (Destination op) w1) as (r & w2 & ->).
      destruct r; by eexists _, _.
    + by eexists _, _.
Qed.

(** One result per operation, in order. *)
Lemma BatchExecute_returns env ops dryRun w :
  exists rs w', BatchExecute env ops dryRun w = (Done rs, w')
    /\ map Op rs = ops.
Proof.
  revert w. induction ops as [|op ops IH]; intros w; [by exists [], w|].
  destruct (Execute_returns env op dryRun w) as (r & w1 & Hr).
  assert (Hop : Op r = op).
  { unfold Execute in Hr. unfold_calls.
    repeat (case_match; simplify_eq/=); reflexivity. }
  destruct (IH w1) as (rs & w2 & Hrs & Hops).
  exists (r :: rs), w2. cbn [BatchExecute]. unfold bind at 1. rewrite Hr.
  unfold bind at 1. rewrite Hrs. split; [reflexivity | cbn; congruence].
Qed.

(** A live Execute on a source file leaves the source as it was, or gone
    with a destination file of the same size in place. *)
Lemma Execute_source_safe env op w f :
  files w !! Source op = Some f ->
  exists r w', Execute env op false w = (Done r, w')
    /\ (files w' !! Source op = Some f
        \/ (files w' !! Source op = None
            /\ exists g, files w' !! Destination op = Some g
                 /\ String.length (data g) = String.length (data f))).
Proof.
  intros Hsrc. unfold Execute.
  unfold bind at 1. unfold Stat at 1. unfold lookupInfo at 1.
  cbn [files logged]. rewrite Hsrc. cbn beta iota.
  unfold bind at 1. unfold Stat at 1.
  destruct (lookupInfo _ (Destination op)) as [i|e] eqn:Hdst.
  { eexists _, _. split; [reflexivity|]. left. exact Hsrc. }
  assert (Hne : Source op <> Destination op).
  { intros Heq. unfold lookupInfo in Hdst. cbn [files logged] in Hdst.
    rewrite <- Heq, Hsrc in Hdst. discriminate. }
  unfold bind at 1.
  destruct (MkdirAll env _ _ _) as [[[[]|e']|] w1] eqn:Hmk.
  3: { unfold MkdirAll in Hmk. repeat case_match; simplify_eq. }
  2: { eexists _, _. split; [reflexivity|]. left.
       unfold MkdirAll in Hmk. repeat case_match; simplify_eq; exact Hsrc. }
  assert (Hsrc1 : files w1 !! Source op = Some f).
  { unfold MkdirAll in Hmk. repeat case_match; simplify_eq; exact Hsrc. }
  unfold bind at 1.
  destruct (String.eqb (Mode op) ModeCopy).
  - destruct (copyFile_frame env _ _ w1 f Hne Hsrc1) as (r & w2 & -> & Hkept & _).
    destruct r; eexists _, _; (split; [reflexivity|]); by left.
  - destruct (String.eqb (Mode op) ModeMove).
    + destruct (moveFile_keeps_or_moves env _ _ w1 f Hne Hsrc1)
        as (r & w2 & -> & Hcases & Hgone).
      destruct r; eexists _, _; (split; [reflexivity|]).
      all: destruct Hcases as [Hk|Hg]; [by left | right; split; [exact Hg | by apply Hgone]].
    + eexists _, _. split; [reflexivity|]. by left.
Qed.

End ExecutorFacts.

(* ===================================================================== *)
(** ** The plan compiler (generateOperations) *)
(* ===================================================================== *)

Module PlannerFacts.
Import Database Formatter Operations Cli Main PlanSpec Scenario.

Lemma Forall2_flat_map {A B C} (R : B -> C -> Prop)
      (f : A -> list B) (g : A -> list C) (l : list A) :
  (forall x, In x l -> Forall2 R (f x) (g x)) ->
  Forall2 R (flat_map f l) (flat_map g l).
Proof.
  induction l as [|x l IH]; intros Hfg; cbn [flat_map]; [constructor|].
  apply Forall2_app; [apply Hfg; by left | apply IH; intros y Hy; apply Hfg; by right].
Qed.

(** *** The end-to-end scenario *)

(** C7. For the show "Show A" (2020), season 1, episode 3 "Pilot" with
    the single file /src/Show A/ep1.mkv, the default templates, move
    mode, output directory /out and no path mapping, generateOperations
    returns exactly one operation, from /src/Show A/ep1.mkv to
    /out/Show A/Season 1/S01E03 - Pilot.mkv, of kind move: without
    prompting under auto-approve or script mode, and after the answer
    "y" when it prompts.  The library's locations play no part. *)
Theorem end_to_end_show `{UnicodeCase} (locations : list SectionLocation)
        (auto script : bool) (p : Prompter) :
  let expected :=
    [ {| Source := "/src/Show A/ep1.mkv";
         Destination := "/out/Show A/Season 1/S01E03 - Pilot.mkv";
         Mode := ModeMove |} ] in
  let plan auto script p :=
    fst (generateOperations (config "/out" ModeMove "" "" auto script)
                            defaultFormatter (showLibrary locations) None [] p) in
  plan true script p = (expected, None)
  /\ plan auto true p = (expected, None)
  /\ plan false false (NewPrompter ("y" ++ newline)) = (expected, None).
Proof.
  cbv zeta. split; [|split].
  - vm_compute. reflexivity.
  - destruct auto; vm_compute; reflexivity.
  - vm_compute. reflexivity.
Qed.


(** *** Entities without eligible files *)

Section Eligible.
Context `{UnicodeCase}.
Context (config : Config) (formatter : Formatter) (content : LibraryContent)
        (selectedLocations : option (list SectionLocation))
        (locationOutputs : list LocationWithOutput).

(** A show none of whose files is eligible is passed over: the loop
    goes on with the operations and the prompter it had. *)
Lemma show_without_eligible_files_skipped show rest operations p :
  showPreviews config formatter content selectedLocations locationOutputs show = [] ->
  showLoop config formatter content selectedLocations locationOutputs
           (show :: rest) operations p
  = showLoop config formatter content selectedLocations locationOutputs
             rest operations p.
Proof.
  intros Hnone. cbn [showLoop]. rewrite Hnone. cbn [List.length Nat.eqb].
  by destruct (match selectedLocations with Some _ => _ | None => _ end).
Qed.

Lemma moviePreviews_nil_selected movie sel :
  selectedLocations = Some sel ->
  moviePreviews config formatter content selectedLocations locationOutputs movie = [] ->
  fileInLocations (mv_Files movie) sel = false.
Proof.
  intros -> Hnone. unfold moviePreviews, fileInLocations in *.
  induction (mv_Files movie) as [|file files IH]; [reflexivity|].
  cbn [flat_map existsb] in *. unfold filteredOut in Hnone at 1.
  destruct (pathInLocations (File file) sel); cbn [negb] in Hnone; [discriminate|].
  cbn [orb]. apply IH. exact Hnone.
Qed.

(** So is a movie none of whose files is eligible, as long as a
    selection of locations is in force. *)
Lemma movie_outside_selection_skipped movie rest operations p sel :
  selectedLocations = Some sel ->
  moviePreviews config formatter content selectedLocations locationOutputs movie = [] ->
  movieLoop config formatter content selectedLocations locationOutputs
            (movie :: rest) operations p
  = movieLoop config formatter content selectedLocations locationOutputs
              rest operations p.
Proof.
  intros Hsel Hnone.
  pose proof (moviePreviews_nil_selected movie sel Hsel Hnone) as Hout.
  rewrite Hsel. cbn [movieLoop]. rewrite Hout. reflexivity.
Qed.

(** A movie none of whose files is eligible adds no operation in any
    case: after it the loop goes on with the operations it had, unless the
    prompt it may still have raised ended the run with an error. *)
Lemma movie_without_eligible_files_adds_nothing movie rest operations p :
  moviePreviews config formatter content selectedLocations locationOutputs movie = [] ->
  (exists p',
     movieLoop config formatter content selectedLocations locationOutputs
               (movie :: rest) operations p
     = movieLoop config formatter content selectedLocations locationOutputs
                 rest operations p')
  \/ exists err p',
       movieLoop config formatter content selectedLocations locationOutputs
                 (movie :: rest) operations p = (([], Some err), p').
Proof.
  intros Hnone. cbn [movieLoop]. rewrite Hnone. cbn [map].
  destruct (match selectedLocations with Some _ => _ | None => _ end); [left; by eexists|].
  destruct (if interactive config then _ else _) as [[[proceed all] [err|]] p1].
  - right. by eexists _, _.
  - left. exists p1. rewrite app_nil_r. by destruct proceed.
Qed.

End Eligible.

(** C5, at the input where the code departs from it.  The movie "Lost"
    has no media part, so no file of it is eligible and it contributes
    no operation; with no selection of locations in force and prompts
    enabled (neither auto-approve nor script mode) the movie is shown
    for approval all the same, and a line of input is consumed. *)
Theorem movie_without_files_is_prompted :
  let run :=
    generateOperations (H := asciiCase) (config "" ModeMove "" "" false false)
                       defaultFormatter emptyLibrary None []
                       (NewPrompter ("n" ++ newline)) in
  moviePreviews (H := asciiCase) (config "" ModeMove "" "" false false)
                defaultFormatter emptyLibrary None [] emptyMovie = []
  /\ fst run = ([], None)
  /\ displayed (snd run)
     = [Ask "Rename files for this movie?"; DisplayMovie emptyMovie []]
  /\ stdin (snd run) = "".
Proof. vm_compute. repeat split. Qed.

(** *** What a planned operation is *)

Section Single.
Context `{UnicodeCase}.
Context (config : Config) (formatter : Formatter) (content : LibraryContent)
        (selectedLocations : option (list SectionLocation))
        (locationOutputs : list LocationWithOutput).

Lemma moviePreviews_place movie :
  In movie (Movies content) ->
  Forall (places formatter content locationOutputs config)
    (map (toOperation config)
         (moviePreviews config formatter content selectedLocations locationOutputs movie)).
Proof.
  intros Hin. apply Forall_forall. intros op Hop.
  apply list_elem_of_In, in_map_iff in Hop as (pv & <- & Hpv).
  unfold moviePreviews in Hpv. apply in_flat_map in Hpv as (file & Hfile & Hpv).
  destruct (filteredOut selectedLocations file); [destruct Hpv|].
  destruct Hpv as [<-|[]].
  exists file, (FormatMovie formatter movie).
  split; [by eapply OfMovie|]. cbn. auto.
Qed.

Lemma showPreviews_place show :
  In show (Shows content) ->
  Forall (places formatter content locationOutputs config)
    (map (toOperation config)
         (showPreviews config formatter content selectedLocations locationOutputs show)).
Proof.
  intros Hin. apply Forall_forall. intros op Hop.
  apply list_elem_of_In, in_map_iff in Hop as (pv & <- & Hpv).
  unfold showPreviews in Hpv.
  apply in_flat_map in Hpv as (season & Hseason & Hpv).
  apply in_flat_map in Hpv as (episode & Hepisode & Hpv).
  apply in_flat_map in Hpv as (file & Hfile & Hpv).
  destruct (filteredOut selectedLocations file); [destruct Hpv|].
  destruct Hpv as [<-|[]].
  exists file, (FormatEpisode formatter (sh_Metadata show) (se_Metadata season) episode).
  split; [by eapply OfEpisode|]. cbn. auto.
Qed.

Lemma movieLoop_places movies operations p :
  (forall movie, In movie movies -> In movie (Movies content)) ->
  Forall (places formatter content locationOutputs config) operations ->
  Forall (places formatter content locationOutputs config)
    (fst (fst (movieLoop config formatter content selectedLocations locationOutputs
                         movies operations p))).
Proof.
  revert operations p.
  induction movies as [|movie rest IH]; intros operations p Hsub Hops; [exact Hops|].
  assert (Hrest : forall m, In m rest -> In m (Movies content))
    by (intros m Hm; apply Hsub; by right).
  cbn [movieLoop].
  destruct (match selectedLocations with Some _ => _ | None => _ end); [by apply IH|].
  destruct (if interactive config then _ else _) as [[[proceed all] err] p1].
  destruct err as [err|]; [constructor|].
  destruct proceed; cbn [negb]; [|by apply IH].
  apply IH; [exact Hrest|].
  apply Forall_app. split; [exact Hops|].
  apply moviePreviews_place, Hsub. by left.
Qed.

Lemma showLoop_places shows operations p :
  (forall show, In show shows -> In show (Shows content)) ->
  Forall (places formatter content locationOutputs config) operations ->
  Forall (places formatter content locationOutputs config)
    (fst (fst (showLoop config formatter content selectedLocations locationOutputs
                        shows operations p))).
Proof.
  revert operations p.
  induction shows as [|show rest IH]; intros operations p Hsub Hops; [exact Hops|].
  assert (Hrest : forall m, In m rest -> In m (Shows content))
    by (intros m Hm; apply Hsub; by right).
  cbn [showLoop].
  destruct (match selectedLocations with Some _ => _ | None => _ end); [by apply IH|].
  destruct (Nat.eqb _ 0); [by apply IH|].
  destruct (if interactive config then _ else _) as [[[proceed all] err] p1].
  destruct err as [err|]; [constructor|].
  destruct proceed; cbn [negb]; [|by apply IH].
  apply IH; [exact Hrest|].
  apply Forall_app. split; [exact Hops|].
  apply showPreviews_place, Hsub. by left.
Qed.

(** C9 (as the code has it). Every operation of a compiled plan is made
    for one file of the catalog: its source is the file's path after
    path mapping, its kind is the configured one, and its destination is
    the output directory resolved for the file joined (filepath.Join)
    with the name formatted from the movie or episode template of the
    entity that owns the file, titles sanitized.  Nothing is said about
    source and destination being different. *)
Theorem plan_places_catalog_files p :
  Forall (places formatter content locationOutputs config)
    (fst (fst (generateOperations config formatter content selectedLocations
                                  locationOutputs p))).
Proof.
  unfold generateOperations.
  destruct (_ =? SectionTypeMovie)%Z; [by apply movieLoop_places|].
  destruct (_ =? SectionTypeShow)%Z; [by apply showLoop_places|].
  constructor.
Qed.

End Single.

(** A movie already under its library root with the name the template
    gives it is planned onto itself: source = destination. *)
Lemma placed_movie_planned_onto_itself :
  exists op,
    fst (generateOperations (H := asciiCase) (config "" ModeMove "" "" true false)
                            defaultFormatter placedLibrary None [] (NewPrompter ""))
    = ([op], None)
    /\ Source op = "/lib/Movie (2020).mkv"
    /\ Destination op = Source op.
Proof. eexists. vm_compute. repeat split. Qed.


(** *** Path mapping and the output directory *)

Section Pair.
Context `{UnicodeCase}.
Context (c c' : Config) (formatter : Formatter) (content : LibraryContent)
        (selectedLocations : option (list SectionLocation))
        (locationOutputs : list LocationWithOutput).
Context (Hcc : sameExceptMapping c c').

(** getOutputPath reads the output directory of the configuration, the
    overrides and the locations, and never the path mapping. *)
Lemma getOutputPath_mapping filePath :
  getOutputPath c content locationOutputs filePath
  = getOutputPath c' content locationOutputs filePath.
Proof.
  destruct Hcc as (Hout & _). unfold getOutputPath. by rewrite Hout.
Qed.

Lemma interactive_mapping : interactive c = interactive c'.
Proof.
  destruct Hcc as (_ & Hscript & Hauto & _). unfold interactive.
  by rewrite Hscript, Hauto.
Qed.

Lemma moviePreviews_pair movie :
  In movie (Movies content) ->
  Forall2 (samePreview formatter content locationOutputs c c')
    (moviePreviews c formatter content selectedLocations locationOutputs movie)
    (moviePreviews c' formatter content selectedLocations locationOutputs movie).
Proof.
  intros Hmovie. unfold moviePreviews. apply Forall2_flat_map. intros file Hfile.
  destruct (filteredOut selectedLocations file); constructor; [|constructor].
  exists file, (FormatMovie formatter movie). cbn.
  rewrite <- getOutputPath_mapping.
  split; [by eapply OfMovie | auto 10].
Qed.

Lemma showPreviews_pair show :
  In show (Shows content) ->
  Forall2 (samePreview formatter content locationOutputs c c')
    (showPreviews c formatter content selectedLocations locationOutputs show)
    (showPreviews c' formatter content selectedLocations locationOutputs show).
Proof.
  intros Hshow. unfold showPreviews.
  apply Forall2_flat_map. intros season Hseason.
  apply Forall2_flat_map. intros episode Hepisode.
  apply Forall2_flat_map. intros file Hfile.
  destruct (filteredOut selectedLocations file); constructor; [|constructor].
  exists file, (FormatEpisode formatter (sh_Metadata show) (se_Metadata season) episode).
  cbn. rewrite <- getOutputPath_mapping.
  split; [by eapply OfEpisode | auto 10].
Qed.

Lemma toOperation_pair pvs pvs' :
  Forall2 (samePreview formatter content locationOutputs c c') pvs pvs' ->
  Forall2 (sameOutputDir formatter content locationOutputs c c')
          (map (toOperation c) pvs) (map (toOperation c') pvs').
Proof. induction 1; cbn [map]; constructor; auto. Qed.

(** The answer to a prompt depends on the input, not on what the prompt
    displays. *)
Lemma askYesNoAll_pair prompt p p' :
  sameInput p p' ->
  fst (askYesNoAll prompt p) = fst (askYesNoAll prompt p')
  /\ sameInput (snd (askYesNoAll prompt p)) (snd (askYesNoAll prompt p')).
Proof.
  intros [Hin Hall]. unfold askYesNoAll, readLine, display. cbn [stdin ApproveAll].
  rewrite <- Hin.
  destruct (GoStrings.ReadString _ (stdin p)) as [[line ok] rest].
  destruct ok; cbn [negb]; [|split; [reflexivity | by split]].
  repeat match goal with |- context [if ?b then _ else _] => destruct b end;
    (split; [reflexivity | by split]).
Qed.

Lemma PromptMovie_pair movie pvs pvs' p p' :
  sameInput p p' ->
  fst (PromptMovie movie pvs p) = fst (PromptMovie movie pvs' p')
  /\ sameInput (snd (PromptMovie movie pvs p)) (snd (PromptMovie movie pvs' p')).
Proof.
  intros Hpp. unfold PromptMovie. destruct Hpp as [Hin Hall]. rewrite <- Hall.
  destruct (ApproveAll p) eqn:Ha; [split; [reflexivity | split; cbn; congruence]|].
  apply askYesNoAll_pair. split; cbn; congruence.
Qed.

Lemma PromptShow_pair show n pvs pvs' p p' :
  sameInput p p' ->
  fst (PromptShow show n pvs p) = fst (PromptShow show n pvs' p')
  /\ sameInput (snd (PromptShow show n pvs p)) (snd (PromptShow show n pvs' p')).
Proof.
  intros Hpp. unfold PromptShow. destruct Hpp as [Hin Hall]. rewrite <- Hall.
  destruct (ApproveAll p) eqn:Ha; [split; [reflexivity | split; cbn; congruence]|].
  apply askYesNoAll_pair. split; cbn; congruence.
Qed.

Lemma movieLoop_pair movies : forall operations operations' p p',
  (forall movie, In movie movies -> In movie (Movies content)) ->
  Forall2 (sameOutputDir formatter content locationOutputs c c') operations operations' ->
  sameInput p p' ->
  samePlans formatter content locationOutputs c c'
    (movieLoop c formatter content selectedLocations locationOutputs movies operations p)
    (movieLoop c' formatter content selectedLocations locationOutputs movies operations' p').
Proof.
  induction movies as [|movie rest IH]; intros operations operations' p p' Hsub Hops Hpp.
  { split; [reflexivity | exact Hops]. }
  assert (Hrest : forall m, In m rest -> In m (Movies content))
    by (intros m Hm; apply Hsub; by right).
  cbn [movieLoop].
  destruct (match selectedLocations with Some _ => _ | None => _ end); [by apply IH|].
  rewrite <- interactive_mapping.
  assert (Hpv := moviePreviews_pair movie (Hsub movie (or_introl eq_refl))).
  set (pvs := moviePreviews c _ _ _ _ movie) in *.
  set (pvs' := moviePreviews c' _ _ _ _ movie) in *.
  destruct (interactive c).
  - destruct (PromptMovie_pair movie pvs pvs' p p' Hpp) as [Hans Hnext].
    destruct (PromptMovie movie pvs p) as [[[proceed all] err] p1].
    destruct (PromptMovie movie pvs' p') as [[[proceed' all'] err'] p1'].
    cbn [fst snd] in Hans, Hnext. injection Hans as <- <- <-.
    destruct err; [split; [reflexivity | constructor]|].
    destruct proceed; cbn [negb]; [|by apply IH].
    apply IH; [exact Hrest| |exact Hnext].
    apply Forall2_app; [exact Hops | by apply toOperation_pair].
  - cbn [negb]. apply IH; [exact Hrest| |exact Hpp].
    apply Forall2_app; [exact Hops | by apply toOperation_pair].
Qed.

Lemma showLoop_pair shows : forall operations operations' p p',
  (forall show, In show shows -> In show (Shows content)) ->
  Forall2 (sameOutputDir formatter content locationOutputs c c') operations operations' ->
  sameInput p p' ->
  samePlans formatter content locationOutputs c c'
    (showLoop c formatter content selectedLocations locationOutputs shows operations p)
    (showLoop c' formatter content selectedLocations locationOutputs shows operations' p').
Proof.
  induction shows as [|show rest IH]; intros operations operations' p p' Hsub Hops Hpp.
  { split; [reflexivity | exact Hops]. }
  assert (Hrest : forall m, In m rest -> In m (Shows content))
    by (intros m Hm; apply Hsub; by right).
  cbn [showLoop].
  destruct (match selectedLocations with Some _ => _ | None => _ end); [by apply IH|].
  rewrite <- interactive_mapping.
  assert (Hpv := showPreviews_pair show (Hsub show (or_introl eq_refl))).
  set (pvs := showPreviews c _ _ _ _ show) in *.
  set (pvs' := showPreviews c' _ _ _ _ show) in *.
  rewrite <- (Forall2_length _ _ _ Hpv).
  destruct (Nat.eqb (List.length pvs) 0); [by apply IH|].
  destruct (interactive c).
  - destruct (PromptShow_pair show (List.length pvs) pvs pvs' p p' Hpp) as [Hans Hnext].
    destruct (PromptShow show _ pvs p) as [[[proceed all] err] p1].
    destruct (PromptShow show _ pvs' p') as [[[proceed' all'] err'] p1'].
    cbn [fst snd] in Hans, Hnext. injection Hans as <- <- <-.
    destruct err; [split; [reflexivity | constructor]|].
    destruct proceed; cbn [negb]; [|by apply IH].
    apply IH; [exact Hrest| |exact Hnext].
    apply Forall2_app; [exact Hops | by apply toOperation_pair].
  - cbn [negb]. apply IH; [exact Hrest| |exact Hpp].
    apply Forall2_app; [exact Hops | by apply toOperation_pair].
Qed.

(** C10. Take two configurations that differ at most in their path
    mapping and run generateOperations on the same catalog, selection
    and overrides, with the same input to the prompts.  Both runs end
    with the same error or none, and their plans correspond operation
    by operation: the two operations are made for the same catalog
    file, each has that file's path under its own mapping as source,
    and both destinations are the file's formatted name joined onto one
    and the same output directory, the one getOutputPath resolves from
    the file's catalog path (override, global output, library root or
    "."), whichever mapping is configured.  The formatted names can
    differ only through the extension, which is read off the source. *)
Theorem mapping_keeps_output_dirs p p' :
  sameInput p p' ->
  samePlans formatter content locationOutputs c c'
    (generateOperations c formatter content selectedLocations locationOutputs p)
    (generateOperations c' formatter content selectedLocations locationOutputs p').
Proof.
  intros Hpp. unfold generateOperations.
  destruct (_ =? SectionTypeMovie)%Z; [by apply movieLoop_pair|].
  destruct (_ =? SectionTypeShow)%Z; [by apply showLoop_pair|].
  split; [reflexivity | constructor].
Qed.

End Pair.

Lemma mapping_keeps_output_dirs_witness :
  let mapped := config "" ModeMove "/src" "/mnt/nas" true false in
  let plain := config "" ModeMove "" "" true false in
  let library := showLibrary [location 1 "/src"] in
  sameExceptMapping mapped plain
  /\ sameInput (NewPrompter "") (NewPrompter "")
  /\ samePlans (H := asciiCase) defaultFormatter library [] mapped plain
       (generateOperations (H := asciiCase) mapped defaultFormatter library
                           None [] (NewPrompter ""))
       (generateOperations (H := asciiCase) plain defaultFormatter library
                           None [] (NewPrompter "")).
Proof.
  cbv zeta.
  assert (Hcc : sameExceptMapping (config "" ModeMove "/src" "/mnt/nas" true false)
                                  (config "" ModeMove "" "" true false))
    by (repeat split).
  assert (Hpp : sameInput (NewPrompter "") (NewPrompter "")) by (split; reflexivity).
  split; [exact Hcc|]. split; [exact Hpp|].
  exact (mapping_keeps_output_dirs (H := asciiCase) _ _ defaultFormatter
                                   (showLibrary [location 1 "/src"])
                                   None [] Hcc _ _ Hpp).
Defined.

(** With the library rooted at /src, no output directory given and the
    mapping /src -> /mnt/nas, the source of the operation is the mapped
    path while the destination stays under the library root /src, the
    root found from the catalog path. *)
Example mapping_changes_source_only :
  fst (generateOperations (H := asciiCase)
         (config "" ModeMove "/src" "/mnt/nas" true false)
         defaultFormatter (showLibrary [location 1 "/src"]) None [] (NewPrompter ""))
  = ([ {| Source := "/mnt/nas/Show A/ep1.mkv";
          Destination := "/src/Show A/Season 1/S01E03 - Pilot.mkv";
          Mode := ModeMove |} ], None).
Proof. vm_compute. reflexivity. Qed.

End PlannerFacts.

(* ===================================================================== *)
(** ** sanitizeFilename *)
(* ===================================================================== *)

Module SanitizeFacts.
Import GoUtf8 GoStrings Spec StringFacts Formatter Scenario.

Ltac by_cases_on_byte c :=
  destruct c as [[] [] [] [] [] [] [] []];
  vm_compute; try reflexivity; try discriminate; auto.

(** *** The order of the replacements *)

Lemma substBytes_id_on f (s : string) :
  (forall c, In c (bytes s) -> f c = String c "") -> substBytes f s = s.
Proof.
  induction s as [|c s IH]; intros Hf; [reflexivity|].
  cbn [substBytes]. rewrite Hf by (by left). rewrite IH; [reflexivity|].
  intros c' Hc'. apply Hf. by right.
Qed.

Lemma tableLookup_spec table c :
  (exists new, In (String c "", new) table /\ tableLookup table c = new)
  \/ (~ isKey table c /\ tableLookup table c = String c "").
Proof.
  induction table as [|[old new] rest IH]; [right; split; [intros [? []] | reflexivity]|].
  cbn [tableLookup].
  destruct (String.eqb_spec old (String c "")) as [->|Hne].
  - left. exists new. split; [by left | reflexivity].
  - destruct IH as [(new' & Hin & Hl)|[Hno Hl]].
    + left. exists new'. split; [by right | exact Hl].
    + right. split; [|exact Hl].
      intros [new' [Heq|Hin]]; [congruence|]. apply Hno. by exists new'.
Qed.

Lemma tableLookup_key table c new :
  NoDup (map fst table) -> In (String c "", new) table -> tableLookup table c = new.
Proof.
  induction table as [|[old new'] rest IH]; intros Hnd Hin; [destruct Hin|].
  cbn [map fst] in Hnd. apply NoDup_cons in Hnd as [Hfresh Hnd].
  cbn [tableLookup].
  destruct (String.eqb_spec old (String c "")) as [->|Hne].
  - destruct Hin as [Heq|Hin]; [congruence|].
    exfalso. apply Hfresh. apply list_elem_of_In, in_map_iff.
    by exists (String c "", new).
  - destruct Hin as [Heq|Hin]; [congruence|]. by apply IH.
Qed.

Lemma tableLookup_permutation order table c :
  Permutation order table -> NoDup (map fst table) ->
  tableLookup order c = tableLookup table c.
Proof.
  intros Hperm Hnd.
  assert (Hnd' : NoDup (map fst order)).
  { rewrite (Permutation_map fst Hperm). exact Hnd. }
  destruct (tableLookup_spec table c) as [(new & Hin & ->)|[Hno ->]].
  - apply tableLookup_key; [exact Hnd'|].
    eapply Permutation_in; [symmetry; exact Hperm | exact Hin].
  - destruct (tableLookup_spec order c) as [(new & Hin & _)|[_ Hl]]; [|exact Hl].
    exfalso. apply Hno. exists new. eapply Permutation_in; eauto.
Qed.

(** A table of one-byte patterns whose replacement texts contain no
    pattern acts byte by byte, whatever the order of its entries. *)
Lemma replacements_bytewise table (s : string) :
  bytewiseTable table ->
  fold_left (fun result on => ReplaceAll result (fst on) (snd on)) table s
  = substBytes (tableLookup table) s.
Proof.
  revert s. induction table as [|[old new] rest IH]; intros s Htable.
  { cbn [fold_left]. symmetry. by apply substBytes_id. }
  destruct (Htable old new) as [[o ->] Hnew]; [by left|].
  cbn [fold_left fst snd].
  rewrite IH, ReplaceAll_single, substBytes_compose.
  - apply substBytes_ext. intros c. cbn [tableLookup]. unfold substOne.
    destruct (String.eqb_spec (String o "") (String c "")) as [Heq|Hne].
    + injection Heq as ->. rewrite Ascii.eqb_refl.
      apply substBytes_id_on. intros c' Hc'.
      destruct (tableLookup_spec rest c') as [(new' & Hin & _)|[_ Hl]]; [|exact Hl].
      exfalso. apply (Hnew c' Hc'). exists new'. by right.
    + destruct (Ascii.eqb_spec c o) as [->|_]; [congruence|].
      cbn [substBytes]. apply append_nil_r.
  - intros old' new' Hin'. destruct (Htable old' new') as [Hone Hfree]; [by right|].
    split; [exact Hone|]. intros c Hc [new'' Hk]. apply (Hfree c Hc).
    exists new''. by right.
Qed.

Lemma bytewiseTable_permutation order table :
  Permutation order table -> bytewiseTable table -> bytewiseTable order.
Proof.
  intros Hperm Htable old new Hin.
  destruct (Htable old new) as [Hone Hfree]; [eapply Permutation_in; eauto|].
  split; [exact Hone|]. intros c Hc [new' Hk]. apply (Hfree c Hc).
  exists new'. eapply Permutation_in; eauto.
Qed.

Lemma replacements_bytewiseTable : bytewiseTable replacements.
Proof.
  intros old new Hin. cbn in Hin.
  repeat (destruct Hin as [Heq|Hin]; [injection Heq as <- <-|]); [..|destruct Hin].
  all: split; [eexists; reflexivity|].
  all: intros c Hc; cbn in Hc.
  all: repeat (destruct Hc as [<-|Hc]; [|]); try destruct Hc.
  all: intros [new' Hk]; cbn in Hk.
  all: repeat (destruct Hk as [Heq|Hk]; [discriminate Heq|]); destruct Hk.
Qed.

Lemma replacements_keys_NoDup : NoDup (map fst replacements).
Proof. apply (bool_decide_unpack _). vm_compute. exact I. Qed.

(** The result of sanitizeFilename does not depend on the order in which
    the [range] loop visits the replacement map. *)
Lemma sanitizeFilename_any_order order name :
  Permutation order replacements ->
  sanitizeFilenameIn order name = sanitizeFilename name.
Proof.
  intros Hperm. unfold sanitizeFilename, sanitizeFilenameIn.
  rewrite !replacements_bytewise
    by eauto using bytewiseTable_permutation, replacements_bytewiseTable.
  rewrite (substBytes_ext _ (tableLookup replacements)); [reflexivity|].
  intros c. apply tableLookup_permutation; [exact Hperm | exact replacements_keys_NoDup].
Qed.

(** *** ASCII names *)

Lemma bytes_app (a b : string) : bytes (a ++ b) = (bytes a ++ bytes b)%list.
Proof.
  unfold bytes. induction a as [|c a IH]; [reflexivity|].
  cbn [String.append list_ascii_of_string app]. by rewrite IH.
Qed.

Lemma bytes_ofBytes l : bytes (ofBytes l) = l.
Proof. apply list_ascii_of_string_of_list_ascii. Qed.

Lemma ofBytes_bytes s : ofBytes (bytes s) = s.
Proof. apply string_of_list_ascii_of_string. Qed.

Lemma scrub_plain c :
  (byteN c <? RuneSelf)%N = true -> forallb plainByte (bytes (scrub c)) = true.
Proof. by_cases_on_byte c. Qed.

Lemma tableLookup_ascii c :
  (byteN c <? RuneSelf)%N = true -> isASCII (tableLookup replacements c) = true.
Proof. by_cases_on_byte c. Qed.

Lemma isASCII_app a b : isASCII (a ++ b) = isASCII a && isASCII b.
Proof. unfold isASCII. by rewrite bytes_app, forallb_app. Qed.

Lemma isASCII_cons c s :
  isASCII (String c s) = (byteN c <? RuneSelf)%N && isASCII s.
Proof. reflexivity. Qed.

Lemma isASCII_substBytes f s :
  (forall c, (byteN c <? RuneSelf)%N = true -> isASCII (f c) = true) ->
  isASCII s = true -> isASCII (substBytes f s) = true.
Proof.
  intros Hf. induction s as [|c s IH]; [reflexivity|].
  rewrite isASCII_cons. intros [Hc Hs]%andb_prop.
  cbn [substBytes]. rewrite isASCII_app.
  rewrite Hf by exact Hc. by rewrite IH.
Qed.

Lemma mapFrom_ascii f s :
  isASCII s = true ->
  mapFrom f 0 s
  = substBytes (fun c => if (0 <=? f (byteZ c))%Z then EncodeRune (f (byteZ c)) else "") s.
Proof.
  induction s as [|c s IH]; [reflexivity|].
  rewrite isASCII_cons. intros [Hc Hs]%andb_prop.
  cbn [mapFrom substBytes DecodeRuneInString]. rewrite Hc.
  cbn [Nat.sub]. by rewrite IH.
Qed.

Lemma forallb_substBytes (P : ascii -> bool) f s (Q : ascii -> bool) :
  (forall c, Q c = true -> forallb P (bytes (f c)) = true) ->
  forallb Q (bytes s) = true -> forallb P (bytes (substBytes f s)) = true.
Proof.
  intros Hf. induction s as [|c s IH]; [reflexivity|].
  cbn [bytes list_ascii_of_string forallb]. intros [Hc Hs]%andb_prop.
  cbn [substBytes]. rewrite bytes_app, forallb_app, Hf by exact Hc. by apply IH.
Qed.

(** The replacements and the removal of control characters *)
Lemma scrubbed_plain name :
  isASCII name = true ->
  forallb plainByte
    (bytes (Map dropControl
              (fold_left (fun result on => ReplaceAll result (fst on) (snd on))
                         replacements name))) = true.
Proof.
  intros Hascii.
  rewrite replacements_bytewise by apply replacements_bytewiseTable.
  unfold Map. rewrite mapFrom_ascii
    by (apply isASCII_substBytes; [apply tableLookup_ascii | exact Hascii]).
  rewrite substBytes_compose.
  eapply forallb_substBytes; [|exact Hascii]. apply scrub_plain.
Qed.

(** TrimRight *)
Lemma forallb_rev_eq {A} (P : A -> bool) l : forallb P (rev l) = forallb P l.
Proof.
  induction l as [|x l IH]; [reflexivity|].
  cbn [rev forallb]. rewrite forallb_app, IH. cbn. by rewrite andb_true_r, andb_comm.
Qed.

Lemma last_rev_head {A} (l : list A) : last (rev l) = head l.
Proof. destruct l as [|x l]; [reflexivity|]. cbn [rev]. apply last_snoc. Qed.

Lemma dropWhileL_forallb (P f : ascii -> bool) l :
  forallb P l = true -> forallb P (dropWhileL f l) = true.
Proof.
  induction l as [|c l IH]; [done|]. cbn [forallb dropWhileL].
  intros [Hc Hl]%andb_prop. destruct (f c); [by apply IH|]. cbn. by rewrite Hc, Hl.
Qed.

Lemma dropWhileL_head f l c : head (dropWhileL f l) = Some c -> f c = false.
Proof.
  induction l as [|x l IH]; [discriminate|]. cbn [dropWhileL].
  destruct (f x) eqn:Hx; [exact IH|]. cbn. congruence.
Qed.

Lemma TrimRight_plain s cutset :
  forallb plainByte (bytes s) = true ->
  forallb plainByte (bytes (TrimRight s cutset)) = true.
Proof.
  intros Hs. unfold TrimRight. rewrite bytes_ofBytes, forallb_rev_eq.
  apply dropWhileL_forallb. by rewrite forallb_rev_eq.
Qed.

Lemma TrimRight_last s cutset c :
  lastByte (TrimRight s cutset) = Some c -> inCutset cutset c = false.
Proof.
  unfold lastByte, TrimRight. rewrite bytes_ofBytes, last_rev_head.
  apply dropWhileL_head.
Qed.

(** The white space runs *)
Lemma plainByte_space : plainByte " " = true.
Proof. reflexivity. Qed.

Lemma plain_not_reSpace c : plainByte c = true -> c <> " "%char -> isReSpace c = false.
Proof.
  intros Hp Hc. destruct c as [[] [] [] [] [] [] [] []];
    try reflexivity; try discriminate Hp; congruence.
Qed.

Lemma plain_isSpace c :
  plainByte c = true -> GoUnicode.IsSpace (Z.of_N (byteN c)) = Ascii.eqb c " ".
Proof.
  intros Hp. destruct c as [[] [] [] [] [] [] [] []];
    try reflexivity; discriminate Hp.
Qed.

Lemma plain_ascii c : plainByte c = true -> (byteN c <? RuneSelf)%N = true.
Proof. unfold plainByte. by intros [[H _]%andb_prop _]%andb_prop. Qed.

Lemma collapse_plain b s :
  forallb plainByte (bytes s) = true ->
  forallb plainByte (bytes (collapseFrom b s)) = true.
Proof.
  revert b. induction s as [|c s IH]; intros b; [done|].
  cbn [bytes list_ascii_of_string forallb]. intros [Hc Hs]%andb_prop.
  cbn [collapseFrom].
  destruct (isReSpace c); [destruct b|];
    cbn [bytes list_ascii_of_string forallb]; rewrite ?plainByte_space, ?Hc;
    by apply IH.
Qed.

Lemma lastByte_cons c s :
  lastByte (String c s) = match lastByte s with Some x => Some x | None => Some c end.
Proof.
  unfold lastByte, bytes. cbn [list_ascii_of_string].
  destruct (list_ascii_of_string s) as [|x l]; [reflexivity|].
  rewrite last_cons. by destruct (last (x :: l)).
Qed.

Lemma collapse_last b s c :
  lastByte s = Some c -> isReSpace c = false ->
  lastByte (collapseFrom b s) = Some c.
Proof.
  revert b. induction s as [|x s IH]; intros b; [discriminate|].
  rewrite lastByte_cons. intros Hlast Hc. cbn [collapseFrom].
  destruct (lastByte s) as [y|] eqn:Hs.
  - injection Hlast as ->.
    destruct (isReSpace x); [destruct b|]; rewrite ?lastByte_cons, IH; auto.
  - injection Hlast as ->. rewrite Hc.
    destruct s as [|z s]; [reflexivity|]. rewrite lastByte_cons in Hs.
    by destruct (lastByte s).
Qed.

(** TrimSpace *)
Lemma trimLeft_plain s :
  forallb plainByte (bytes s) = true ->
  forallb plainByte (bytes (trimLeftFrom GoUnicode.IsSpace 0 s)) = true
  /\ firstByte (trimLeftFrom GoUnicode.IsSpace 0 s) <> Some " "%char
  /\ forall c, lastByte s = Some c -> c <> " "%char ->
       lastByte (trimLeftFrom GoUnicode.IsSpace 0 s) = Some c.
Proof.
  induction s as [|x s IH]; [done|].
  cbn [bytes list_ascii_of_string forallb]. intros [Hx Hs]%andb_prop.
  cbn [trimLeftFrom DecodeRuneInString]. rewrite (plain_ascii x Hx).
  rewrite (plain_isSpace x Hx). cbn [Nat.sub].
  destruct (Ascii.eqb_spec x " ") as [->|Hne].
  - destruct (IH Hs) as (Hp & Hf & Hl). split; [exact Hp|]. split; [exact Hf|].
    intros c. rewrite lastByte_cons. destruct (lastByte s) as [y|]; [|congruence].
    intros [= ->]. by apply Hl.
  - split; [cbn; by rewrite Hx, Hs|]. split; [cbn; congruence | auto].
Qed.

Lemma bytes_snoc_last s c :
  lastByte s = Some c -> exists front, bytes s = (front ++ [c])%list.
Proof.
  unfold lastByte. intros Hl.
  destruct (bytes s) as [|x l] using rev_ind; [discriminate|].
  rewrite last_snoc in Hl. injection Hl as ->. by eexists.
Qed.

Lemma TrimRightFunc_keeps s c f :
  lastByte s = Some c -> (byteN c <? RuneSelf)%N = true ->
  f (Z.of_N (byteN c)) = false ->
  TrimRightFunc s f = s.
Proof.
  intros Hl Hc Hf. destruct (bytes_snoc_last s c Hl) as [front Hs].
  unfold TrimRightFunc. rewrite Hs, rev_unit.
  cbn [trimRightFrom DecodeLastRune]. rewrite Hc, Hf.
  cbn [skipn firstn rev app ofBytes].
  rewrite take_0, drop_0.
  change (ofBytes (rev [] ++ [c]) ++ "") with (String c "").
  cbv beta iota. rewrite Hc, rev_involutive. cbn [stake].
  rewrite <- (ofBytes_bytes s), Hs.
  unfold ofBytes. clear. induction front as [|x l IH]; [reflexivity|].
  cbn [string_of_list_ascii app String.append]. by rewrite IH.
Qed.

Lemma TrimSpace_plain s :
  forallb plainByte (bytes s) = true -> lastByte s <> Some " "%char ->
  forallb plainByte (bytes (TrimSpace s)) = true
  /\ firstByte (TrimSpace s) <> Some " "%char
  /\ lastByte (TrimSpace s) = lastByte s.
Proof.
  intros Hs Hlast. unfold TrimSpace, TrimLeftFunc.
  destruct (trimLeft_plain s Hs) as (Hp & Hf & Hl).
  destruct (lastByte s) as [c|] eqn:Hc.
  - assert (Hne : c <> " "%char) by congruence.
    assert (Hpc : plainByte c = true).
    { destruct (bytes_snoc_last s c Hc) as [front Hb]. rewrite Hb, forallb_app in Hs.
      apply andb_prop in Hs as [_ Hs]. cbn in Hs. by rewrite andb_true_r in Hs. }
    rewrite (TrimRightFunc_keeps _ c); auto using plain_ascii.
    rewrite plain_isSpace by exact Hpc. by destruct (Ascii.eqb_spec c " ").
  - assert (s = "") as ->.
    { destruct s as [|x s]; [reflexivity|]. rewrite lastByte_cons in Hc.
      by destruct (lastByte s). }
    by cbn.
Qed.

Lemma plain_not_forbidden c : plainByte c = true -> ~ In c forbidden.
Proof.
  unfold plainByte. intros [[_ Hf]%andb_prop _]%andb_prop Hin.
  apply negb_true_iff in Hf. 
  assert (existsb (Ascii.eqb c) forbidden = true); [|congruence].
  apply existsb_exists. exists c. split; [exact Hin | apply Ascii.eqb_refl].
Qed.

(** For an ASCII name the output of sanitizeFilename consists of ASCII
    bytes that are none of the nine characters and no control character,
    does not begin or end with a space, and does not end in a period. *)
Lemma sanitizeFilename_ascii name :
  isASCII name = true ->
  forallb plainByte (bytes (sanitizeFilename name)) = true
  /\ firstByte (sanitizeFilename name) <> Some " "%char
  /\ lastByte (sanitizeFilename name) <> Some " "%char
  /\ lastByte (sanitizeFilename name) <> Some "."%char.
Proof.
  intros Hascii. unfold sanitizeFilename, sanitizeFilenameIn.
  pose proof (scrubbed_plain name Hascii) as H2.
  set (s2 := Map dropControl _) in *.
  pose proof (TrimRight_plain s2 " ." H2) as H3.
  pose proof (TrimRight_last s2 " .") as L3.
  set (s3 := TrimRight s2 " .") in *.
  assert (L4 : lastByte (collapseSpaces s3) = lastByte s3).
  { destruct (lastByte s3) as [c|] eqn:Hc.
    - apply collapse_last; [exact Hc|].
      assert (Hpc : plainByte c = true).
      { destruct (bytes_snoc_last s3 c Hc) as [front Hb]. rewrite Hb, forallb_app in H3.
        apply andb_prop in H3 as [_ H3]. cbn in H3. by rewrite andb_true_r in H3. }
      apply plain_not_reSpace; [exact Hpc|].
      intros ->. by specialize (L3 _ eq_refl).
    - assert (s3 = "") as ->; [|reflexivity].
      destruct s3 as [|x s]; [reflexivity|]. rewrite lastByte_cons in Hc.
      by destruct (lastByte s). }
  pose proof (collapse_plain false s3 H3) as H4. fold (collapseSpaces s3) in H4.
  set (s4 := collapseSpaces s3) in *.
  assert (N4 : lastByte s4 <> Some " "%char).
  { rewrite L4. intros Hc. by specialize (L3 _ Hc). }
  destruct (TrimSpace_plain s4 H4 N4) as (H5 & F5 & L5).
  split; [exact H5|]. split; [exact F5|]. rewrite L5, L4.
  split; intros Hc; by specialize (L3 _ Hc).
Qed.

(** *** A trailing period *)

(** C6, at the input where the code departs from it.  For the name "a."
    followed by a no-break space (U+00A0) sanitizeFilename returns "a.",
    which ends in a period: TrimRight(" .") sees the no-break space as
    last byte and trims nothing, and the TrimSpace that runs afterwards
    removes the no-break space and uncovers the period.  The order in
    which the replacement map is visited makes no difference. *)
Theorem sanitizeFilename_leaves_trailing_period :
  sanitizeFilename dotNbsp = "a."
  /\ lastByte (sanitizeFilename dotNbsp) = Some "."%char
  /\ forall order, Permutation order replacements ->
       sanitizeFilenameIn order dotNbsp = "a.".
Proof.
  split; [vm_compute; reflexivity|]. split; [vm_compute; reflexivity|].
  intros order Horder. rewrite (sanitizeFilename_any_order order _ Horder).
  vm_compute. reflexivity.
Qed.

(** The steps on that input, one by one. *)
Example sanitize_steps_dotNbsp :
  Map dropControl dotNbsp = dotNbsp
  /\ TrimRight dotNbsp " ." = dotNbsp
  /\ collapseSpaces dotNbsp = dotNbsp
  /\ TrimSpace dotNbsp = "a.".
Proof. vm_compute. repeat split. Qed.

Example sanitize_movie_title :
  sanitizeFilename "Title: Part One" = "Title - Part One"
  /\ FormatMovie defaultFormatter
       {| Database.mv_Metadata := item 40 1 "Title: Part One" None None;
          Database.mv_Files := [] |} ".mkv"
     = "Title - Part One (Unknown).mkv".
Proof. vm_compute. split; reflexivity. Qed.

End SanitizeFacts.

(* ===================================================================== *)
(** ** Facts about the other functions *)
(* ===================================================================== *)

Module FormatterFacts.
Import GoStrings Spec StringFacts Database Formatter Scenario SanitizeFacts.

(** *** Prefixes *)

Lemma prefix_app (p s : string) : String.prefix p (p ++ s) = true.
Proof.
  induction p as [|c p IH]; [by destruct s|].
  cbn [String.append String.prefix]. by destruct (ascii_dec c c).
Qed.

Lemma sdrop_app (p s : string) : sdrop (String.length p) (p ++ s) = s.
Proof. induction p as [|c p IH]; [by destruct s | exact IH]. Qed.

Lemma prefix_split (p s : string) :
  String.prefix p s = true -> s = p ++ sdrop (String.length p) s.
Proof.
  revert s. induction p as [|c p IH]; intros s Hp; [by destruct s|].
  destruct s as [|x s]; [discriminate|]. cbn [String.prefix] in Hp.
  destruct (ascii_dec c x) as [->|]; [|discriminate].
  cbn [String.append String.length sdrop]. by rewrite <- IH.
Qed.

(** *** ApplyPathMapping *)

(** X1. With both prefixes non-empty, ApplyPathMapping replaces the old
    prefix at the start of a path by the new one and keeps the rest of
    the path byte for byte; a path that does not start with the old prefix
    is returned unchanged. *)
Theorem ApplyPathMapping_replaces_prefix (srcPrefix dstPrefix : string) :
  srcPrefix <> "" -> dstPrefix <> "" ->
  (forall rest, ApplyPathMapping (srcPrefix ++ rest) srcPrefix dstPrefix = dstPrefix ++ rest)
  /\ (forall path, HasPrefix path srcPrefix = false ->
        ApplyPathMapping path srcPrefix dstPrefix = path).
Proof.
  intros Hs Hd. unfold ApplyPathMapping, HasPrefix, GoFilepath.ToSlash, GoFilepath.FromSlash.
  destruct (String.eqb_spec srcPrefix "") as [|_]; [done|].
  destruct (String.eqb_spec dstPrefix "") as [|_]; [done|].
  cbn [orb]. split.
  - intros rest. by rewrite prefix_app, sdrop_app.
  - intros path ->. reflexivity.
Qed.

Lemma ApplyPathMapping_replaces_prefix_witness :
  ApplyPathMapping ("/media" ++ "2/a.mkv") "/media" "/mnt" = "/mnt" ++ "2/a.mkv"
  /\ ApplyPathMapping "/other/a.mkv" "/media" "/mnt" = "/other/a.mkv".
Proof.
  destruct (ApplyPathMapping_replaces_prefix "/media" "/mnt") as [Hin Hout];
    [discriminate | discriminate |].
  split; [apply Hin | apply Hout; reflexivity].
Defined.

(** X2. Mapping a path that starts with the old prefix and then mapping
    the result back with the prefixes exchanged gives the path again. *)
Theorem ApplyPathMapping_round_trip (path srcPrefix dstPrefix : string) :
  srcPrefix <> "" -> dstPrefix <> "" -> HasPrefix path srcPrefix = true ->
  ApplyPathMapping (ApplyPathMapping path srcPrefix dstPrefix) dstPrefix srcPrefix = path.
Proof.
  intros Hs Hd Hp. unfold HasPrefix in Hp. rewrite (prefix_split _ _ Hp).
  unfold ApplyPathMapping, HasPrefix, GoFilepath.ToSlash, GoFilepath.FromSlash.
  destruct (String.eqb_spec srcPrefix "") as [|_]; [done|].
  destruct (String.eqb_spec dstPrefix "") as [|_]; [done|].
  cbn [orb]. by rewrite prefix_app, sdrop_app, prefix_app, sdrop_app.
Qed.

Lemma ApplyPathMapping_round_trip_witness :
  ApplyPathMapping (ApplyPathMapping "/media/tv/a.mkv" "/media" "/mnt/nas") "/mnt/nas" "/media"
  = "/media/tv/a.mkv".
Proof.
  apply ApplyPathMapping_round_trip; [discriminate | discriminate | reflexivity].
Defined.

End FormatterFacts.

Module TemplateFacts.
Import GoStrings Spec StringFacts Database Formatter Scenario SanitizeFacts.

(** *** The templates *)

(** A text without the first byte of the pattern is passed over. *)
Lemma replaceFrom_passes (c0 : ascii) (old' new s rest : string) :
  ~ In c0 (bytes s) ->
  replaceFrom 0 (String c0 old') new (s ++ rest)
  = s ++ replaceFrom 0 (String c0 old') new rest.
Proof.
  induction s as [|c s IH]; intros Hc; [reflexivity|].
  cbn [String.append replaceFrom String.prefix].
  destruct (ascii_dec c0 c) as [->|_]; [exfalso; apply Hc; by left|].
  rewrite IH; [reflexivity|]. intros Hin. apply Hc. by right.
Qed.

Lemma ReplaceAll_passes (c0 : ascii) (old' new s rest : string) :
  ~ In c0 (bytes s) ->
  ReplaceAll (s ++ rest) (String c0 old') new
  = s ++ ReplaceAll rest (String c0 old') new.
Proof.
  intros Hc. unfold ReplaceAll.
  destruct (String.eqb (String c0 old') new); [reflexivity|].
  cbn [String.eqb]. by apply replaceFrom_passes.
Qed.

Lemma uint_digits (u : Decimal.uint) : ~ In "{"%char (bytes (NilEmpty.string_of_uint u)).
Proof.
  induction u as [|u IH|u IH|u IH|u IH|u IH|u IH|u IH|u IH|u IH|u IH];
    [intros []|..]; intros [Heq|Hin]; first [discriminate Heq | by apply IH].
Qed.

Lemma d_no_brace (n : Z) : ~ In "{"%char (bytes (GoFmt.d n)).
Proof.
  unfold GoFmt.d, NilZero.string_of_int, NilZero.string_of_uint.
  destruct (Z.to_int n) as [u|u]; [|intros [Heq|Hin]; [discriminate Heq|revert Hin]];
    destruct u; try apply uint_digits; cbn; intuition discriminate.
Qed.

Lemma d02_no_brace (n : Z) : ~ In "{"%char (bytes (GoFmt.d02 n)).
Proof.
  unfold GoFmt.d02. destruct (Nat.ltb _ _); [|apply d_no_brace].
  intros [Heq|Hin]; [discriminate Heq | by apply (d_no_brace n)].
Qed.

Lemma not_in_app (c : ascii) (a b : string) :
  ~ In c (bytes a) -> ~ In c (bytes b) -> ~ In c (bytes (a ++ b)).
Proof. rewrite bytes_app, in_app_iff. tauto. Qed.

Ltac no_brace :=
  repeat first
    [ apply not_in_app
    | apply d_no_brace | apply d02_no_brace | assumption
    | (intros Hin; cbn in Hin; intuition discriminate) ].

(** Replacing in a text written out in the source. *)
Ltac replace_literal :=
  unfold ReplaceAll;
  match goal with
  | |- context [String.eqb ?old ?new] =>
    destruct (String.eqb_spec old new) as [<-|_]; cbn; rewrite ?append_nil_r; reflexivity
  end.

(** The placeholder [old] is the next one in [pre ++ template]: [pre]
    holds no opening brace. *)
Ltac next_placeholder pre c0 old' new :=
  rewrite (ReplaceAll_passes c0 old' new pre) by no_brace.

Lemma expand_movie_template (title year ext : string) :
  ~ In "{"%char (bytes title) -> ~ In "{"%char (bytes year) ->
  ReplaceAll (ReplaceAll (ReplaceAll DefaultMovieFormat "{title}" title) "{year}" year)
             "{ext}" ext
  = title ++ " (" ++ year ++ ")" ++ ext.
Proof.
  intros Htitle Hyear.
  replace (ReplaceAll DefaultMovieFormat "{title}" title)
    with (title ++ " ({year}){ext}") by (symmetry; replace_literal).
  next_placeholder title "{"%char "year}" year.
  replace (ReplaceAll " ({year}){ext}" "{year}" year)
    with (" (" ++ year ++ "){ext}") by (symmetry; replace_literal).
  replace (title ++ " (" ++ year ++ "){ext}")
    with ((title ++ " (" ++ year ++ ")") ++ "{ext}")
    by (rewrite !append_assoc; reflexivity).
  next_placeholder (title ++ " (" ++ year ++ ")") "{"%char "ext}" ext.
  replace (ReplaceAll "{ext}" "{ext}" ext) with ext by (symmetry; replace_literal).
  rewrite !append_assoc. reflexivity.
Qed.

(** X3. With the default movie template, and a sanitized title that
    holds no opening brace, FormatMovie returns the sanitized title, the
    year in parentheses (Unknown when the year is missing) and the
    extension, in this order. *)
Theorem FormatMovie_default (movie : MovieInfo) (ext : string) :
  let title := sanitizeFilename (Title (mv_Metadata movie)) in
  let year := match Year (mv_Metadata movie) with
              | Some y => GoFmt.d y
              | None => "Unknown"
              end in
  ~ In "{"%char (bytes title) ->
  FormatMovie (NewFormatter "" "") movie ext = title ++ " (" ++ year ++ ")" ++ ext.
Proof.
  intros title year Htitle. apply expand_movie_template; [exact Htitle|].
  subst year. destruct (Year _); no_brace.
Qed.

Lemma expand_tv_template (show season snum enum title year ext : string) :
  ~ In "{"%char (bytes show) -> ~ In "{"%char (bytes season) ->
  ~ In "{"%char (bytes snum) -> ~ In "{"%char (bytes enum) ->
  ~ In "{"%char (bytes title) ->
  ReplaceAll (ReplaceAll (ReplaceAll (ReplaceAll (ReplaceAll (ReplaceAll (ReplaceAll
    DefaultTVFormat "{show}" show) "{season}" season) "{snum}" snum) "{enum}" enum)
    "{title}" title) "{year}" year) "{ext}" ext
  = show ++ "/Season " ++ season ++ "/S" ++ snum ++ "E" ++ enum ++ " - " ++ title ++ ext.
Proof.
  intros Hshow Hseason Hsnum Henum Htitle.
  replace (ReplaceAll DefaultTVFormat "{show}" show)
    with (show ++ "/Season {season}/S{snum}E{enum} - {title}{ext}")
    by (symmetry; replace_literal).
  next_placeholder show "{"%char "season}" season.
  replace (ReplaceAll "/Season {season}/S{snum}E{enum} - {title}{ext}" "{season}" season)
    with (("/Season " ++ season ++ "/S") ++ "{snum}E{enum} - {title}{ext}")
    by (symmetry; rewrite !append_assoc; replace_literal).
  rewrite <- append_assoc.
  next_placeholder ((show ++ "/Season " ++ season ++ "/S")) "{"%char "snum}" snum.
  replace (ReplaceAll "{snum}E{enum} - {title}{ext}" "{snum}" snum)
    with ((snum ++ "E") ++ "{enum} - {title}{ext}")
    by (symmetry; rewrite !append_assoc; replace_literal).
  rewrite <- append_assoc.
  next_placeholder (((show ++ "/Season " ++ season ++ "/S") ++ snum ++ "E"))
                   "{"%char "enum}" enum.
  replace (ReplaceAll "{enum} - {title}{ext}" "{enum}" enum)
    with ((enum ++ " - ") ++ "{title}{ext}")
    by (symmetry; rewrite !append_assoc; replace_literal).
  rewrite <- append_assoc.
  next_placeholder ((((show ++ "/Season " ++ season ++ "/S") ++ snum ++ "E") ++ enum ++ " - "))
                   "{"%char "title}" title.
  replace (ReplaceAll "{title}{ext}" "{title}" title)
    with (title ++ "{ext}") by (symmetry; replace_literal).
  rewrite <- append_assoc.
  next_placeholder (((((show ++ "/Season " ++ season ++ "/S") ++ snum ++ "E") ++ enum ++ " - ")
                      ++ title)) "{"%char "year}" year.
  replace (ReplaceAll "{ext}" "{year}" year) with "{ext}"
    by (symmetry; replace_literal).
  next_placeholder (((((show ++ "/Season " ++ season ++ "/S") ++ snum ++ "E") ++ enum ++ " - ")
                      ++ title)) "{"%char "ext}" ext.
  replace (ReplaceAll "{ext}" "{ext}" ext) with ext by (symmetry; replace_literal).
  rewrite !append_assoc. reflexivity.
Qed.

(** X4. With the default episode template, and sanitized show and
    episode titles that hold no opening brace, FormatEpisode returns
    show/Season N/SxxEyy - title.ext: the season number unpadded in the
    folder, season and episode numbers padded to two digits in the file
    name, and 0 for a missing number. *)
Theorem FormatEpisode_default (show season : MetadataItem) (episode : EpisodeInfo)
        (ext : string) :
  let showTitle := sanitizeFilename (Title show) in
  let title := sanitizeFilename (Title (ep_Metadata episode)) in
  let seasonNum := match Index season with Some i => i | None => 0%Z end in
  let episodeNum := match Index (ep_Metadata episode) with Some i => i | None => 0%Z end in
  ~ In "{"%char (bytes showTitle) -> ~ In "{"%char (bytes title) ->
  FormatEpisode (NewFormatter "" "") show season episode ext
  = showTitle ++ "/Season " ++ GoFmt.d seasonNum
    ++ "/S" ++ GoFmt.d02 seasonNum ++ "E" ++ GoFmt.d02 episodeNum
    ++ " - " ++ title ++ ext.
Proof.
  intros showTitle title seasonNum episodeNum Hshow Htitle.
  apply expand_tv_template; no_brace.
Qed.

Ltac no_such_byte :=
  vm_compute; let Hin := fresh "Hin" in
  intros Hin; repeat (destruct Hin as [Hin|Hin]; [discriminate Hin|]); exact Hin.

Lemma FormatMovie_default_witness :
  FormatMovie (NewFormatter "" "") placedMovie ".mkv" = "Movie (2020).mkv".
Proof.
  exact (FormatMovie_default placedMovie ".mkv" ltac:(no_such_byte)).
Defined.

Lemma FormatEpisode_default_witness :
  FormatEpisode (NewFormatter "" "") (item 10 2 "Show A" (Some 2020%Z) None)
                (item 11 3 "Season 1" None (Some 1%Z))
                {| ep_Metadata := item 12 4 "Pilot" None (Some 3%Z);
                   ep_Files := [ part 1 "/src/Show A/ep1.mkv" ] |} ".mkv"
  = "Show A/Season 1/S01E03 - Pilot.mkv".
Proof.
  exact (FormatEpisode_default (item 10 2 "Show A" (Some 2020%Z) None)
           (item 11 3 "Season 1" None (Some 1%Z))
           {| ep_Metadata := item 12 4 "Pilot" None (Some 3%Z);
              ep_Files := [ part 1 "/src/Show A/ep1.mkv" ] |} ".mkv"
           ltac:(no_such_byte) ltac:(no_such_byte)).
Defined.

End TemplateFacts.

Module SanitizeBytes.
Import GoUtf8 GoStrings Spec NameSpec StringFacts Formatter Scenario SanitizeFacts.

(** *** Bytes and runes *)

Lemma byteN_lt c : (byteN c < 256)%N.
Proof. unfold byteN. apply N_ascii_bounded. Qed.

Lemma byteN_ofZ z : byteN (ofZ z) = Z.to_N (z mod 256).
Proof.
  unfold byteN, ofZ. apply N_ascii_embedding.
  pose proof (Z.mod_pos_bound z 256 eq_refl). lia.
Qed.

(** A byte written as [K | x] with bit 7 set in [K] is not ASCII. *)
Lemma ofZ_lor_high K x : Z.testbit K 7 = true -> (128 <= byteN (ofZ (Z.lor K x)))%N.
Proof.
  intros HK. rewrite byteN_ofZ.
  pose proof (Z.mod_pos_bound (Z.lor K x) 256 eq_refl) as Hb.
  assert (Hbit : Z.testbit (Z.lor K x mod 2 ^ 8) 7 = true).
  { rewrite Z.mod_pow2_bits_low by lia. by rewrite Z.lor_spec, HK. }
  change (2 ^ 8)%Z with 256%Z in Hbit.
  apply Z.testbit_true in Hbit; [|lia]. change (2 ^ 7)%Z with 128%Z in Hbit.
  destruct (Z.lt_ge_cases (Z.lor K x mod 256) 128) as [Hlt|Hge]; [|lia].
  rewrite Z.div_small in Hbit by lia. discriminate Hbit.
Qed.

Lemma EncodeRune_high r c :
  (128 <= r)%Z -> In c (bytes (EncodeRune r)) -> (128 <= byteN c)%N.
Proof.
  intros Hr. unfold EncodeRune, encode3.
  repeat match goal with
         | |- context [if ?b then _ else _] => destruct b eqn:?
         end;
    cbn [bytes list_ascii_of_string In]; intros Hin;
    repeat (destruct Hin as [<-|Hin]; [try (apply ofZ_lor_high; reflexivity)|]);
    try destruct Hin; try lia.
  all: vm_compute; discriminate.
Qed.

Lemma lor_high_l a b : (0 <= a)%Z -> (0 <= b)%Z -> (128 <= a)%Z -> (128 <= Z.lor a b)%Z.
Proof.
  intros Ha Hb Hlo.
  assert (H0 : (0 <= Z.lor a b)%Z) by (apply Z.lor_nonneg; lia).
  change 128%Z with (2 ^ 7)%Z in *.
  apply Z.log2_le_pow2 in Hlo; [|lia].
  destruct (Z.eq_dec (Z.lor a b) 0%Z) as [H|H].
  { apply Z.lor_eq_0_iff in H as [-> _]. cbn in Hlo. lia. }
  apply Z.log2_le_pow2; [lia|]. rewrite Z.log2_lor by lia. lia.
Qed.

Lemma lor_high_r a b : (0 <= a)%Z -> (0 <= b)%Z -> (128 <= b)%Z -> (128 <= Z.lor a b)%Z.
Proof. intros. rewrite Z.lor_comm. by apply lor_high_l. Qed.

Lemma low6_nonneg b : (0 <= low6 b)%Z.
Proof. unfold low6. lia. Qed.

Lemma shiftl_high x n : (1 <= x)%Z -> (7 <= n)%Z -> (128 <= Z.shiftl x n)%Z.
Proof.
  intros Hx Hn. rewrite Z.shiftl_mul_pow2 by lia.
  assert (2 ^ 7 <= 2 ^ n)%Z by (apply Z.pow_le_mono_r; lia).
  change (2 ^ 7)%Z with 128%Z in *. nia.
Qed.

(** What the [first] table admits as lead byte and as second byte. *)
Lemma first_cases c sz lo hi :
  first (byteN c) = Some (sz, lo, hi) ->
  (sz = 2%nat /\ (2 <= N.land (byteN c) 0x1F)%N)
  \/ (sz = 3%nat /\ ((1 <= N.land (byteN c) 0x0F)%N \/ (lo = 0xA0 /\ hi = 0xBF)%N))
  \/ (sz = 4%nat /\ ((1 <= N.land (byteN c) 0x07)%N \/ (lo = 0x90 /\ hi = 0xBF)%N)).
Proof.
  destruct c as [[] [] [] [] [] [] [] []]; vm_compute; intros [= <- <- <-];
    first [ left; split; [reflexivity | discriminate]
          | right; left; split; [reflexivity|];
            first [left; discriminate | right; split; reflexivity]
          | right; right; split; [reflexivity|];
            first [left; discriminate | right; split; reflexivity] ].
Qed.

Lemma second_of_E0 c : inRange 0xA0 0xBF (byteN c) = true -> (32 <= N.land (byteN c) 0x3F)%N.
Proof. destruct c as [[] [] [] [] [] [] [] []]; vm_compute; discriminate. Qed.

Lemma second_of_F0 c : inRange 0x90 0xBF (byteN c) = true -> (16 <= N.land (byteN c) 0x3F)%N.
Proof. destruct c as [[] [] [] [] [] [] [] []]; vm_compute; discriminate. Qed.

Lemma first_two c sz lo hi :
  first (byteN c) = Some (sz, lo, hi) -> Nat.leb sz 2 = true ->
  (2 <= N.land (byteN c) 0x1F)%N.
Proof.
  intros Hf Hsz. destruct (first_cases _ _ _ _ Hf) as [[_ H]|[[-> _]|[-> _]]];
    [exact H | discriminate Hsz | discriminate Hsz].
Qed.

Lemma first_three c0 c1 sz lo hi :
  first (byteN c0) = Some (sz, lo, hi) -> Nat.leb sz 2 = false -> Nat.leb sz 3 = true ->
  inRange lo hi (byteN c1) = true ->
  (1 <= N.land (byteN c0) 0x0F)%N \/ (32 <= N.land (byteN c1) 0x3F)%N.
Proof.
  intros Hf H2 H3 Hr. destruct (first_cases _ _ _ _ Hf) as [[-> _]|[[_ H]|[-> _]]];
    [discriminate H2 | | discriminate H3].
  destruct H as [H|[-> ->]]; [by left | right; by apply second_of_E0].
Qed.

Lemma first_four c0 c1 sz lo hi :
  first (byteN c0) = Some (sz, lo, hi) -> Nat.leb sz 3 = false ->
  inRange lo hi (byteN c1) = true ->
  (1 <= N.land (byteN c0) 0x07)%N \/ (16 <= N.land (byteN c1) 0x3F)%N.
Proof.
  intros Hf H3 Hr. destruct (first_cases _ _ _ _ Hf) as [[-> _]|[[-> _]|[_ H]]];
    [discriminate H3 | discriminate H3 |].
  destruct H as [H|[-> ->]]; [by left | right; by apply second_of_F0].
Qed.

(** A rune below 0x80 is decoded from one byte only, the byte itself. *)
Lemma DecodeRune_ascii s r w :
  DecodeRuneInString s = (r, w) -> (r < 128)%Z ->
  exists c t, s = String c t /\ r = Z.of_N (byteN c) /\ (byteN c <? RuneSelf)%N = true.
Proof.
  destruct s as [|c0 t]; [intros [= <- _]; unfold RuneError; lia|].
  cbn [DecodeRuneInString].
  destruct (byteN c0 <? RuneSelf)%N eqn:Hc0.
  { intros [= <- _] _. by exists c0, t. }
  destruct (first (byteN c0)) as [[[sz lo] hi]|] eqn:Hfirst;
    [|intros [= <- _]; unfold RuneError; lia].
  destruct (Nat.ltb _ sz); [intros [= <- _]; unfold RuneError; lia|].
  destruct t as [|c1 t1]; [intros [= <- _]; unfold RuneError; lia|].
  destruct (inRange lo hi (byteN c1)) eqn:Hr1; cbn [negb];
    [|intros [= <- _]; unfold RuneError; lia].
  destruct (Nat.leb sz 2) eqn:H2.
  { intros [= <- _] Hlt. exfalso.
    pose proof (first_two _ _ _ _ Hfirst H2) as Hb.
    assert (128 <= Z.lor (Z.shiftl (Z.of_N (N.land (byteN c0) 31)) 6) (low6 (byteN c1)))%Z;
      [|lia].
    apply lor_high_l; [apply Z.shiftl_nonneg; lia | apply low6_nonneg|].
    rewrite Z.shiftl_mul_pow2 by lia. change (2 ^ 6)%Z with 64%Z. lia. }
  destruct t1 as [|c2 t2]; [intros [= <- _]; unfold RuneError; lia|].
  destruct (isCont (byteN c2)); cbn [negb]; [|intros [= <- _]; unfold RuneError; lia].
  destruct (Nat.leb sz 3) eqn:H3.
  { intros [= <- _] Hlt. exfalso.
    match type of Hlt with (?e < _)%Z => assert (128 <= e)%Z; [|lia] end.
    apply lor_high_l;
      [apply Z.lor_nonneg; split; apply Z.shiftl_nonneg; (lia || apply low6_nonneg)
      | apply low6_nonneg|].
    destruct (first_three _ c1 _ _ _ Hfirst H2 H3 Hr1) as [Hb|Hb].
    - apply lor_high_l;
        [apply Z.shiftl_nonneg; lia | apply Z.shiftl_nonneg, low6_nonneg|].
      apply shiftl_high; lia.
    - apply lor_high_r;
        [apply Z.shiftl_nonneg; lia | apply Z.shiftl_nonneg, low6_nonneg|].
      rewrite Z.shiftl_mul_pow2 by lia. change (2 ^ 6)%Z with 64%Z. unfold low6. lia. }
  destruct t2 as [|c3 t3]; [intros [= <- _]; unfold RuneError; lia|].
  destruct (isCont (byteN c3)); cbn [negb]; [|intros [= <- _]; unfold RuneError; lia].
  intros [= <- _] Hlt. exfalso.
  match type of Hlt with (?e < _)%Z => assert (128 <= e)%Z; [|lia] end.
  apply lor_high_l;
    [repeat (apply Z.lor_nonneg; split); apply Z.shiftl_nonneg; (lia || apply low6_nonneg)
    | apply low6_nonneg|].
  apply lor_high_l;
    [apply Z.lor_nonneg; split; apply Z.shiftl_nonneg; (lia || apply low6_nonneg)
    | apply Z.shiftl_nonneg, low6_nonneg|].
  destruct (first_four _ c1 _ _ _ Hfirst H3 Hr1) as [Hb|Hb].
  - apply lor_high_l;
      [apply Z.shiftl_nonneg; lia | apply Z.shiftl_nonneg, low6_nonneg|].
    apply shiftl_high; lia.
  - apply lor_high_r;
      [apply Z.shiftl_nonneg; lia | apply Z.shiftl_nonneg, low6_nonneg|].
    rewrite Z.shiftl_mul_pow2 by lia. change (2 ^ 12)%Z with 4096%Z. unfold low6. lia.
Qed.


(** *** Every name *)

Lemma high_allowed c : (128 <= byteN c)%N -> allowedByte c.
Proof.
  destruct c as [[] [] [] [] [] [] [] []]; vm_compute; intros Hc;
    first [ by exfalso; apply Hc
          | repeat split; first [discriminate | intuition discriminate] ].
Qed.

Lemma kept_ascii_allowed c :
  ~ In c forbidden -> (byteN c <? RuneSelf)%N = true ->
  GoUnicode.IsControl (Z.of_N (byteN c)) = false -> allowedByte c.
Proof.
  intros Hf _ Hc. split; [exact Hf|].
  destruct c as [[] [] [] [] [] [] [] []]; vm_compute in Hc |- *;
    first [discriminate Hc | split; discriminate].
Qed.

Lemma tableLookup_not_forbidden c x :
  In x (bytes (tableLookup replacements c)) -> ~ In x forbidden.
Proof.
  destruct c as [[] [] [] [] [] [] [] []]; vm_compute;
    intros Hin; repeat (destruct Hin as [<-|Hin]); try destruct Hin;
    intuition discriminate.
Qed.

Lemma in_substBytes f s x :
  In x (bytes (substBytes f s)) -> exists c, In c (bytes s) /\ In x (bytes (f c)).
Proof.
  induction s as [|c s IH]; [intros []|].
  cbn [substBytes]. rewrite bytes_app, in_app_iff. intros [Hin|Hin].
  - exists c. split; [by left | exact Hin].
  - destruct (IH Hin) as (c' & Hc' & Hx). exists c'. split; [by right | exact Hx].
Qed.

Lemma mapFrom_allowed skip s x :
  (forall c, In c (bytes s) -> ~ In c forbidden) ->
  In x (bytes (mapFrom dropControl skip s)) -> allowedByte x.
Proof.
  revert skip. induction s as [|c0 t IH]; intros skip Hs; [intros []|].
  assert (Ht : forall c, In c (bytes t) -> ~ In c forbidden).
  { intros c Hc. apply Hs. by right. }
  cbn [mapFrom]. destruct skip as [|k]; [|by apply IH].
  destruct (DecodeRuneInString (String c0 t)) as [r w] eqn:Hdec.
  rewrite bytes_app, in_app_iff. intros [Hin|Hin]; [|by eapply IH].
  unfold dropControl in Hin.
  destruct (GoUnicode.IsControl r) eqn:Hctl; [destruct Hin|].
  destruct (0 <=? r)%Z eqn:Hpos; [|destruct Hin].
  destruct (Z.lt_ge_cases r 128) as [Hlt|Hge].
  - destruct (DecodeRune_ascii _ _ _ Hdec Hlt) as (c & t' & [= <- <-] & -> & Hc).
    unfold EncodeRune in Hin.
    assert (Hr : (Z.of_N (byteN c0) <= 127)%Z).
    { unfold RuneSelf in Hc. apply N.ltb_lt in Hc. lia. }
    apply Z.leb_le in Hr. rewrite Hpos, Hr in Hin. cbn in Hin.
    destruct Hin as [<-|[]].
    assert (ofZ (Z.of_N (byteN c0)) = c0) as ->.
    { unfold ofZ, byteN. rewrite Z.mod_small, N2Z.id, ascii_N_embedding; [reflexivity|].
      pose proof (byteN_lt c0). unfold byteN in *. lia. }
    apply kept_ascii_allowed; [apply Hs; by left | exact Hc | exact Hctl].
  - apply high_allowed. by eapply EncodeRune_high.
Qed.

(** The trimming functions return a part of their argument. *)
Lemma in_TrimRight s cutset x : In x (bytes (TrimRight s cutset)) -> In x (bytes s).
Proof.
  unfold TrimRight. rewrite bytes_ofBytes, <- in_rev, (in_rev (bytes s)).
  induction (rev (bytes s)) as [|c l IH]; [done|]. cbn [dropWhileL].
  destruct (inCutset cutset c); [intros Hin; right; by apply IH | done].
Qed.

Lemma in_collapse b s x :
  In x (bytes (collapseFrom b s)) -> x = " "%char \/ In x (bytes s).
Proof.
  revert b. induction s as [|c s IH]; intros b; [intros []|].
  cbn [collapseFrom]. destruct (isReSpace c); [destruct b|];
    cbn [bytes list_ascii_of_string In]; fold (bytes s);
    fold (bytes (collapseFrom true s)); fold (bytes (collapseFrom false s)).
  - intros Hin. destruct (IH _ Hin); auto.
  - intros [<-|Hin]; [by left|]. destruct (IH _ Hin); auto.
  - intros [<-|Hin]; [by right; left|]. destruct (IH _ Hin); auto.
Qed.

Lemma trimLeftFrom_suffix f skip s :
  exists front, s = front ++ trimLeftFrom f skip s.
Proof.
  revert skip. induction s as [|c t IH]; intros skip; [by exists ""|].
  cbn [trimLeftFrom]. destruct skip as [|k].
  - destruct (DecodeRuneInString (String c t)) as [r w].
    destruct (f r); [|by exists ""].
    destruct (IH (w - 1)) as [front Hfront]. exists (String c front).
    cbn [String.append]. by rewrite <- Hfront.
  - destruct (IH k) as [front Hfront]. exists (String c front).
    cbn [String.append]. by rewrite <- Hfront.
Qed.

Lemma stake_sdrop n s : stake n s ++ sdrop n s = s.
Proof.
  revert s. induction n as [|n IH]; intros [|c s]; try reflexivity.
  cbn [stake sdrop String.append]. by rewrite IH.
Qed.

Lemma ofBytes_app l1 l2 : ofBytes (l1 ++ l2) = ofBytes l1 ++ ofBytes l2.
Proof.
  unfold ofBytes. induction l1 as [|c l IH]; [reflexivity|].
  cbn [app string_of_list_ascii String.append]. by rewrite IH.
Qed.

Lemma trimRightFrom_prefix f skip rs suffix :
  exists back, ofBytes (rev rs) ++ suffix = trimRightFrom f skip rs suffix ++ back.
Proof.
  revert skip suffix. induction rs as [|c rest IH]; intros skip suffix.
  { by exists suffix. }
  assert (Hstep : forall k, exists back,
             ofBytes (rev (c :: rest)) ++ suffix
             = trimRightFrom f k rest (String c suffix) ++ back).
  { intros k. destruct (IH k (String c suffix)) as [back Hback]. exists back.
    rewrite <- Hback. cbn [rev]. rewrite ofBytes_app, append_assoc. reflexivity. }
  cbn [trimRightFrom]. destruct skip as [|k]; [|apply Hstep].
  destruct (DecodeLastRune (c :: rest)) as [r size].
  destruct (f r); [apply Hstep|].
  set (head := ofBytes (rev (skipn size (c :: rest)))).
  set (tail := ofBytes (rev (firstn size (c :: rest))) ++ suffix).
  assert (Hsplit : ofBytes (rev (c :: rest)) ++ suffix = head ++ tail).
  { subst head tail. rewrite <- append_assoc, <- ofBytes_app, <- rev_app_distr.
    by rewrite firstn_skipn. }
  rewrite Hsplit. destruct tail as [|c0 tail'] eqn:Htail.
  { exists "". by rewrite !append_nil_r. }
  destruct (byteN c0 <? RuneSelf)%N.
  - exists (sdrop 1 (String c0 tail')). by rewrite append_assoc, stake_sdrop.
  - eexists (sdrop _ (String c0 tail')). by rewrite append_assoc, stake_sdrop.
Qed.

Lemma in_TrimSpace s x : In x (bytes (TrimSpace s)) -> In x (bytes s).
Proof.
  unfold TrimSpace, TrimRightFunc, TrimLeftFunc. intros Hin.
  destruct (trimLeftFrom_suffix GoUnicode.IsSpace 0 s) as [front Hfront].
  set (u := trimLeftFrom GoUnicode.IsSpace 0 s) in *.
  destruct (trimRightFrom_prefix GoUnicode.IsSpace 0 (rev (bytes u)) "") as [back Hback].
  rewrite rev_involutive, ofBytes_bytes, append_nil_r in Hback.
  rewrite Hfront, bytes_app, in_app_iff. right.
  rewrite Hback, bytes_app, in_app_iff. by left.
Qed.

(** X5. For every name, whatever its bytes, every byte of the result of
    sanitizeFilename is none of the nine characters the function
    replaces or removes and no ASCII control character (below 32, or
    127). *)
Theorem sanitizeFilename_bytes_allowed (name : string) :
  Forall allowedByte (bytes (sanitizeFilename name)).
Proof.
  apply List.Forall_forall. intros c.
  unfold sanitizeFilename, sanitizeFilenameIn. intros Hin.
  apply in_TrimSpace, in_collapse in Hin as [->|Hin].
  { vm_compute. intuition discriminate. }
  apply in_TrimRight in Hin. unfold Map in Hin.
  eapply mapFrom_allowed; [|exact Hin].
  intros x Hx. rewrite replacements_bytewise in Hx by apply replacements_bytewiseTable.
  apply in_substBytes in Hx as (y & _ & Hx). by eapply tableLookup_not_forbidden.
Qed.

(** *** The ends of the result *)

Lemma trimLeftFrom_first skip s :
  firstByte (trimLeftFrom GoUnicode.IsSpace skip s) <> Some " "%char.
Proof.
  revert skip. induction s as [|c t IH]; intros skip; [done|].
  cbn [trimLeftFrom]. destruct skip as [|k]; [|apply IH].
  destruct (DecodeRuneInString (String c t)) as [r w] eqn:Hdec.
  destruct (GoUnicode.IsSpace r) eqn:Hr; [apply IH|].
  cbn. intros [= ->]. cbn in Hdec. injection Hdec as <- _. discriminate Hr.
Qed.

Lemma firstByte_app a b x : firstByte a = Some x -> firstByte (a ++ b) = Some x.
Proof. destruct a as [|c a]; [discriminate|]. by cbn. Qed.

Lemma lastByte_app a b : b <> "" -> lastByte (a ++ b) = lastByte b.
Proof.
  intros Hb. induction a as [|c a IH]; [reflexivity|].
  cbn [String.append]. rewrite lastByte_cons, IH.
  destruct b as [|x b]; [done|]. rewrite lastByte_cons. by destruct (lastByte b).
Qed.

Lemma first_lo b sz lo hi : first b = Some (sz, lo, hi) -> (128 <= lo)%N.
Proof.
  unfold first. repeat case_match; intros [= <- <- <-]; lia.
Qed.

(** The last byte of a rune that starts with a byte above 0x7F is above
    0x7F as well. *)
Lemma stake_rune_last c0 t x :
  (byteN c0 <? RuneSelf)%N = false ->
  lastByte (stake (snd (DecodeRuneInString (String c0 t))) (String c0 t)) = Some x ->
  (128 <= byteN x)%N.
Proof.
  intros Hc0. cbn [DecodeRuneInString]. rewrite Hc0.
  assert (Hone : lastByte (stake 1 (String c0 t)) = Some x -> (128 <= byteN x)%N).
  { cbn. intros [= <-]. apply N.ltb_ge in Hc0. exact Hc0. }
  destruct (first (byteN c0)) as [[[sz lo] hi]|] eqn:Hfirst; [|exact Hone].
  destruct (Nat.ltb _ sz); [exact Hone|].
  destruct t as [|c1 t1]; [exact Hone|].
  destruct (inRange lo hi (byteN c1)) eqn:Hr1; cbn [negb]; [|exact Hone].
  destruct (Nat.leb sz 2).
  { cbn. intros [= <-]. apply first_lo in Hfirst. unfold inRange in Hr1.
    apply andb_prop in Hr1 as [Hlo _]. apply N.leb_le in Hlo. lia. }
  destruct t1 as [|c2 t2]; [exact Hone|].
  destruct (isCont (byteN c2)) eqn:Hr2; cbn [negb]; [|exact Hone].
  destruct (Nat.leb sz 3).
  { cbn. intros [= <-]. unfold isCont, inRange in Hr2.
    apply andb_prop in Hr2 as [Hlo _]. apply N.leb_le in Hlo. lia. }
  destruct t2 as [|c3 t3]; [exact Hone|].
  destruct (isCont (byteN c3)) eqn:Hr3; cbn [negb]; [|exact Hone].
  cbn. intros [= <-]. unfold isCont, inRange in Hr3.
  apply andb_prop in Hr3 as [Hlo _]. apply N.leb_le in Hlo. lia.
Qed.

Lemma decodeBack_spec k rs r size :
  decodeBack k rs = (r, size) ->
  size = 1%nat /\ r = RuneError
  \/ size = S k /\ DecodeRuneInString (ofBytes (rev (firstn (S k) rs))) = (r, S k).
Proof.
  unfold decodeBack. fold (ofBytes (rev (firstn (S k) rs))).
  destruct (DecodeRuneInString _) as [r' size'].
  destruct (Nat.eqb_spec size' (S k)) as [->|_]; intros [= <- <-]; auto.
Qed.

(** utf8.DecodeLastRune on a non-empty text: one byte, which is the rune
    when it is ASCII, or a whole encoding of two to four bytes. *)
Lemma DecodeLastRune_spec c back r size :
  DecodeLastRune (c :: back) = (r, size) ->
  (size = 1%nat /\ ((byteN c <? RuneSelf)%N = true -> r = Z.of_N (byteN c)))
  \/ ((2 <= size)%nat
      /\ DecodeRuneInString (ofBytes (rev (firstn size (c :: back)))) = (r, size)).
Proof.
  cbn [DecodeLastRune]. destruct (byteN c <? RuneSelf)%N eqn:Hc.
  { intros [= <- <-]. left. split; [reflexivity | done]. }
  assert (Herr : (RuneError, 1%nat) = (r, size) ->
          (size = 1%nat /\ (false = true -> r = Z.of_N (byteN c)))
          \/ ((2 <= size)%nat
              /\ DecodeRuneInString (ofBytes (rev (firstn size (c :: back)))) = (r, size))).
  { intros [= <- <-]. left. split; [reflexivity | done]. }
  assert (Hback : forall k, decodeBack (S k) (c :: back) = (r, size) ->
          (size = 1%nat /\ (false = true -> r = Z.of_N (byteN c)))
          \/ ((2 <= size)%nat
              /\ DecodeRuneInString (ofBytes (rev (firstn size (c :: back)))) = (r, size))).
  { intros k Hd. apply decodeBack_spec in Hd as [[-> _]|[-> Hd]].
    - left. split; [reflexivity | done].
    - right. split; [lia | exact Hd]. }
  destruct back as [|b1 back1]; [exact Herr|].
  destruct (RuneStart (byteN b1)); [apply Hback|].
  destruct back1 as [|b2 back2]; [exact Herr|].
  destruct (RuneStart (byteN b2)); [apply Hback|].
  destruct back2 as [|b3 back3]; [exact Herr|].
  destruct (RuneStart (byteN b3)); [apply Hback | exact Herr].
Qed.

Lemma trimRightFrom_last skip rs suffix :
  lastByte (trimRightFrom GoUnicode.IsSpace skip rs suffix) <> Some " "%char.
Proof.
  revert skip suffix. induction rs as [|c back IH]; intros skip suffix; [done|].
  cbn [trimRightFrom]. destruct skip as [|k]; [|apply IH].
  destruct (DecodeLastRune (c :: back)) as [r size] eqn:Hdec.
  destruct (GoUnicode.IsSpace r) eqn:Hr; [apply IH|].
  apply DecodeLastRune_spec in Hdec.
  set (head := ofBytes (rev (skipn size (c :: back)))).
  destruct (ofBytes (rev (firstn size (c :: back))) ++ suffix) as [|c0 tail'] eqn:Htail.
  { exfalso. destruct Hdec as [[-> _]|[Hsize _]].
    - cbn in Htail. discriminate Htail.
    - destruct size as [|n]; [lia|]. cbn [firstn rev] in Htail.
      rewrite ofBytes_app in Htail. cbn in Htail.
      destruct (ofBytes (rev (firstn n back))); discriminate Htail. }
  destruct (byteN c0 <? RuneSelf)%N eqn:Hc0.
  - rewrite lastByte_app by done. cbn. intros [= ->].
    destruct Hdec as [[-> Hone]|[Hsize Hd]].
    + cbn in Htail. injection Htail as -> _. rewrite (Hone Hc0) in Hr. discriminate Hr.
    + destruct (ofBytes (rev (firstn size (c :: back)))) as [|x seg] eqn:Hseg.
      { cbn in Hd. injection Hd as _ <-. lia. }
      cbn [String.append] in Htail. injection Htail as -> _.
      cbn in Hd. injection Hd as _ <-. lia.
  - rewrite lastByte_app.
    + intros Hl. apply stake_rune_last in Hl; [|exact Hc0]. vm_compute in Hl. by apply Hl.
    + cbn [DecodeRuneInString]. rewrite Hc0.
      repeat case_match; discriminate.
Qed.

(** X6. For every name, whatever its bytes, the result of
    sanitizeFilename neither begins nor ends with a space. *)
Theorem sanitizeFilename_ends (name : string) :
  firstByte (sanitizeFilename name) <> Some " "%char
  /\ lastByte (sanitizeFilename name) <> Some " "%char.
Proof.
  unfold sanitizeFilename, sanitizeFilenameIn.
  set (s4 := collapseSpaces _). unfold TrimSpace, TrimRightFunc, TrimLeftFunc.
  split; [|apply trimRightFrom_last].
  pose proof (trimLeftFrom_first 0 s4) as Hfirst.
  set (u := trimLeftFrom GoUnicode.IsSpace 0 s4) in *.
  destruct (trimRightFrom_prefix GoUnicode.IsSpace 0 (rev (bytes u)) "") as [back Hback].
  rewrite rev_involutive, ofBytes_bytes, append_nil_r in Hback.
  intros Hout. apply Hfirst. rewrite Hback. by apply firstByte_app.
Qed.

End SanitizeBytes.

Module SanitizeTwice.
Import GoUtf8 GoStrings Spec StringFacts Formatter Scenario SanitizeFacts.

(** *** Sanitizing twice *)

Lemma plain_isASCII s : forallb plainByte (bytes s) = true -> isASCII s = true.
Proof.
  unfold isASCII. induction (bytes s) as [|c l IH]; [done|]. cbn [forallb].
  intros [Hc Hl]%andb_prop. by rewrite (plain_ascii c Hc), IH.
Qed.

Lemma plain_not_key c : plainByte c = true -> tableLookup replacements c = String c "".
Proof. by_cases_on_byte c. Qed.

Lemma plain_kept c :
  plainByte c = true ->
  (if (0 <=? dropControl (byteZ c))%Z then EncodeRune (dropControl (byteZ c)) else "")
  = String c "".
Proof. by_cases_on_byte c. Qed.

Lemma plain_in s c : forallb plainByte (bytes s) = true -> In c (bytes s) -> plainByte c = true.
Proof. intros Hs Hc. eapply forallb_forall in Hs; eauto. Qed.

Lemma plain_isReSpace c : plainByte c = true -> isReSpace c = Ascii.eqb c " ".
Proof. by_cases_on_byte c. Qed.

Lemma collapse_twice b' b s :
  (b' = true -> b = true) ->
  collapseFrom b' (collapseFrom b s) = collapseFrom b s.
Proof.
  revert b' b. induction s as [|c s IH]; intros b' b Hb; [reflexivity|].
  cbn [collapseFrom]. destruct (isReSpace c) eqn:Hc.
  - destruct b.
    + by apply IH.
    + destruct b'; [by specialize (Hb eq_refl)|].
      cbn [collapseFrom]. change (isReSpace " ") with true. cbv iota.
      by rewrite IH.
  - cbn [collapseFrom]. rewrite Hc. by rewrite IH.
Qed.

(** On a text of plain bytes, trimming the white space in front of the
    collapsed text gives the text collapsed from inside a run. *)
Lemma trimLeft_collapse b s :
  forallb plainByte (bytes s) = true ->
  trimLeftFrom GoUnicode.IsSpace 0 (collapseFrom b s) = collapseFrom true s.
Proof.
  revert b. induction s as [|c s IH]; intros b; [reflexivity|].
  cbn [bytes list_ascii_of_string forallb]. intros [Hc Hs]%andb_prop.
  cbn [collapseFrom]. rewrite (plain_isReSpace c Hc).
  destruct (Ascii.eqb_spec c " ") as [->|Hne].
  - destruct b; [by apply IH|].
    cbn [trimLeftFrom DecodeRuneInString]. change (byteN " " <? RuneSelf)%N with true.
    cbv iota. change (GoUnicode.IsSpace (Z.of_N (byteN " "))) with true. cbv iota.
    cbn [Nat.sub]. by apply IH.
  - cbn [trimLeftFrom DecodeRuneInString]. rewrite (plain_ascii c Hc).
    rewrite (plain_isSpace c Hc). by destruct (Ascii.eqb_spec c " ").
Qed.

Lemma lastByte_None s : lastByte s = None -> s = "".
Proof.
  destruct s as [|x s]; [reflexivity|]. rewrite lastByte_cons. by destruct (lastByte s).
Qed.

Lemma plain_last s c :
  forallb plainByte (bytes s) = true -> lastByte s = Some c -> plainByte c = true.
Proof.
  intros Hs Hc. destruct (bytes_snoc_last s c Hc) as [front Hb].
  rewrite Hb, forallb_app in Hs. apply andb_prop in Hs as [_ Hs].
  cbn in Hs. by rewrite andb_true_r in Hs.
Qed.

Lemma TrimRightFunc_plain_keeps s :
  forallb plainByte (bytes s) = true -> lastByte s <> Some " "%char ->
  TrimRightFunc s GoUnicode.IsSpace = s.
Proof.
  intros Hs Hl. destruct (lastByte s) as [c|] eqn:Hc.
  - pose proof (plain_last s c Hs Hc) as Hpc.
    apply (TrimRightFunc_keeps s c); [exact Hc | by apply plain_ascii|].
    rewrite (plain_isSpace c Hpc). destruct (Ascii.eqb_spec c " "); congruence.
  - by rewrite (lastByte_None s Hc).
Qed.

Lemma TrimRight_keeps s cutset :
  (forall c, lastByte s = Some c -> inCutset cutset c = false) ->
  TrimRight s cutset = s.
Proof.
  intros Hl. unfold TrimRight. unfold lastByte in Hl.
  rewrite <- (ofBytes_bytes s) at 2. f_equal.
  rewrite <- (rev_involutive (bytes s)) at 2. f_equal.
  rewrite <- (rev_involutive (bytes s)), last_rev_head in Hl.
  destruct (rev (bytes s)) as [|c l]; [reflexivity|].
  cbn [dropWhileL]. by rewrite (Hl c eq_refl).
Qed.

(** The shape of the result for an ASCII name. *)
Lemma sanitizeFilename_ascii_collapsed name :
  isASCII name = true ->
  exists s3, forallb plainByte (bytes s3) = true
    /\ sanitizeFilename name = collapseFrom true s3.
Proof.
  intros Hascii. unfold sanitizeFilename, sanitizeFilenameIn.
  pose proof (scrubbed_plain name Hascii) as H2.
  set (s2 := Map dropControl _) in *.
  pose proof (TrimRight_plain s2 " ." H2) as H3.
  pose proof (TrimRight_last s2 " .") as L3.
  set (s3 := TrimRight s2 " .") in *.
  exists s3. split; [exact H3|].
  unfold TrimSpace, TrimLeftFunc, collapseSpaces. rewrite trimLeft_collapse by exact H3.
  apply TrimRightFunc_plain_keeps; [by apply collapse_plain|].
  destruct (lastByte s3) as [c|] eqn:Hc.
  - rewrite (collapse_last true s3 c Hc).
    + intros [= ->]. by specialize (L3 _ eq_refl).
    + apply plain_not_reSpace; [by eapply plain_last|].
      intros ->. by specialize (L3 _ eq_refl).
  - by rewrite (lastByte_None s3 Hc).
Qed.

(** X7. For a name of ASCII bytes only, sanitizing the result again
    changes nothing. *)
Theorem sanitizeFilename_idempotent_ascii (name : string) :
  isASCII name = true ->
  sanitizeFilename (sanitizeFilename name) = sanitizeFilename name.
Proof.
  intros Hascii.
  destruct (sanitizeFilename_ascii name Hascii) as (Hplain & _ & Hsp & Hdot).
  destruct (sanitizeFilename_ascii_collapsed name Hascii) as (s3 & H3 & Hform).
  remember (sanitizeFilename name) as out eqn:Hout. clear Hout.
  unfold sanitizeFilename, sanitizeFilenameIn.
  rewrite replacements_bytewise by apply replacements_bytewiseTable.
  rewrite (substBytes_id_on _ out)
    by (intros c Hc; apply plain_not_key, (plain_in out); assumption).
  unfold Map. rewrite mapFrom_ascii by (apply plain_isASCII; exact Hplain).
  rewrite (substBytes_id_on _ out)
    by (intros c Hc; apply plain_kept, (plain_in out); assumption).
  rewrite TrimRight_keeps.
  2:{ intros c Hc. pose proof (plain_last out c Hplain Hc) as Hpc.
      unfold inCutset. cbn.
      destruct (Ascii.eqb_spec c " ") as [->|_]; [congruence|].
      destruct (Ascii.eqb_spec c ".") as [->|_]; [congruence | reflexivity]. }
  unfold collapseSpaces. rewrite Hform, collapse_twice by done.
  unfold TrimSpace, TrimLeftFunc. rewrite trimLeft_collapse by exact H3.
  rewrite <- Hform. apply TrimRightFunc_plain_keeps; assumption.
Qed.

Lemma sanitizeFilename_idempotent_ascii_witness :
  sanitizeFilename (sanitizeFilename "  What If...?  ") = sanitizeFilename "  What If...?  ".
Proof. apply sanitizeFilename_idempotent_ascii. reflexivity. Defined.

(** Without the restriction to ASCII the result need not be stable. *)
Example sanitizeFilename_twice_dotNbsp :
  sanitizeFilename dotNbsp = "a." /\ sanitizeFilename (sanitizeFilename dotNbsp) = "a".
Proof. vm_compute. split; reflexivity. Qed.

(** *** The order of the replacements, and the last byte *)

(** X8. Go ranges over the replacement map in an unspecified order; the
    result of sanitizeFilename is the same for every order. *)
Theorem sanitizeFilename_map_order_irrelevant (order : list (string * string))
        (name : string) :
  Permutation order replacements ->
  sanitizeFilenameIn order name = sanitizeFilename name.
Proof. apply sanitizeFilename_any_order. Qed.

Lemma sanitizeFilename_map_order_irrelevant_witness :
  sanitizeFilenameIn (rev replacements) "AC/DC: Live?" = sanitizeFilename "AC/DC: Live?".
Proof.
  apply (sanitizeFilename_map_order_irrelevant (rev replacements) "AC/DC: Live?").
  apply Permutation_sym, Permutation_rev.
Defined.

(** X9. For a name of ASCII bytes only, the result of sanitizeFilename
    does not end in a period (nor in a space). *)
Theorem sanitizeFilename_ascii_no_trailing_period (name : string) :
  isASCII name = true ->
  lastByte (sanitizeFilename name) <> Some "."%char
  /\ lastByte (sanitizeFilename name) <> Some " "%char.
Proof.
  intros Hascii. destruct (sanitizeFilename_ascii name Hascii) as (_ & _ & Hs & Hp).
  by split.
Qed.

Lemma sanitizeFilename_ascii_no_trailing_period_witness :
  lastByte (sanitizeFilename "Mr. Robot . . ") <> Some "."%char
  /\ lastByte (sanitizeFilename "Mr. Robot . . ") <> Some " "%char.
Proof.
  apply (sanitizeFilename_ascii_no_trailing_period "Mr. Robot . . "). reflexivity.
Defined.

End SanitizeTwice.

Module FrameFacts.
Import GoOs Operations ExecSpec FrameSpec Scenario Interactive ExecutorFacts.

(** *** What a call may change *)

Lemma changedWithin_refl names w : changedWithin names w w.
Proof. split; [reflexivity | set_solver]. Qed.

Lemma changedWithin_trans names w1 w2 w3 :
  changedWithin names w1 w2 -> changedWithin names w2 w3 -> changedWithin names w1 w3.
Proof.
  intros [Hf1 Hd1] [Hf2 Hd2]. split; [|set_solver].
  intros p Hp. by rewrite Hf2, Hf1.
Qed.

Lemma changedWithin_weaken names names' w w' :
  names ⊆ names' -> changedWithin names w w' -> changedWithin names' w w'.
Proof. intros Hsub [Hf Hd]. split; [|exact Hd]. intros p Hp. apply Hf. set_solver. Qed.

Lemma changedWithin_logged names c w : changedWithin names w (logged c w).
Proof. split; [reflexivity | set_solver]. Qed.

Ltac not_named :=
  repeat (apply not_elem_of_cons; split; [first [congruence | done]|]);
  apply not_elem_of_nil.

Lemma changedWithin_lookup names w w' p :
  changedWithin names w w' -> p ∉ names -> files w' !! p = files w !! p.
Proof. intros [Hf _]. apply Hf. Qed.

Lemma sameDisk_changedWithin names w w' : sameDisk w w' -> changedWithin names w w'.
Proof. intros [Hf Hd]. split; [intros; by rewrite Hf | by rewrite Hd]. Qed.

Lemma Open_changes env name w o w' :
  Open env name w = (o, w') ->
  sameDisk w w'
  /\ exists r, o = Done r /\ forall h, r = Ok h -> h = name /\ present w name = true.
Proof.
  unfold Open, present.
  change (lookupInfo (logged (SysOpen name) w) name) with (lookupInfo w name).
  destruct (lookupInfo w name) as [i|e]; [destruct (openFault env name)|];
    intros [= <- <-]; (split; [by split|]); eexists; (split; [reflexivity|]);
    intros h Hh; simplify_eq; done.
Qed.

Lemma Create_changes env name w o w' :
  Create env name w = (o, w') ->
  changedWithin [name] w w' /\ dirs w' = dirs w
  /\ exists r, o = Done r
      /\ match r with
         | Ok h => h = name /\ is_Some (files w' !! name)
         | Err _ => files w' = files w
         end.
Proof.
  unfold Create. cbn [files dirs logged].
  destruct (createFault env name); [|destruct (decide (name ∈ dirs w))];
    intros [= <- <-]; (split; [|split; [reflexivity|]; eexists; split; [reflexivity|]]);
    try apply changedWithin_logged; try reflexivity.
  - split; [|set_solver]. intros p Hp. cbn. apply lookup_insert_ne. set_solver.
  - split; [reflexivity|]. cbn. rewrite lookup_insert_eq. by eexists.
Qed.

Lemma Copy_changes env dst src w o w' :
  Copy env dst src w = (o, w') ->
  changedWithin [dst] w w' /\ dirs w' = dirs w
  /\ (is_Some (files w !! dst) -> is_Some (files w' !! dst))
  /\ exists r, o = Done r
      /\ forall n, r = Ok n ->
           exists f, files w !! src = Some f
             /\ forall g, files w !! dst = Some g ->
                  files w' !! dst
                  = Some {| data := copyWrites env src dst (data f); mode := mode g |}.
Proof.
  unfold Copy. cbn [files dirs logged].
  destruct (files w !! src) as [f|] eqn:Hsrc.
  2:{ intros [= <- <-]. split; [apply changedWithin_logged|]. split; [done|].
      split; [done|]. eexists. split; [reflexivity|]. intros n [=]. }
  destruct (files w !! dst) as [g|] eqn:Hdst.
  - assert (Hch : changedWithin [dst] w
             (setFiles (<[dst := {| data := copyWrites env src dst (data f);
                                    mode := mode g |}]> (files (logged (SysCopy dst src) w)))
                       (logged (SysCopy dst src) w))).
    { split; [|set_solver]. intros p Hp. cbn. apply lookup_insert_ne. set_solver. }
    destruct (copyFault env src dst); intros [= <- <-]; (split; [exact Hch|]);
      (split; [reflexivity|]);
      (split; [intros _; cbn; rewrite lookup_insert_eq; by eexists|]);
      (eexists; split; [reflexivity|]).
    + intros n [=].
    + intros n _. exists f. split; [reflexivity|]. intros g' [= <-]. cbn.
      by rewrite lookup_insert_eq.
  - destruct (copyFault env src dst); intros [= <- <-];
      (split; [apply changedWithin_logged|]); (split; [reflexivity|]);
      (split; [by intros [? ?]|]); (eexists; split; [reflexivity|]).
    + intros n [=].
    + intros n _. exists f. split; [reflexivity|]. intros g' [=].
Qed.

Lemma Remove_changes env name w o w' :
  Remove env name w = (o, w') ->
  (forall p, p <> name -> files w' !! p = files w !! p)
  /\ (is_Some (files w !! name) -> dirs w' = dirs w)
  /\ (removeFault env name = None -> files w' !! name = None)
  /\ (files w' !! name = files w !! name \/ files w' !! name = None)
  /\ exists r, o = Done r
      /\ (removeFault env name = None -> is_Some (files w !! name) -> r = Ok tt)
      /\ (forall e, removeFault env name = Some e -> r = Err e /\ sameDisk w w').
Proof.
  unfold Remove. cbn [files dirs logged].
  destruct (removeFault env name) as [e|].
  { intros [= <- <-]. cbn. repeat split; auto; try done.
    eexists. split; [reflexivity|]. split; [done|]. intros e' [= <-]. by repeat split. }
  destruct (files w !! name) as [f|] eqn:Hf.
  { intros [= <- <-]. cbn. repeat split.
    - intros p Hp. by apply lookup_delete_ne.
    - intros _. apply lookup_delete_eq.
    - right. apply lookup_delete_eq.
    - eexists. split; [reflexivity|]. split; [done|]. intros e' [=]. }
  destruct (decide (name ∈ dirs w)); intros [= <- <-]; cbn; repeat split; auto;
    try (by intros [? ?]);
    (eexists; split; [reflexivity|]); (split; [by intros _ [? ?]|]); intros e' [=].
Qed.

Lemma Chmod_changes env name perm w o w' :
  Chmod env name perm w = (o, w') ->
  changedWithin [name] w w' /\ dirs w' = dirs w
  /\ (exists r, o = Done r)
  /\ (forall f, files w !! name = Some f ->
        exists g, files w' !! name = Some g /\ data g = data f
          /\ (chmodFault env name = None -> mode g = perm)).
Proof.
  unfold Chmod. cbn [files dirs logged].
  destruct (chmodFault env name).
  { intros [= <- <-]. split; [apply changedWithin_logged|]. split; [reflexivity|].
    split; [by eexists|]. intros f Hf. exists f.
    cbn. repeat split; [exact Hf | done]. }
  destruct (files w !! name) as [f|] eqn:Hf; intros [= <- <-].
  - split; [|split; [reflexivity|]; split; [by eexists|]].
    + split; [|set_solver]. intros p Hp. cbn. apply lookup_insert_ne. set_solver.
    + intros f' [= <-]. eexists. cbn. rewrite lookup_insert_eq. by repeat split.
  - split; [apply changedWithin_logged|]. split; [reflexivity|]. split; [by eexists|].
    intros f' [=].
Qed.

Lemma MkdirAll_changes env path perm w o w' :
  MkdirAll env path perm w = (o, w') ->
  files w' = files w /\ dirs w ⊆ dirs w'
  /\ exists r, o = Done r /\ ((exists e, r = Err e) -> dirs w' = dirs w).
Proof.
  unfold MkdirAll. cbn [files dirs logged].
  destruct (mkdirFault env path); [|destruct (existsb _ _)]; intros [= <- <-]; cbn;
    (split; [reflexivity|]); (split; [set_solver|]);
    (eexists; split; [reflexivity|]); try done.
  by intros [? ?].
Qed.

Lemma Rename_changes env old new w o w' :
  Rename env old new w = (o, w') ->
  changedWithin [old; new] w w' /\ dirs w' = dirs w /\ exists r, o = Done r.
Proof.
  unfold Rename. cbn [files dirs logged].
  destruct (files w !! old); [destruct (renameFault env old new);
    [|destruct (decide (new ∈ dirs w))]|]; intros [= <- <-];
    (split; [|split; [reflexivity | by eexists]]); try apply changedWithin_logged.
  split; [|set_solver]. intros p Hp. cbn.
  rewrite lookup_insert_ne by set_solver. apply lookup_delete_ne. set_solver.
Qed.

(** *** copyFile *)

Lemma copyFile_spec env src dst w o w' :
  copyFile env src dst w = (o, w') ->
  changedWithin [dst] w w' /\ dirs w' = dirs w
  /\ exists r, o = Done r
     /\ match r with
        | None =>
          present w src = true
          /\ is_Some (files w' !! src) /\ is_Some (files w' !! dst)
          /\ (src <> dst -> forall f, files w !! src = Some f ->
                exists g, files w' !! dst = Some g
                  /\ data g = copyWrites env src dst (data f)
                  /\ (chmodFault env dst = None -> mode g = mode f))
        | Some (ErrOpenSource _) | Some (ErrCreateDest _) => sameDisk w w'
        | Some (ErrCopy _) => removeFault env dst = None -> files w' !! dst = None
        | Some _ => False
        end.
Proof.
  unfold copyFile. unfold bind at 1.
  destruct (Open env src w) as [o1 w1] eqn:H1.
  apply Open_changes in H1 as ([F1 D1] & r1 & -> & Hr1).
  destruct r1 as [h|e].
  2:{ intros [= <- <-]. split; [by apply sameDisk_changedWithin|]. split; [exact D1|].
      eexists. split; [reflexivity|]. by split. }
  destruct (Hr1 h eq_refl) as [-> Hpres]. cbn beta iota. unfold bind at 1.
  destruct (Create env dst w1) as [o2 w2] eqn:H2.
  apply Create_changes in H2 as (C2 & D2 & r2 & -> & Hr2).
  assert (C12 : changedWithin [dst] w w2).
  { eapply changedWithin_trans; [by apply sameDisk_changedWithin|exact C2]. }
  destruct r2 as [h|e].
  2:{ intros [= <- <-]. split; [exact C12|]. split; [congruence|].
      eexists. split; [reflexivity|]. split; congruence. }
  destruct Hr2 as [-> Hsome2]. cbn beta iota. unfold bind at 1.
  destruct (Copy env dst src w2) as [o3 w3] eqn:H3.
  apply Copy_changes in H3 as (C3 & D3 & S3 & r3 & -> & Hr3).
  assert (C13 : changedWithin [dst] w w3) by (eapply changedWithin_trans; eauto).
  destruct r3 as [n|e]; cbn beta iota.
  - (* io.Copy returned nil *)
    unfold bind at 1. destruct (Stat src w3) as [o4 w4] eqn:H4.
    unfold Stat in H4. injection H4 as <- <-.
    unfold bind at 1. cbn beta iota.
    change (lookupInfo (logged (SysStat src) w3) src) with (lookupInfo w3 src).
    set (w4 := logged (SysStat src) w3).
    assert (C14 : changedWithin [dst] w w4).
    { eapply changedWithin_trans; [exact C13 | apply changedWithin_logged]. }
    destruct (Hr3 n eq_refl) as (f2 & Hf2 & Hwritten).
    destruct Hsome2 as [g2 Hg2]. specialize (Hwritten g2 Hg2).
    assert (Hsrc3 : is_Some (files w3 !! src)).
    { destruct (decide (src = dst)) as [->|Hne]; [by eexists|].
      rewrite (changedWithin_lookup _ _ _ _ C3) by not_named. by eexists. }
    destruct (lookupInfo w3 src) as [info|e] eqn:Hinfo.
    + destruct (Chmod env dst (GoOs.Mode info) w4) as [o5 w5] eqn:H5.
      apply Chmod_changes in H5 as (C5 & D5 & [r5 ->] & Hmode).
      cbn. intros [= <- <-].
      split; [eapply changedWithin_trans; eauto|]. split; [cbn in *; congruence|].
      eexists. split; [reflexivity|]. split; [exact Hpres|].
      destruct (Hmode _ Hwritten) as (g & Hg & Hdata & Hperm).
      split.
      { destruct (decide (src = dst)) as [->|Hne]; [by eexists|].
        rewrite (changedWithin_lookup _ _ _ _ C5) by not_named. exact Hsrc3. }
      split; [by eexists|].
      intros Hne f Hf.
      assert (f2 = f) as ->.
      { rewrite (changedWithin_lookup _ _ _ _ C2), F1, Hf in Hf2 by not_named.
        congruence. }
      exists g. split; [exact Hg|]. split; [exact Hdata|].
      intros Hok. rewrite (Hperm Hok).
      unfold lookupInfo in Hinfo.
      rewrite (changedWithin_lookup _ _ _ _ C13), Hf in Hinfo by not_named.
      by injection Hinfo as <-.
    + cbn. intros [= <- <-]. split; [exact C14|]. split; [cbn in *; congruence|].
      eexists. split; [reflexivity|]. split; [exact Hpres|].
      split; [exact Hsrc3|]. split; [by eexists|].
      intros Hne f Hf. exfalso.
      unfold lookupInfo in Hinfo.
      rewrite (changedWithin_lookup _ _ _ _ C13), Hf in Hinfo by not_named.
      discriminate Hinfo.
  - (* io.Copy failed: the partial file is removed *)
    unfold bind at 1. destruct (Remove env dst w3) as [o4 w4] eqn:H4.
    apply Remove_changes in H4 as (F4 & D4 & Hgone & _ & r4 & -> & _).
    cbn. intros [= <- <-].
    assert (Hd : dirs w4 = dirs w3) by (apply D4, S3, Hsome2).
    split.
    { eapply changedWithin_trans; [exact C13|]. split; [|by rewrite Hd].
      intros p Hp. apply F4. intros ->. apply Hp. by left. }
    split; [congruence|]. eexists. split; [reflexivity|]. exact Hgone.
Qed.


(** *** moveFile *)

Lemma moveFile_changes env src dst w o w' :
  moveFile env src dst w = (o, w') ->
  changedWithin [src; dst] w w'
  /\ exists r, o = Done r /\ forall e, r = Some e -> copyError e \/ moveError e.
Proof.
  unfold moveFile. unfold bind at 1.
  destruct (Rename env src dst w) as [o0 w0] eqn:H0.
  apply Rename_changes in H0 as (C0 & D0 & r0 & ->).
  destruct r0 as [[]|e0];
    [intros [= <- <-]; split; [exact C0 | eexists; split; [reflexivity | done]]|].
  cbn beta iota. unfold bind at 1.
  destruct (copyFile env src dst w0) as [o1 w1] eqn:H1.
  apply copyFile_spec in H1 as (C1 & D1 & r1 & -> & Hr1).
  assert (C01 : changedWithin [src; dst] w w1).
  { eapply changedWithin_trans; [exact C0|].
    eapply changedWithin_weaken; [|exact C1]. intros p Hp. by right. }
  destruct r1 as [err|].
  { intros [= <- <-]. split; [exact C01|]. eexists. split; [reflexivity|].
    intros e [= <-]. left. by destruct err. }
  destruct Hr1 as (_ & [f Hf] & [g Hg] & _).
  cbn beta iota. unfold bind at 1. unfold Stat at 1. cbn beta iota.
  unfold bind at 1. unfold Stat at 1. cbn beta iota.
  unfold lookupInfo. cbn [files logged]. rewrite Hf, Hg.
  set (w3 := logged _ (logged _ w1)).
  assert (C03 : changedWithin [src; dst] w w3).
  { eapply changedWithin_trans; [exact C01|]. subst w3.
    eapply changedWithin_trans; apply changedWithin_logged. }
  destruct (negb _).
  - unfold bind at 1. destruct (Remove env dst w3) as [o4 w4] eqn:H4.
    apply Remove_changes in H4 as (F4 & D4 & _ & _ & r4 & -> & _).
    cbn. intros [= <- <-]. split; [|eexists; split; [reflexivity|]; intros e [= <-]; by right].
    eapply changedWithin_trans; [exact C03|]. split.
    + intros p Hp. apply F4. intros ->. apply Hp. right. by left.
    + rewrite D4; [done|]. subst w3. cbn. by eexists.
  - unfold bind at 1. destruct (Remove env src w3) as [o4 w4] eqn:H4.
    apply Remove_changes in H4 as (F4 & D4 & _ & _ & r4 & -> & _).
    assert (C04 : changedWithin [src; dst] w w4).
    { eapply changedWithin_trans; [exact C03|]. split.
      + intros p Hp. apply F4. intros ->. apply Hp. by left.
      + rewrite D4; [done|]. subst w3. cbn. by eexists. }
    destruct r4; cbn; intros [= <- <-]; (split; [exact C04|]);
      (eexists; split; [reflexivity|]); intros e' [=]; subst; by right.
Qed.

(** *** Execute *)

Lemma Execute_changes env op dryRun w o w' :
  Execute env op dryRun w = (o, w') ->
  changedWithin [Source op; Destination op] w w'
  /\ exists r, o = Done r /\ wellFormed op r.
Proof.
  unfold Execute, wellFormed.
  destruct dryRun.
  { intros [= <- <-]. split; [apply changedWithin_refl|].
    eexists. split; [reflexivity|]. cbn. by repeat split. }
  unfold bind at 1. unfold Stat at 1. cbn beta iota.
  destruct (match lookupInfo _ (Source op) with Err e => IsNotExist e | Ok _ => false end).
  { intros [= <- <-]. split; [apply changedWithin_logged|].
    eexists. split; [reflexivity|]. cbn. by repeat split. }
  unfold bind at 1. unfold Stat at 1. cbn beta iota.
  set (w2 := logged _ (logged _ w)).
  assert (C2 : changedWithin [Source op; Destination op] w w2).
  { subst w2. eapply changedWithin_trans; apply changedWithin_logged. }
  destruct (lookupInfo w2 (Destination op)).
  { intros [= <- <-]. split; [exact C2|].
    eexists. split; [reflexivity|]. cbn. by repeat split. }
  unfold bind at 1.
  destruct (MkdirAll env _ _ w2) as [o3 w3] eqn:H3.
  apply MkdirAll_changes in H3 as (F3 & D3 & r3 & -> & _).
  assert (C3 : changedWithin [Source op; Destination op] w w3).
  { eapply changedWithin_trans; [exact C2|]. split; [intros; by rewrite F3 | exact D3]. }
  destruct r3 as [[]|e3].
  2:{ intros [= <- <-]. split; [exact C3|].
      eexists. split; [reflexivity|]. cbn. by repeat split. }
  cbn beta iota. unfold bind at 1.
  destruct (String.eqb (Mode op) ModeCopy).
  { destruct (copyFile env _ _ w3) as [o4 w4] eqn:H4.
    apply copyFile_spec in H4 as (C4 & _ & r4 & -> & _).
    assert (C : changedWithin [Source op; Destination op] w w4).
    { eapply changedWithin_trans; [exact C3|].
      eapply changedWithin_weaken; [|exact C4]. intros p Hp. by right. }
    destruct r4; intros [= <- <-]; (split; [exact C|]);
      (eexists; split; [reflexivity|]); cbn; by repeat split. }
  destruct (String.eqb (Mode op) ModeMove).
  { destruct (moveFile env _ _ w3) as [o4 w4] eqn:H4.
    apply moveFile_changes in H4 as (C4 & r4 & -> & _).
    assert (C : changedWithin [Source op; Destination op] w w4).
    { eapply changedWithin_trans; [exact C3 | exact C4]. }
    destruct r4; intros [= <- <-]; (split; [exact C|]);
      (eexists; split; [reflexivity|]); cbn; by repeat split. }
  intros [= <- <-]. split; [exact C3|].
  eexists. split; [reflexivity|]. cbn. by repeat split.
Qed.




(** *** The batch and its report *)

Lemma BatchExecute_wellFormed env ops dryRun w o w' :
  BatchExecute env ops dryRun w = (o, w') ->
  exists rs, o = Done rs /\ Forall2 wellFormed ops rs.
Proof.
  revert w o w'. induction ops as [|op ops IH]; intros w o w'.
  { intros [= <- <-]. by exists []. }
  cbn [BatchExecute]. unfold bind at 1.
  destruct (Execute env op dryRun w) as [o1 w1] eqn:H1.
  apply Execute_changes in H1 as (_ & r & -> & Hr).
  unfold bind at 1. destruct (BatchExecute env ops dryRun w1) as [o2 w2] eqn:H2.
  apply IH in H2 as (rs & -> & Hrs). intros [= <- <-].
  exists (r :: rs). split; [reflexivity | by constructor].
Qed.

Lemma countResult_total box r :
  (Error r = None -> Success r = true) ->
  succeeded (countResult box r) + skipped (countResult box r) + failed (countResult box r)
  = S (succeeded box + skipped box + failed box).
Proof.
  intros Hr. unfold countResult. destruct (Error r) as [e|]; cbn; [lia|].
  rewrite (Hr eq_refl). destruct (Skipped r); cbn; lia.
Qed.

Lemma ShowResults_total rs box :
  Forall (fun r => Error r = None -> Success r = true) rs ->
  let box' := fold_left countResult rs box in
  succeeded box' + skipped box' + failed box'
  = succeeded box + skipped box + failed box + List.length rs
  /\ failed box' = failed box + List.length (filter (fun r => is_Some (Error r)) rs)
  /\ failures box'
     = (failures box ++ filter (fun r => is_Some (Error r)) rs)%list.
Proof.
  intros Hrs. revert box. induction Hrs as [|r rs Hr _ IH]; intros box; cbn zeta.
  { cbn. rewrite app_nil_r. repeat split; lia. }
  specialize (IH (countResult box r)). cbn zeta in IH. cbn [fold_left].
  destruct IH as (IH1 & IH2 & IH3). rewrite IH1, IH2, IH3.
  rewrite (countResult_total box r Hr).
  unfold countResult. destruct (Error r) as [e|] eqn:He.
  - rewrite filter_cons_True by (rewrite He; by eexists).
    cbn. rewrite <- app_assoc. cbn. repeat split; lia.
  - rewrite filter_cons_False by (rewrite He; by intros [? ?]).
    rewrite (Hr eq_refl). destruct (Skipped r); cbn; repeat split; lia.
Qed.

(** X11. BatchExecute returns one result per operation, in order, and
    ShowResults counts each of them exactly once: succeeded, skipped and
    failed add up to the number of operations, and the failures listed are
    exactly the results that carry an error. *)
Theorem ShowResults_counts_every_operation env ops dryRun w :
  exists rs w', BatchExecute env ops dryRun w = (Done rs, w')
    /\ map Op rs = ops
    /\ let box := ShowResults rs in
       succeeded box + skipped box + failed box = List.length ops
       /\ failed box = List.length (failures box)
       /\ failures box = filter (fun r => is_Some (Error r)) rs.
Proof.
  destruct (BatchExecute env ops dryRun w) as [o w'] eqn:Hrun.
  apply BatchExecute_wellFormed in Hrun as (rs & -> & Hrs).
  exists rs, w'. split; [reflexivity|].
  assert (Hops : map Op rs = ops).
  { induction Hrs as [|op r ops rs [Hop _] _ IH]; [reflexivity|]. cbn. by rewrite Hop, IH. }
  split; [exact Hops|].
  assert (Hshape : Forall (fun r => Error r = None -> Success r = true) rs).
  { clear Hops. induction Hrs as [|op r ops rs (_ & Hiff & _) _ IH]; constructor; auto.
    apply Hiff. }
  destruct (ShowResults_total rs
              {| succeeded := 0; skipped := 0; failed := 0; failures := [] |} Hshape)
    as (H1 & H2 & H3).
  cbn in H1, H2, H3. unfold ShowResults. cbn zeta.
  rewrite H1, H2, H3, <- Hops, length_map. repeat split.
Qed.


(** *** The errors of copyFile *)

(** X12. copyFile always returns and changes no file but the
    destination.  If it returns no error (source and destination being
    different paths), the destination holds what io.Copy wrote, with the
    mode of the source when Chmod succeeded; if
    the source cannot be opened or the destination not created, no file
    changed; if the transfer failed, the partial destination is removed
    (unless the removal itself fails).  It returns no other error. *)
Theorem copyFile_cleans_up env src dst w :
  exists r w', copyFile env src dst w = (Done r, w')
    /\ (forall p, p <> dst -> files w' !! p = files w !! p)
    /\ dirs w' = dirs w
    /\ match r with
       | None =>
         src <> dst -> forall f, files w !! src = Some f ->
           exists g, files w' !! dst = Some g
             /\ data g = copyWrites env src dst (data f)
             /\ (chmodFault env dst = None -> mode g = mode f)
       | Some (ErrOpenSource _) | Some (ErrCreateDest _) => files w' = files w
       | Some (ErrCopy _) => removeFault env dst = None -> files w' !! dst = None
       | Some _ => False
       end.
Proof.
  destruct (copyFile env src dst w) as [o w'] eqn:Hrun.
  apply copyFile_spec in Hrun as ([Hf _] & Hd & r & -> & Hr).
  exists r, w'. split; [reflexivity|].
  split; [intros p Hp; apply Hf; not_named|]. split; [exact Hd|].
  destruct r as [[]|]; try done; try apply Hr.
Qed.

(** *** The checks of Execute *)

(** X13. A live Execute whose source does not exist stops after the
    first Stat: it reports the source-missing error without success and
    without skip, and nothing but that call happened.  Conversely the
    source-missing error is only ever reported for the operation's own
    source, and only when it does not exist. *)
Theorem Execute_missing_source env op w :
  (present w (Source op) = false ->
   exists r, Execute env op false w = (Done r, logged (SysStat (Source op)) w)
     /\ Error r = Some (ErrSourceMissing (Source op))
     /\ Success r = false /\ Skipped r = false)
  /\ (forall r w' src, Execute env op false w = (Done r, w') ->
        Error r = Some (ErrSourceMissing src) ->
        src = Source op /\ present w (Source op) = false).
Proof.
  assert (Hstat : forall e, lookupInfo w (Source op) = Err e -> e = ENOENT).
  { intros e. unfold lookupInfo. repeat case_match; congruence. }
  split.
  - unfold present. intros Hsrc. unfold Execute.
    unfold bind at 1. unfold Stat at 1. cbn beta iota.
    change (lookupInfo (logged (SysStat (Source op)) w) (Source op))
      with (lookupInfo w (Source op)).
    destruct (lookupInfo w (Source op)) as [i|e] eqn:Hinfo; [discriminate|].
    rewrite (Hstat e eq_refl). cbn.
    eexists. split; [reflexivity|]. by repeat split.
  - intros r w' src. unfold Execute, present.
    unfold bind at 1. unfold Stat at 1. cbn beta iota.
    change (lookupInfo (logged (SysStat (Source op)) w) (Source op))
      with (lookupInfo w (Source op)).
    destruct (lookupInfo w (Source op)) as [i|e] eqn:Hinfo.
    2:{ rewrite (Hstat e eq_refl). cbn. intros [= <- <-] [= <-]. by split. }
    cbn beta iota. unfold bind at 1. unfold Stat at 1. cbn beta iota.
    destruct (lookupInfo (logged _ (logged _ w)) (Destination op));
      [intros [= <- <-]; discriminate|].
    unfold bind at 1. destruct (MkdirAll env _ _ _) as [o3 w3] eqn:H3.
    apply MkdirAll_changes in H3 as (_ & _ & r3 & -> & _).
    destruct r3 as [[]|e3]; [|intros [= <- <-]; discriminate].
    cbn beta iota. unfold bind at 1.
    destruct (String.eqb (Mode op) ModeCopy).
    { destruct (copyFile env _ _ w3) as [o4 w4] eqn:H4.
      apply copyFile_spec in H4 as (_ & _ & r4 & -> & Hr4).
      destruct r4 as [err|]; intros [= <- <-]; cbn; [|discriminate].
      intros [= ->]. destruct Hr4. }
    destruct (String.eqb (Mode op) ModeMove).
    { destruct (moveFile env _ _ w3) as [o4 w4] eqn:H4.
      apply moveFile_changes in H4 as (_ & r4 & -> & Hr4).
      destruct r4 as [err|]; intros [= <- <-]; cbn; [|discriminate].
      intros [= ->]. by destruct (Hr4 _ eq_refl). }
    intros [= <- <-]. discriminate.
Qed.

(** X14. A live Execute of an operation whose mode is neither copy nor
    move (the comparison is exact, so also Copy with a capital), with the
    source present, the destination absent and nothing in the way of
    making its directory, fails with the unknown-mode error and changes no
    file; but the destination directory has been created by then. *)
Theorem Execute_unknown_mode env op w :
  Mode op <> ModeCopy -> Mode op <> ModeMove ->
  present w (Source op) = true -> reachesTransfer env w op ->
  exists r w', Execute env op false w = (Done r, w')
    /\ Error r = Some (ErrUnknownMode (Mode op)) /\ Success r = false
    /\ files w' = files w
    /\ dirs w' = list_to_set (mkdirChain (GoFilepath.Dir (Destination op))) ∪ dirs w.
Proof.
  intros Hcopy Hmove Hsrc [Habsent Hmk Hclear _].
  unfold Execute, present in *. unfold bind at 1. unfold Stat at 1. cbn beta iota.
  change (lookupInfo (logged (SysStat (Source op)) w) (Source op))
    with (lookupInfo w (Source op)).
  destruct (lookupInfo w (Source op)); [|discriminate]. cbn beta iota.
  unfold bind at 1. unfold Stat at 1. cbn beta iota.
  change (lookupInfo (logged (SysStat (Destination op)) (logged (SysStat (Source op)) w))
                     (Destination op))
    with (lookupInfo w (Destination op)).
  destruct (lookupInfo w (Destination op)); [discriminate|].
  unfold bind at 1. rewrite MkdirAll_ok by done. cbn beta iota.
  destruct (String.eqb_spec (Mode op) ModeCopy) as [|_]; [done|].
  destruct (String.eqb_spec (Mode op) ModeMove) as [|_]; [done|].
  eexists _, _. split; [reflexivity|]. cbn. by repeat split.
Qed.

Lemma Execute_unknown_mode_witness :
  exists r w',
    Execute quiet {| Source := "/src/a.mkv"; Destination := "/out/a.mkv"; Mode := "Copy" |}
            false disk = (Done r, w')
    /\ Error r = Some (ErrUnknownMode "Copy") /\ Success r = false
    /\ files w' = files disk
    /\ dirs w' = list_to_set (mkdirChain "/out") ∪ dirs disk.
Proof.
  apply (Execute_unknown_mode quiet
           {| Source := "/src/a.mkv"; Destination := "/out/a.mkv"; Mode := "Copy" |} disk).
  - discriminate.
  - discriminate.
  - reflexivity.
  - constructor; cbn; [reflexivity | reflexivity | | ].
    + repeat constructor.
    + apply (bool_decide_unpack _). vm_compute. exact I.
Defined.

(** *** A copy is not verified *)

(** X15. A copy is not verified: when a live Execute in mode copy
    reports success, the source is as before and the destination holds
    whatever io.Copy wrote, which need not be the bytes of the source
    (moveFile compares the sizes, the copy mode does not). *)
Theorem Execute_copy_not_verified env op w f r w' :
  Mode op = ModeCopy -> files w !! Source op = Some f ->
  Execute env op false w = (Done r, w') ->
  Success r = true -> Skipped r = false ->
  files w' !! Source op = Some f
  /\ exists g, files w' !! Destination op = Some g
       /\ data g = copyWrites env (Source op) (Destination op) (data f).
Proof.
  intros Hmode Hsrc. unfold Execute.
  unfold bind at 1. unfold Stat at 1. cbn beta iota.
  unfold lookupInfo at 1. cbn [files logged]. rewrite Hsrc. cbn beta iota.
  unfold bind at 1. unfold Stat at 1. cbn beta iota.
  change (lookupInfo (logged (SysStat (Destination op)) (logged (SysStat (Source op)) w))
                     (Destination op))
    with (lookupInfo w (Destination op)).
  destruct (lookupInfo w (Destination op)) eqn:Hdst; [intros [= <- <-]; discriminate|].
  assert (Hne : Source op <> Destination op).
  { intros Heq. unfold lookupInfo in Hdst. rewrite <- Heq, Hsrc in Hdst. discriminate. }
  unfold bind at 1. destruct (MkdirAll env _ _ _) as [o3 w3] eqn:H3.
  apply MkdirAll_changes in H3 as (F3 & _ & r3 & -> & _).
  destruct r3 as [[]|e3]; [|intros [= <- <-]; discriminate].
  cbn beta iota. unfold bind at 1.
  destruct (String.eqb_spec (Mode op) ModeCopy) as [_|Hno]; [|done].
  destruct (copyFile env _ _ w3) as [o4 w4] eqn:H4.
  apply copyFile_spec in H4 as (C4 & _ & r4 & -> & Hr4).
  destruct r4 as [err|]; intros [= <- <-]; [discriminate|]. intros _ _.
  cbn [files logged] in F3.
  split.
  - rewrite (changedWithin_lookup _ _ _ _ C4) by not_named. by rewrite F3.
  - destruct Hr4 as (_ & _ & _ & Hcopied).
    destruct (Hcopied Hne f) as (g & Hg & Hdata & _); [by rewrite F3|].
    by exists g.
Qed.

Lemma Execute_copy_not_verified_witness :
  files (snd (Execute shortCopy copyA false disk)) !! "/src/a.mkv" = Some media
  /\ exists g, files (snd (Execute shortCopy copyA false disk)) !! "/out/a.mkv" = Some g
       /\ data g = "vi".
Proof.
  set (run := Execute shortCopy copyA false disk).
  assert (Hrun : run = (Done {| Op := copyA; Success := true; Skipped := false;
                                Error := None; Message := "copy completed" |}, snd run)).
  { vm_compute. reflexivity. }
  exact (Execute_copy_not_verified shortCopy copyA disk media _ _
           eq_refl eq_refl Hrun eq_refl eq_refl).
Defined.

End FrameFacts.

Module PromptFacts.
Import GoStrings Database Formatter Operations Cli Main PlanSpec FullPlan Scenario.

Lemma flat_map_nil {A B} (f : A -> list B) l :
  (forall x, In x l -> f x = []) -> flat_map f l = [].
Proof.
  induction l as [|x l IH]; [reflexivity|]. intros Hf. cbn.
  rewrite (Hf x) by (by left). apply IH. intros y Hy. apply Hf. by right.
Qed.

Section Unprompted.
Context `{UnicodeCase}.
Context (config : Config) (formatter : Formatter) (content : LibraryContent)
        (locationOutputs : list LocationWithOutput).

(** A movie outside the selection has no eligible file. *)
Lemma movie_outside_selection sel movie :
  fileInLocations (mv_Files movie) sel = false ->
  moviePreviews config formatter content (Some sel) locationOutputs movie = [].
Proof.
  intros Hout. unfold moviePreviews. apply flat_map_nil. intros file Hin.
  unfold filteredOut, fileInLocations in *.
  assert (pathInLocations (File file) sel = false) as ->; [|reflexivity].
  apply not_true_is_false. intros Hp. apply not_true_iff_false in Hout. apply Hout.
  apply existsb_exists. by exists file.
Qed.

Lemma show_outside_selection sel show :
  showInLocations show sel = false ->
  showPreviews config formatter content (Some sel) locationOutputs show = [].
Proof.
  intros Hout. unfold showPreviews.
  apply flat_map_nil. intros season Hseason.
  apply flat_map_nil. intros episode Hepisode.
  apply flat_map_nil. intros file Hfile.
  unfold filteredOut.
  assert (pathInLocations (File file) sel = false) as ->; [|reflexivity].
  apply not_true_is_false. intros Hp. apply not_true_iff_false in Hout. apply Hout.
  unfold showInLocations. apply existsb_exists. exists season. split; [done|].
  apply existsb_exists. exists episode. split; [done|].
  unfold fileInLocations. apply existsb_exists. by exists file.
Qed.

Lemma PromptMovie_unprompted movie previews p :
  interactive config = false \/ ApproveAll p = true ->
  (if interactive config then PromptMovie movie previews p else ((true, false, None), p))
  = ((true, false, None), p).
Proof.
  intros [->|Hall]; [reflexivity|].
  unfold PromptMovie. rewrite Hall. by destruct (interactive config).
Qed.

Lemma PromptShow_unprompted show count previews p :
  interactive config = false \/ ApproveAll p = true ->
  (if interactive config then PromptShow show count previews p
   else ((true, false, None), p))
  = ((true, false, None), p).
Proof.
  intros [->|Hall]; [reflexivity|].
  unfold PromptShow. rewrite Hall. by destruct (interactive config).
Qed.

Lemma movieLoop_unprompted selectedLocations movies operations p :
  interactive config = false \/ ApproveAll p = true ->
  movieLoop config formatter content selectedLocations locationOutputs movies operations p
  = ((operations
      ++ flat_map (movieOperations config formatter content selectedLocations
                                   locationOutputs) movies)%list,
      None, p).
Proof.
  intros Hquiet. revert operations.
  induction movies as [|movie rest IH]; intros operations.
  { cbn. by rewrite app_nil_r. }
  cbn [movieLoop flat_map]. unfold movieOperations at 1.
  rewrite (PromptMovie_unprompted _ _ _ Hquiet). cbn [negb].
  rewrite !IH, <- app_assoc.
  destruct selectedLocations as [sel|]; [|reflexivity].
  destruct (fileInLocations (mv_Files movie) sel) eqn:Hin; [reflexivity|].
  cbn [negb]. by rewrite (movie_outside_selection sel movie Hin).
Qed.

Lemma showLoop_unprompted selectedLocations shows operations p :
  interactive config = false \/ ApproveAll p = true ->
  showLoop config formatter content selectedLocations locationOutputs shows operations p
  = ((operations
      ++ flat_map (showOperations config formatter content selectedLocations
                                  locationOutputs) shows)%list,
      None, p).
Proof.
  intros Hquiet. revert operations.
  induction shows as [|show rest IH]; intros operations.
  { cbn. by rewrite app_nil_r. }
  cbn [showLoop flat_map]. unfold showOperations at 1.
  rewrite (PromptShow_unprompted _ _ _ _ Hquiet). cbn [negb].
  rewrite !IH, <- app_assoc.
  destruct (showPreviews config formatter content selectedLocations locationOutputs show)
    as [|pv pvs] eqn:Hpv.
  - cbn. by destruct (match selectedLocations with Some _ => _ | None => _ end).
  - cbn [List.length Nat.eqb].
    destruct selectedLocations as [sel|]; [|reflexivity].
    destruct (showInLocations show sel) eqn:Hin; [reflexivity|].
    rewrite (show_outside_selection sel show Hin) in Hpv. discriminate Hpv.
Qed.

Lemma generateOperations_unprompted selectedLocations p :
  interactive config = false \/ ApproveAll p = true ->
  generateOperations config formatter content selectedLocations locationOutputs p
  = ((wholePlan config formatter content selectedLocations locationOutputs, None), p).
Proof.
  intros Hquiet. unfold generateOperations, wholePlan.
  destruct (_ =? SectionTypeMovie)%Z; [by rewrite movieLoop_unprompted|].
  destruct (_ =? SectionTypeShow)%Z; [by rewrite showLoop_unprompted | reflexivity].
Qed.

(** X16. When nothing is asked (auto-approve or script mode, or the
    prompter is in its approve-all state), generateOperations reads no
    input, leaves the prompter as it was, returns no error, and its plan
    is the whole plan: one operation for every eligible file of the
    library, in the order of the catalog. *)
Theorem plan_without_prompts selectedLocations p :
  interactive config = false \/ ApproveAll p = true ->
  generateOperations config formatter content selectedLocations locationOutputs p
  = ((wholePlan config formatter content selectedLocations locationOutputs, None), p).
Proof. apply generateOperations_unprompted. Qed.

End Unprompted.

Lemma plan_without_prompts_witness :
  generateOperations (H := asciiCase) (config "/out" ModeMove "" "" true false)
                     defaultFormatter placedLibrary None [] (NewPrompter "")
  = ((wholePlan (H := asciiCase) (config "/out" ModeMove "" "" true false)
                defaultFormatter placedLibrary None [], None), NewPrompter "").
Proof. apply plan_without_prompts. by left. Defined.

End PromptFacts.

Module InteractiveFacts.
Import GoStrings GoScan Database Formatter Operations Cli Main Interactive Scenario
       Catalog.

(** *** truncatePath *)

Lemma length_sdrop n s : String.length (sdrop n s) = String.length s - n.
Proof.
  revert s. induction n as [|n IH]; intros [|c s]; cbn; try reflexivity; try lia.
  apply IH.
Qed.

Lemma length_append (a b : string) :
  String.length (a ++ b) = String.length a + String.length b.
Proof. induction a as [|c a IH]; [reflexivity|]. cbn. by rewrite IH. Qed.

Lemma wrapInt_in_range z : (MinInt <= z <= MaxInt)%Z -> wrapInt z = z.
Proof.
  unfold MinInt, MaxInt, wrapInt.
  change (2 ^ 63)%Z with 9223372036854775808%Z.
  change (2 ^ 64)%Z with 18446744073709551616%Z.
  intros Hz. rewrite Z.mod_small; lia.
Qed.

Lemma wrapInt_above z :
  (MaxInt < z <= MaxInt + 2 ^ 64)%Z -> wrapInt z = (z - 2 ^ 64)%Z.
Proof.
  unfold MinInt, MaxInt, wrapInt.
  change (2 ^ 63)%Z with 9223372036854775808%Z.
  change (2 ^ 64)%Z with 18446744073709551616%Z.
  intros Hz.
  replace (z + 9223372036854775808)%Z
    with ((z - 9223372036854775808) + 1 * 18446744073709551616)%Z by lia.
  rewrite Z.mod_add, Z.mod_small; lia.
Qed.

(** X17. truncatePath returns a path that fits as it is; a longer path
    is cut to its last maxLen - 3 bytes behind three dots, so the result
    is exactly maxLen bytes long, when maxLen is at least 3; for a longer
    path and maxLen below 3 (also negative) the slice bound lies outside
    the string and the function panics. *)
Theorem truncatePath_fits (path : string) (maxLen : Z) :
  (MinInt <= maxLen <= MaxInt)%Z -> (Z.of_nat (String.length path) + 3 <= MaxInt)%Z ->
  let len := Z.of_nat (String.length path) in
  if (len <=? maxLen)%Z then truncatePath path maxLen = Some path
  else if (3 <=? maxLen)%Z then
    truncatePath path maxLen
    = Some ("..." ++ sdrop (String.length path - (Z.to_nat maxLen - 3)) path)
    /\ Z.of_nat (String.length
                   ("..." ++ sdrop (String.length path - (Z.to_nat maxLen - 3)) path))
       = maxLen
  else truncatePath path maxLen = None.
Proof.
  intros Hmax Hlen. unfold truncatePath.
  set (len := Z.of_nat (String.length path)) in *. cbn zeta.
  destruct (Z.leb_spec len maxLen) as [Hfit|Hlong]; [reflexivity|].
  assert (E63 : (2 ^ 63 = 9223372036854775808)%Z) by reflexivity.
  assert (E64 : (2 ^ 64 = 18446744073709551616)%Z) by reflexivity.
  unfold MinInt, MaxInt in Hmax, Hlen.
  destruct (Z.leb_spec 3 maxLen) as [H3|H3].
  - rewrite (wrapInt_in_range (len - maxLen)) by (unfold MinInt, MaxInt; lia).
    rewrite wrapInt_in_range by (unfold MinInt, MaxInt; lia).
    destruct (Z.leb_spec 0 (len - maxLen + 3)) as [_|]; [|lia].
    destruct (Z.leb_spec (len - maxLen + 3) len) as [_|]; [|lia]. cbn [andb].
    replace (Z.to_nat (len - maxLen + 3))
      with (String.length path - (Z.to_nat maxLen - 3)) by lia.
    split; [reflexivity|].
    rewrite length_append, length_sdrop. cbn [String.length]. lia.
  - destruct (Z.le_gt_cases (len - maxLen) MaxInt) as [Hd|Hd]; unfold MaxInt in Hd.
    + rewrite (wrapInt_in_range (len - maxLen)) by (unfold MinInt, MaxInt; lia).
      destruct (Z.le_gt_cases (len - maxLen + 3) MaxInt) as [He|He]; unfold MaxInt in He.
      * rewrite wrapInt_in_range by (unfold MinInt, MaxInt; lia).
        destruct (Z.leb_spec (len - maxLen + 3) len) as [|_]; [lia|].
        by rewrite andb_false_r.
      * rewrite wrapInt_above by (unfold MaxInt; lia).
        destruct (Z.leb_spec 0 (len - maxLen + 3 - 2 ^ 64)) as [|_]; [lia | reflexivity].
    + rewrite (wrapInt_above (len - maxLen)) by (unfold MaxInt; lia).
      rewrite wrapInt_in_range by (unfold MinInt, MaxInt; lia).
      destruct (Z.leb_spec 0 (len - maxLen - 2 ^ 64 + 3)) as [|_]; [lia | reflexivity].
Qed.

Lemma truncatePath_fits_witness :
  truncatePath "/media/tv/Show/Season 1/episode.mkv" 20
  = Some ("..." ++ "son 1/episode.mkv")
  /\ truncatePath "/media/tv" 2 = None.
Proof.
  assert (Hmax : forall z, (0 <= z <= 20)%Z -> (MinInt <= z <= MaxInt)%Z)
    by (unfold MinInt, MaxInt; lia).
  assert (Hlen : forall s, (String.length s <= 40)%nat ->
                           (Z.of_nat (String.length s) + 3 <= MaxInt)%Z)
    by (unfold MaxInt; lia).
  split.
  - exact (proj1 (truncatePath_fits "/media/tv/Show/Season 1/episode.mkv" 20
                    (Hmax 20%Z ltac:(lia))
                    (Hlen "/media/tv/Show/Season 1/episode.mkv" ltac:(cbn; lia)))).
  - exact (truncatePath_fits "/media/tv" 2
             (Hmax 2%Z ltac:(lia)) (Hlen "/media/tv" ltac:(cbn; lia))).
Defined.

(** *** ShowOperationPreview *)

(** The operations printed are the first ones of the plan; printed and
    announced together are the whole plan, and nothing is announced
    exactly when everything is printed. *)
Lemma ShowOperationPreview_accounts_for_all (operations : list Operation) (limit : Z) :
  let shown := fst (ShowOperationPreview operations limit) in
  let more := snd (ShowOperationPreview operations limit) in
  shown = firstn (List.length shown) operations
  /\ match more with
     | Some n =>
       (0 < n)%Z /\ Z.of_nat (List.length shown) = limit
       /\ (Z.of_nat (List.length shown) + n)%Z = Z.of_nat (List.length operations)
     | None => shown = operations /\ ((limit <= 0)%Z \/ (Z.of_nat (List.length operations) <= limit)%Z)
     end.
Proof.
  unfold ShowOperationPreview. cbn [fst snd].
  destruct (Z.ltb_spec 0 limit) as [Hpos|Hneg]; cbn [andb].
  - destruct (Z.ltb_spec limit (Z.of_nat (List.length operations))) as [Hlt|Hge].
    + rewrite length_firstn. rewrite Nat.min_l by lia.
      split; [reflexivity|]. repeat split; lia.
    + rewrite Nat2Z.id, firstn_all. rewrite firstn_all.
      split; [reflexivity|]. split; [reflexivity|]. by right.
  - rewrite Nat2Z.id, firstn_all. rewrite firstn_all.
    split; [reflexivity|]. split; [reflexivity|]. by left.
Qed.

(** *** Reading an answer *)

Lemma ReadString_no_delim delim s :
  ~ In delim (bytes s) -> ReadString delim s = (s, false, "").
Proof.
  induction s as [|c s IH]; [reflexivity|]. cbn. intros Hno.
  destruct (Ascii.eqb_spec c delim) as [->|_]; [exfalso; apply Hno; by left|].
  rewrite IH; [reflexivity|]. intros Hin. apply Hno. by right.
Qed.

Section Answers.
Context `{UnicodeCase}.

(** X18. An answer that is not ended by a newline is an error (the end of
    the input), whatever was typed: neither question takes it for a yes,
    and the approve-all state is left as it was. *)
Theorem answer_without_newline_is_an_error (prompt : string) (p : Prompter) :
  ~ In "010"%char (bytes (stdin p)) ->
  fst (askYesNoAll prompt p) = (false, false, Some EOF)
  /\ fst (askYesNo prompt p) = (false, Some EOF)
  /\ ApproveAll (snd (askYesNoAll prompt p)) = ApproveAll p.
Proof.
  intros Hno. unfold askYesNoAll, askYesNo, readLine. cbn [display stdin].
  rewrite (ReadString_no_delim _ _ Hno). by cbn.
Qed.

(** *** PromptLibrary *)

Lemma locationsLoop_listed locations : forall approveAll selected p sel err p',
  locationsLoop locations approveAll selected p = ((sel, err), p') ->
  forall loc, In loc sel -> In loc selected \/ In loc locations.
Proof.
  induction locations as [|l locations IH]; intros approveAll selected p sel err p'.
  { intros [= <- <- <-] loc Hin. by left. }
  cbn [locationsLoop].
  assert (Hadd : forall a q, locationsLoop locations a (selected ++ [l])%list q
                             = ((sel, err), p') ->
                 forall loc, In loc sel -> In loc selected \/ In loc (l :: locations)).
  { intros a q Hrun loc Hin.
    destruct (IH _ _ _ _ _ _ Hrun loc Hin) as [Hs|Hl]; [|right; by right].
    apply in_app_or in Hs as [Hs|[<-|[]]]; [by left | right; by left]. }
  destruct approveAll; [apply Hadd|].
  destruct (askYesNoAll _ p) as [[[yes all] [e|]] q].
  { intros [= <- <- <-] loc []. }
  destruct all; [apply Hadd|]. destruct yes; [apply Hadd|].
  intros Hrun loc Hin.
  destruct (IH _ _ _ _ _ _ Hrun loc Hin) as [Hs|Hl]; [by left | right; by right].
Qed.

Lemma locationByNumber_listed locations part loc :
  In loc (locationByNumber locations part) -> In loc locations.
Proof.
  unfold locationByNumber. destruct (Sscanf_d _) as [idx|]; [|intros []].
  destruct (_ && _)%Z; [|intros []].
  destruct (nth_error _ _) as [l|] eqn:Hnth; [|intros []].
  intros [<-|[]]. by eapply nth_error_In.
Qed.

(** X19. When PromptLibrary hands back a selection of locations, the
    library is to be processed, the selection is not empty, and every
    location in it is one of the library's own. *)
Theorem PromptLibrary_selects_listed (section : LibrarySection)
        (locations : list SectionLocation) (p : Prompter) proceed sel err p' :
  PromptLibrary section locations p = ((proceed, Some sel, err), p') ->
  proceed = true /\ err = None /\ sel <> []
  /\ forall loc, In loc sel -> In loc locations.
Proof.
  unfold PromptLibrary.
  destruct (readLine _) as [[input ok] q]. destruct ok; cbn [negb]; [|discriminate].
  destruct (_ || _); [discriminate|].
  destruct (_ || _).
  { unfold promptLocationsLoop.
    destruct (locationsLoop _ _ _ _) as [[sel' [e|]] q'] eqn:Hloop; [discriminate|].
    destruct (Nat.eqb_spec (List.length sel') 0) as [|Hlen]; [discriminate|].
    intros [= <- <- <- <-]. repeat split.
    - intros ->. by apply Hlen.
    - intros loc Hin.
      by destruct (locationsLoop_listed _ _ _ _ _ _ _ Hloop loc Hin) as [[]|]. }
  destruct (_ || _); [discriminate|].
  destruct (Nat.ltb_spec 0 (List.length (flat_map (locationByNumber locations)
                                                  (Split (TrimSpace (ToLower input)) ","))))
    as [Hlen|]; [|discriminate].
  intros [= <- <- <- <-]. repeat split.
  - intros Hnil. rewrite Hnil in Hlen. cbn in Hlen. lia.
  - intros loc Hin. apply in_flat_map in Hin as (part & _ & Hin).
    by eapply locationByNumber_listed.
Qed.

(** *** PromptLocationOutputs *)

Lemma outputsLoop_pairs locations defaultOutput : forall results p outs p',
  outputsLoop locations defaultOutput results p = ((outs, None), p') ->
  exists added, outs = (results ++ added)%list
    /\ map Location added = locations
    /\ Forall (fun lo => OutputPath lo = "" -> defaultOutput = "") added.
Proof.
  induction locations as [|l locations IH]; intros results p outs p'.
  { intros [= <- <-]. exists []. by rewrite app_nil_r. }
  cbn [outputsLoop].
  destruct (readLine _) as [[input ok] q]. destruct ok; cbn [negb]; [|discriminate].
  intros Hrun. destruct (IH _ _ _ _ Hrun) as (added & -> & Hmap & Hall).
  eexists (_ :: added). rewrite <- app_assoc. split; [reflexivity|].
  split; [cbn; by rewrite Hmap|].
  constructor; [|exact Hall]. cbn.
  destruct (String.eqb_spec (TrimSpace input) "") as [_|Hne]; cbn; [done|].
  intros Hempty. by destruct Hne.
Qed.

(** X20. When PromptLocationOutputs returns without an error, it has one
    entry for each location it was given, in the same order, and an
    entry has an empty output path only when the default is empty. *)
Theorem PromptLocationOutputs_pairs (locations : list SectionLocation)
        (defaultOutput : string) (p : Prompter) outs p' :
  PromptLocationOutputs locations defaultOutput p = ((outs, None), p') ->
  map Location outs = locations
  /\ Forall (fun lo => OutputPath lo = "" -> defaultOutput = "") outs.
Proof.
  unfold PromptLocationOutputs. intros Hrun.
  by destruct (outputsLoop_pairs _ _ _ _ _ _ Hrun) as (added & -> & Hmap & Hall).
Qed.

(** *** Approving all at a location *)

Lemma locationsLoop_approved locations : forall selected p,
  locationsLoop locations true selected p = (((selected ++ locations)%list, None), p).
Proof.
  induction locations as [|l locations IH]; intros selected p; cbn [locationsLoop].
  - by rewrite app_nil_r.
  - by rewrite IH, <- app_assoc.
Qed.

(** X21. Answering the library question with l and the first location
    with a selects every location of the library, and it switches the
    prompter's approve-all state on: the shows and movies that follow are
    no longer asked about. *)
Theorem all_at_a_location_approves_everything (section : LibrarySection)
        (loc : SectionLocation) (locations : list SectionLocation)
        (rest : string) (p : Prompter) :
  stdin p = "l" ++ newline ++ "a" ++ newline ++ rest ->
  exists p',
    PromptLibrary section (loc :: locations) p
    = ((true, Some (loc :: locations), None), p')
    /\ ApproveAll p' = true /\ stdin p' = rest.
Proof.
  intros Hin. unfold PromptLibrary, readLine. cbn [display stdin]. rewrite Hin.
  cbn [ReadString newline Scenario.newline String.append Ascii.eqb Bool.eqb negb].
  replace (TrimSpace (ToLower (String "l" (String "010" "")))) with "l"
    by (vm_compute; reflexivity).
  cbn [String.eqb Ascii.eqb Bool.eqb orb].
  unfold promptLocationsLoop. cbn [locationsLoop].
  unfold askYesNoAll, readLine. cbn [display stdin].
  cbn [ReadString String.append Ascii.eqb Bool.eqb negb].
  replace (TrimSpace (ToLower (String "a" (String "010" "")))) with "a"
    by (vm_compute; reflexivity).
  cbn [String.eqb Ascii.eqb Bool.eqb orb].
  rewrite locationsLoop_approved. cbn [app List.length Nat.eqb].
  eexists. split; [reflexivity|]. by cbn.
Qed.

End Answers.

Lemma answer_without_newline_is_an_error_witness :
  fst (askYesNoAll (H := asciiCase) "Rename files for this movie?" (NewPrompter "y"))
  = (false, false, Some EOF)
  /\ fst (askYesNo (H := asciiCase) "Proceed?" (NewPrompter "y")) = (false, Some EOF)
  /\ ApproveAll (snd (askYesNoAll (H := asciiCase) "Rename files for this movie?" (NewPrompter "y")))
     = false.
Proof.
  apply (@answer_without_newline_is_an_error asciiCase "Rename files for this movie?"
           (NewPrompter "y")).
  cbn. intros [Hc|[]]. discriminate Hc.
Defined.

Lemma PromptLibrary_selects_listed_witness :
  true = true /\ @None ioError = None
  /\ [location 2 "/media/b"; location 1 "/media/a"] <> []
  /\ forall loc, In loc [location 2 "/media/b"; location 1 "/media/a"] ->
                 In loc libraryA.
Proof.
  eapply (@PromptLibrary_selects_listed asciiCase (Scenario.section 1) libraryA
            (NewPrompter ("2, 1" ++ newline))).
  vm_compute. reflexivity.
Defined.

Lemma PromptLocationOutputs_pairs_witness :
  map Location [ {| Location := location 1 "/media/a"; OutputPath := "/out/a" |};
                 {| Location := location 2 "/media/b"; OutputPath := "/out" |} ]
  = libraryA
  /\ Forall (fun lo => OutputPath lo = "" -> "/out" = "")
       [ {| Location := location 1 "/media/a"; OutputPath := "/out/a" |};
         {| Location := location 2 "/media/b"; OutputPath := "/out" |} ].
Proof.
  eapply (PromptLocationOutputs_pairs libraryA "/out"
            (NewPrompter (" /out/a" ++ newline ++ newline))).
  vm_compute. reflexivity.
Defined.

Lemma all_at_a_location_approves_everything_witness :
  exists p',
    PromptLibrary (H := asciiCase) (Scenario.section 1) libraryA
      (NewPrompter ("l" ++ newline ++ "a" ++ newline ++ "n" ++ newline))
    = ((true, Some libraryA, None), p')
    /\ ApproveAll p' = true /\ stdin p' = "n" ++ newline.
Proof.
  apply (@all_at_a_location_approves_everything asciiCase (Scenario.section 1)
           (location 1 "/media/a") [location 2 "/media/b"] ("n" ++ newline)
           (NewPrompter ("l" ++ newline ++ "a" ++ newline ++ "n" ++ newline))).
  reflexivity.
Defined.

(** *** The output path of a location *)

Section Outputs.
Context `{UnicodeCase}.

(** X22. With no output directory configured, a blank answer to the
    output path of a selected location is recorded as the empty path, and
    the empty path is then the output directory of the files under that
    location: the formatted name is joined onto nothing, so the
    destination is relative to the working directory.  Without the entry
    the output directory of a file is never empty (the library root, or
    a single dot). *)
Theorem blank_answer_overrides_library_root (config : Config) (content : LibraryContent)
        (loc : SectionLocation) (filePath rest name : string) (p : Prompter) :
  OutputDir config = "" ->
  stdin p = newline ++ rest ->
  pathInLocations filePath [loc] = true ->
  exists outs p',
    PromptLocationOutputs [loc] (OutputDir config) p = ((outs, None), p')
    /\ getOutputPath config content outs filePath = ""
    /\ GoFilepath.Join [getOutputPath config content outs filePath; name]
       = GoFilepath.Join [name]
    /\ getOutputPath config content [] filePath <> "".
Proof.
  intros Hout Hin Hunder.
  unfold PromptLocationOutputs. cbn [outputsLoop]. unfold readLine.
  cbn [display stdin]. rewrite Hin, Hout.
  cbn [newline Scenario.newline String.append ReadString Ascii.eqb Bool.eqb negb].
  replace (TrimSpace (String "010" "")) with "" by (vm_compute; reflexivity).
  cbn [String.eqb negb app].
  eexists _, _. split; [reflexivity|].
  assert (Hget : getOutputPath config content
                   [{| Location := loc; OutputPath := "" |}] filePath = "").
  { unfold getOutputPath. cbn [find Location]. by rewrite Hunder. }
  split; [exact Hget|]. split; [by rewrite Hget|].
  unfold getOutputPath. cbn [find]. rewrite Hout. cbn [String.eqb negb].
  destruct (String.eqb_spec (getLocationForPath filePath (Locations content)) "");
    cbn [negb]; [discriminate | assumption].
Qed.

End Outputs.

Lemma blank_answer_overrides_library_root_witness :
  exists outs p',
    PromptLocationOutputs [location 1 "/lib"] "" (NewPrompter newline) = ((outs, None), p')
    /\ getOutputPath (H := asciiCase) (config "" ModeMove "" "" false false)
                     placedLibrary outs "/lib/Movie (2020).mkv" = ""
    /\ GoFilepath.Join
         [getOutputPath (H := asciiCase) (config "" ModeMove "" "" false false)
                        placedLibrary outs "/lib/Movie (2020).mkv"; "Movie (2020).mkv"]
       = GoFilepath.Join ["Movie (2020).mkv"]
    /\ getOutputPath (H := asciiCase) (config "" ModeMove "" "" false false)
                     placedLibrary [] "/lib/Movie (2020).mkv" <> "".
Proof.
  apply (@blank_answer_overrides_library_root asciiCase
           (config "" ModeMove "" "" false false) placedLibrary (location 1 "/lib")
           "/lib/Movie (2020).mkv" "" "Movie (2020).mkv" (NewPrompter newline));
    reflexivity.
Defined.

End InteractiveFacts.

Module FlagFacts.
Import GoStrings GoScan Database Formatter Operations Cli Main Interactive App Scenario
       Spec StringFacts ShellSpec.

(** *** parseFlags *)

Lemma cut_single (c : ascii) (s : string) :
  match cut (String c "") s with
  | Some (before, after) => s = before ++ String c after /\ ~ In c (bytes before)
  | None => ~ In c (bytes s)
  end.
Proof.
  induction s as [|x s IH]; [intros []|].
  cbn [cut String.prefix String.length sdrop].
  destruct (ascii_dec c x) as [->|Hne].
  - replace (String.prefix "" s) with true by (by destruct s).
    split; [reflexivity | intros []].
  - destruct (cut (String c "") s) as [[before after]|].
    + destruct IH as [-> Hno]. split; [reflexivity|].
      intros [->|Hin]; [by apply Hne | by apply Hno].
    + intros [->|Hin]; [by apply Hne | by apply IH].
Qed.

Section Flags.
Context `{UnicodeCase}.

(** X23. A configuration parseFlags accepts has the mode copy or move, and
    a path map given on the command line is split at its FIRST colon: the
    old prefix never contains a colon, everything after the first colon is
    the new prefix. *)
Theorem parseFlags_splits_at_first_colon (flags : Flags) (config : Config) :
  parseFlags flags = inl config ->
  (cfg_Mode config = ModeCopy \/ cfg_Mode config = ModeMove)
  /\ (if String.eqb (flag_path_map flags) ""
      then PathMapSrc config = "" /\ PathMapDst config = ""
      else flag_path_map flags = PathMapSrc config ++ ":" ++ PathMapDst config
           /\ ~ In ":"%char (bytes (PathMapSrc config))).
Proof.
  unfold parseFlags.
  assert (Hmap : forall mode,
    (if negb (String.eqb (flag_path_map flags) "")
     then match SplitN (flag_path_map flags) ":" 2 with
          | [src; dst] =>
            inl {| DatabasePath := match flag_args flags with arg :: _ => arg | [] => "" end;
                   OutputDir := flag_output flags; DryRun := flag_dry_run flags;
                   ScriptMode := flag_script flags; ScriptShell := flag_shell flags;
                   ScriptOutput := flag_script_output flags; cfg_Mode := mode;
                   cfg_TVFormat := flag_tv_format flags;
                   cfg_MovieFormat := flag_movie_format flags;
                   PathMapSrc := src; PathMapDst := dst;
                   AutoApprove := flag_auto_approve flags |}
          | _ => inr (@InvalidPathMap runError)
          end
     else inl {| DatabasePath := match flag_args flags with arg :: _ => arg | [] => "" end;
                 OutputDir := flag_output flags; DryRun := flag_dry_run flags;
                 ScriptMode := flag_script flags; ScriptShell := flag_shell flags;
                 ScriptOutput := flag_script_output flags; cfg_Mode := mode;
                 cfg_TVFormat := flag_tv_format flags;
                 cfg_MovieFormat := flag_movie_format flags;
                 PathMapSrc := ""; PathMapDst := "";
                 AutoApprove := flag_auto_approve flags |}) = inl config ->
    cfg_Mode config = mode
    /\ (if String.eqb (flag_path_map flags) ""
        then PathMapSrc config = "" /\ PathMapDst config = ""
        else flag_path_map flags = PathMapSrc config ++ ":" ++ PathMapDst config
             /\ ~ In ":"%char (bytes (PathMapSrc config)))).
  { intros mode. destruct (String.eqb (flag_path_map flags) ""); cbn [negb].
    { intros Heq. injection Heq as Heq. by subst config. }
    change (SplitN (flag_path_map flags) ":" 2)
      with (splitUpTo 1 ":" (flag_path_map flags)).
    cbn [splitUpTo].
    pose proof (cut_single ":" (flag_path_map flags)) as Hcut.
    destruct (cut ":" (flag_path_map flags)) as [[before after]|]; [|discriminate].
    destruct Hcut as [Hsplit Hno]. intros Heq. injection Heq as Heq. by subst config. }
  destruct (String.eqb _ "copy").
  { intros Hc. destruct (Hmap _ Hc) as [Hm Hp]. split; [by left | exact Hp]. }
  destruct (String.eqb _ "move"); [|discriminate].
  intros Hc. destruct (Hmap _ Hc) as [Hm Hp]. split; [by right | exact Hp].
Qed.

End Flags.

Lemma parseFlags_splits_at_first_colon_witness :
  ("move" = ModeCopy \/ "move" = ModeMove)
  /\ "F:\Media:H:\Media" = "F" ++ ":" ++ "\Media:H:\Media"
  /\ ~ In ":"%char (bytes "F").
Proof.
  pose (flags := {| flag_output := "./out"; flag_dry_run := false; flag_script := false;
                    flag_shell := "cmd"; flag_script_output := ""; flag_mode := "move";
                    flag_tv_format := DefaultTVFormat;
                    flag_movie_format := DefaultMovieFormat;
                    flag_path_map := "F:\Media:H:\Media"; flag_auto_approve := false;
                    flag_args := ["./plex.db"] |}).
  pose (config := {| DatabasePath := "./plex.db"; OutputDir := "./out"; DryRun := false;
                     ScriptMode := false; ScriptShell := "cmd"; ScriptOutput := "";
                     cfg_Mode := "move"; cfg_TVFormat := DefaultTVFormat;
                     cfg_MovieFormat := DefaultMovieFormat;
                     PathMapSrc := "F"; PathMapDst := "\Media:H:\Media";
                     AutoApprove := false |}).
  apply (@parseFlags_splits_at_first_colon asciiCase flags config).
  vm_compute. reflexivity.
Defined.

(** *** The quoting of the Bash script *)

Lemma shRead_quoted (s : string) :
  shRead true (substBytes (substOne "'" "'\''") s ++ "'") = Some s.
Proof.
  induction s as [|c s IH]; [reflexivity|].
  cbn [substBytes]. unfold substOne at 1.
  destruct (Ascii.eqb_spec c "'") as [->|Hne].
  - cbn. cbn in IH. by rewrite IH.
  - cbn [String.append shRead].
    destruct (Ascii.eqb_spec c "'") as [|_]; [done|]. by rewrite IH.
Qed.

(** X24. The single-quoted word the Bash script writes for a path is read
    back by a POSIX shell as exactly that path, whatever bytes the path
    holds (quotes, blanks, dollar signs, newlines). *)
Theorem bash_quoting_round_trip (path : string) :
  shWord ("'" ++ escapeBash path ++ "'") = Some path.
Proof.
  unfold shWord, escapeBash. rewrite ReplaceAll_single.
  cbn [String.append shRead Ascii.eqb Bool.eqb]. apply shRead_quoted.
Qed.

End FlagFacts.

Module PlexFacts.
Import Database Plex PlexSpec Scenario Catalog.

Section Content.
Context (p : PlexDB).

Lemma moviesLoop_spec items : forall movies,
  match moviesLoop p items movies with
  | Rows out =>
    exists added, out = (movies ++ added)%list
      /\ map mv_Metadata added = items
      /\ Forall (fun m => GetMediaParts p (ID (mv_Metadata m)) = Rows (mv_Files m)) added
  | Failed e => exists item, In item items /\ GetMediaParts p (ID item) = Failed e
  end.
Proof.
  induction items as [|item items IH]; intros movies; cbn [moviesLoop].
  { exists []. by rewrite app_nil_r. }
  destruct (GetMediaParts p (ID item)) as [files|e] eqn:Hfiles.
  - specialize (IH (movies ++ [{| mv_Metadata := item; mv_Files := files |}])%list).
    destruct (moviesLoop _ _ _) as [out|e].
    + destruct IH as (added & -> & Hmap & Hall).
      eexists (_ :: added). rewrite <- app_assoc. split; [reflexivity|].
      split; [cbn; by rewrite Hmap|]. by constructor.
    + destruct IH as (it & Hin & Hfail). exists it. split; [by right | done].
  - exists item. split; [by left | done].
Qed.

(** X25. The content of a movie library mirrors the queries: its movies
    are the metadata items of type movie of that section, in the order of
    the query, each with the media parts queried for it, and it has no
    shows.  The content is refused as a whole, with the error of the first
    query that failed, when the locations, the items or the parts of any
    one movie cannot be read. *)
Theorem movie_library_mirrors_queries (section : LibrarySection) :
  ls_SectionType section = SectionTypeMovie ->
  match GetLibraryContent p section with
  | Rows content =>
    Section content = section /\ Shows content = []
    /\ GetSectionLocations p (ls_ID section) = Rows (Locations content)
    /\ GetMetadataItems p (ls_ID section) MediaTypeMovie
       = Rows (map mv_Metadata (Movies content))
    /\ Forall (fun m => GetMediaParts p (ID (mv_Metadata m)) = Rows (mv_Files m))
              (Movies content)
  | Failed e =>
    GetSectionLocations p (ls_ID section) = Failed e
    \/ GetMetadataItems p (ls_ID section) MediaTypeMovie = Failed e
    \/ exists items item,
         GetMetadataItems p (ls_ID section) MediaTypeMovie = Rows items
         /\ In item items /\ GetMediaParts p (ID item) = Failed e
  end.
Proof.
  intros Htype. unfold GetLibraryContent. rewrite Htype. cbn [Z.eqb SectionTypeMovie Pos.eqb].
  destruct (GetSectionLocations p (ls_ID section)) as [locations|e]; [|by left].
  unfold getMovies.
  destruct (GetMetadataItems p (ls_ID section) MediaTypeMovie) as [items|e];
    [|right; by left].
  pose proof (moviesLoop_spec items []) as Hloop.
  destruct (moviesLoop p items []) as [out|e].
  - destruct Hloop as (added & -> & Hmap & Hall). cbn. by rewrite Hmap.
  - destruct Hloop as (item & Hin & Hfail). right; right. by exists items, item.
Qed.

Lemma episodesLoop_spec episodes : forall infos out,
  episodesLoop p episodes infos = Rows out ->
  exists added, out = (infos ++ added)%list
    /\ map ep_Metadata added = episodes
    /\ Forall (fun e => GetMediaParts p (ID (ep_Metadata e)) = Rows (ep_Files e)) added.
Proof.
  induction episodes as [|episode episodes IH]; intros infos out; cbn [episodesLoop].
  { intros [= <-]. exists []. by rewrite app_nil_r. }
  destruct (GetMediaParts p (ID episode)) as [files|e] eqn:Hfiles; [|discriminate].
  intros Hrun. destruct (IH _ _ Hrun) as (added & -> & Hmap & Hall).
  eexists (_ :: added). rewrite <- app_assoc. split; [reflexivity|].
  split; [cbn; by rewrite Hmap|]. by constructor.
Qed.

Lemma seasonsLoop_spec seasons : forall infos out,
  seasonsLoop p seasons infos = Rows out ->
  exists added, out = (infos ++ added)%list
    /\ map se_Metadata added = seasons /\ Forall (seasonMirrors p) added.
Proof.
  induction seasons as [|season seasons IH]; intros infos out; cbn [seasonsLoop].
  { intros [= <-]. exists []. by rewrite app_nil_r. }
  unfold getEpisodes.
  destruct (GetChildMetadata p (ID season)) as [episodes|e] eqn:Hchildren; [|discriminate].
  destruct (episodesLoop p episodes []) as [eps|e] eqn:Heps; [|discriminate].
  apply episodesLoop_spec in Heps as (added' & -> & Hmap' & Hall').
  intros Hrun. destruct (IH _ _ Hrun) as (added & -> & Hmap & Hall).
  eexists (_ :: added). rewrite <- app_assoc. split; [reflexivity|].
  split; [cbn; by rewrite Hmap|]. constructor; [|exact Hall].
  split; cbn; [by rewrite Hmap'|exact Hall'].
Qed.

Lemma showsLoop_spec shows : forall infos out,
  showsLoop p shows infos = Rows out ->
  exists added, out = (infos ++ added)%list
    /\ map sh_Metadata added = shows /\ Forall (showMirrors p) added.
Proof.
  induction shows as [|show shows IH]; intros infos out; cbn [showsLoop].
  { intros [= <-]. exists []. by rewrite app_nil_r. }
  unfold getSeasons.
  destruct (GetChildMetadata p (ID show)) as [seasons|e] eqn:Hchildren; [|discriminate].
  destruct (seasonsLoop p seasons []) as [ses|e] eqn:Hses; [|discriminate].
  apply seasonsLoop_spec in Hses as (added' & -> & Hmap' & Hall').
  intros Hrun. destruct (IH _ _ Hrun) as (added & -> & Hmap & Hall).
  eexists (_ :: added). rewrite <- app_assoc. split; [reflexivity|].
  split; [cbn; by rewrite Hmap|]. constructor; [|exact Hall].
  split; cbn; [by rewrite Hmap'|exact Hall'].
Qed.

(** X26. The content of a show library mirrors the queries level by level:
    its shows are the metadata items of type show of the section, the
    seasons of a show are the children of the show, the episodes of a
    season are the children of the season, each episode with the media
    parts queried for it, all in the order of the queries; it has no
    movies. *)
Theorem show_library_mirrors_queries (section : LibrarySection) (content : LibraryContent) :
  ls_SectionType section = SectionTypeShow ->
  GetLibraryContent p section = Rows content ->
  Section content = section /\ Movies content = []
  /\ GetSectionLocations p (ls_ID section) = Rows (Locations content)
  /\ GetMetadataItems p (ls_ID section) MediaTypeShow
     = Rows (map sh_Metadata (Shows content))
  /\ Forall (showMirrors p) (Shows content).
Proof.
  intros Htype. unfold GetLibraryContent. rewrite Htype.
  cbn [Z.eqb SectionTypeMovie SectionTypeShow Pos.eqb].
  destruct (GetSectionLocations p (ls_ID section)) as [locations|e]; [|discriminate].
  unfold getShows.
  destruct (GetMetadataItems p (ls_ID section) MediaTypeShow) as [items|e];
    [|discriminate].
  destruct (showsLoop p items []) as [out|e] eqn:Hloop; [|discriminate].
  apply showsLoop_spec in Hloop as (added & -> & Hmap & Hall).
  intros [= <-]. cbn. by rewrite Hmap.
Qed.

End Content.

Lemma movie_library_mirrors_queries_witness :
  match GetLibraryContent catalog (section 1) with
  | Rows content =>
    Section content = section 1 /\ Shows content = []
    /\ GetSectionLocations catalog 1 = Rows (Locations content)
    /\ GetMetadataItems catalog 1 MediaTypeMovie = Rows (map mv_Metadata (Movies content))
    /\ Forall (fun m => GetMediaParts catalog (ID (mv_Metadata m)) = Rows (mv_Files m))
              (Movies content)
  | Failed e =>
    GetSectionLocations catalog 1 = Failed e
    \/ GetMetadataItems catalog 1 MediaTypeMovie = Failed e
    \/ exists items item,
         GetMetadataItems catalog 1 MediaTypeMovie = Rows items
         /\ In item items /\ GetMediaParts catalog (ID item) = Failed e
  end.
Proof. exact (movie_library_mirrors_queries catalog (section 1) eq_refl). Defined.

Lemma show_library_mirrors_queries_witness :
  exists content,
    GetLibraryContent catalog (section 2) = Rows content
    /\ Section content = section 2 /\ Movies content = []
    /\ GetSectionLocations catalog 1 = Rows (Locations content)
    /\ GetMetadataItems catalog 1 MediaTypeShow = Rows (map sh_Metadata (Shows content))
    /\ Forall (showMirrors catalog) (Shows content).
Proof.
  eexists. split; [reflexivity|].
  exact (show_library_mirrors_queries catalog (section 2) _ eq_refl eq_refl).
Defined.

End PlexFacts.

Module RunFacts.
Import GoStrings GoOs Database Formatter Operations Cli Main Interactive Plex App
       ExecSpec FrameSpec FullPlan RunSpec Scenario Catalog
       RunScenario ExecutorFacts FrameFacts PromptFacts InteractiveFacts.

Section Run.
Context `{UnicodeCase}.
Context (env : Env).

Lemma executeAll_BatchExecute ops dryRun w :
  executeAll env ops dryRun w = BatchExecute env ops dryRun w.
Proof.
  revert w. induction ops as [|op ops IH]; intros w; [reflexivity|].
  cbn [executeAll BatchExecute]. unfold bind at 1 3.
  destruct (Execute env op dryRun w) as [[r|] w1]; [|reflexivity].
  unfold bind. by rewrite IH.
Qed.

Lemma executeAll_dry ops w :
  executeAll env ops true w = (Done (map dryResult ops), w).
Proof.
  induction ops as [|op ops IH]; [reflexivity|].
  cbn [executeAll map]. unfold bind at 1. cbn [Execute ret]. unfold bind at 1.
  by rewrite IH.
Qed.

Lemma ShowResults_dry ops box :
  fold_left countResult (map dryResult ops) box
  = {| succeeded := succeeded box + List.length ops; skipped := skipped box;
       failed := failed box; failures := failures box |}.
Proof.
  revert box. induction ops as [|op ops IH]; intros box.
  { cbn. destruct box; cbn. f_equal. lia. }
  cbn [map fold_left]. rewrite IH. cbn. f_equal. lia.
Qed.


Lemma readLine_no_line p :
  ~ In "010"%char (bytes (stdin p)) -> fst (readLine p) = (stdin p, false).
Proof. intros Hno. unfold readLine. by rewrite (ReadString_no_delim _ _ Hno). Qed.

Lemma PromptLibrary_no_line section locations p :
  ~ In "010"%char (bytes (stdin p)) ->
  exists p', PromptLibrary section locations p = ((false, None, Some EOF), p').
Proof.
  intros Hno. unfold PromptLibrary, readLine. cbn [display stdin].
  rewrite (ReadString_no_delim _ _ Hno). cbn. by eexists.
Qed.

Lemma sectionsLoop_no_line config formatter db sections : forall acc p ops p',
  ~ In "010"%char (bytes (stdin p)) ->
  sectionsLoop config formatter db sections acc p = ((ops, None), p') -> p' = p.
Proof.
  induction sections as [|section sections IH]; intros acc p ops p' Hno.
  { by intros [= _ <-]. }
  cbn [sectionsLoop]. destruct (GetLibraryContent db section) as [content|e];
    [|by apply IH].
  destruct (negb (AutoApprove config) && negb (ScriptMode config)) eqn:Hquiet.
  - destruct (PromptLibrary_no_line section (Locations content) p Hno) as [q ->].
    discriminate.
  - rewrite (generateOperations_unprompted config formatter content [] None p)
      by (left; exact Hquiet).
    by apply IH.
Qed.

(** X27. A dry run that does not write a script leaves the file system as
    it was and makes no call into it; every planned operation is
    reported as succeeded, none as skipped or failed, and run returns no
    panic. *)
Theorem dry_run_changes_nothing openDatabase (config : Config) (input : string)
        (w : World) :
  DryRun config = true -> ScriptMode config = false ->
  exists err s,
    run env openDatabase config input w = (Done err, s) /\ world s = w
    /\ match reported s with
       | Some box =>
         err = None /\ skipped box = 0 /\ failed box = 0 /\ failures box = []
         /\ exists shown more,
              previewed s = Some (shown, more)
              /\ Z.of_nat (succeeded box)
                 = (Z.of_nat (List.length shown)
                    + match more with Some n => n | None => 0 end)%Z
       | None => True
       end.
Proof.
  intros Hdry Hscript. unfold run. rewrite Hdry, Hscript.
  destruct (openDatabase _) as [db|e]; [|by eexists _, _].
  destruct (GetLibrarySections db) as [sections|e]; [|by eexists _, _].
  destruct (Nat.eqb _ 0); [by eexists _, _|].
  destruct (sectionsLoop _ _ _ _ _ _) as [[ops [e|]] p]; [by eexists _, _|].
  destruct (Nat.eqb _ 0); [by eexists _, _|].
  cbn [ConfirmProceed negb]. rewrite executeAll_dry.
  pose proof (ShowOperationPreview_accounts_for_all ops 10) as Hshown.
  cbn zeta in Hshown. destruct Hshown as [_ Hshown].
  destruct (ShowOperationPreview ops 10) as [shown more].
  cbn [fst snd] in Hshown.
  eexists _, _. split; [reflexivity|]. cbn [world reported previewed].
  split; [reflexivity|]. unfold ShowResults. rewrite ShowResults_dry.
  cbn [succeeded skipped failed failures Nat.add].
  repeat (split; [reflexivity|]). exists shown, more. split; [reflexivity|].
  destruct more as [n|].
  - lia.
  - destruct Hshown as [-> _]. lia.
Qed.

(** X28. When run returns an error, no operation was executed and nothing
    is reported; unless the error is that of creating the script file,
    the file system is as it was, with no call made into it.  So once
    operations were executed run returns no error, whatever became of
    them. *)
Theorem run_error_means_nothing_executed openDatabase (config : Config)
        (input : string) (w : World) err s :
  run env openDatabase config input w = (Done (Some err), s) ->
  reported s = None
  /\ ((forall e, err <> ErrScriptFile e) -> world s = w).
Proof.
  unfold run.
  destruct (openDatabase _) as [db|e]; [|by intros [= <- <-]].
  destruct (GetLibrarySections db) as [sections|e]; [|by intros [= <- <-]].
  destruct (Nat.eqb _ 0); [discriminate|].
  destruct (sectionsLoop _ _ _ _ _ _) as [[ops [e|]] p]; [by intros [= <- <-]|].
  destruct (Nat.eqb _ 0); [discriminate|].
  destruct (ScriptMode config).
  - unfold outputScript. unfold bind at 1.
    destruct (Create env (scriptFile config) w) as [[[h|e]|] w1]; cbn.
    + unfold bind. destruct (WriteString h _ w1) as [[[]|] w2]; discriminate.
    + intros [= <- <-]. split; [reflexivity|]. intros Hno. by destruct (Hno e).
    + discriminate.
  - destruct (ConfirmProceed _ _ _ p) as [[proceed [e|]] q]; [by intros [= <- <-]|].
    destruct proceed; cbn [negb]; [|discriminate].
    destruct (executeAll _ _ _ _) as [[rs|] w1]; discriminate.
Qed.


(** X30. When standard input holds no complete line, a run that does not
    write a script leaves the file system as it was, also with
    auto-approve: outside a dry run the final confirmation has to be
    typed, and nothing is executed or reported without it. *)
Theorem nothing_runs_without_a_typed_line openDatabase (config : Config)
        (input : string) (w : World) :
  ScriptMode config = false -> ~ In "010"%char (bytes input) ->
  exists err s,
    run env openDatabase config input w = (Done err, s) /\ world s = w
    /\ (DryRun config = false -> reported s = None).
Proof.
  intros Hscript Hno. unfold run. rewrite Hscript.
  destruct (openDatabase _) as [db|e]; [|by eexists _, _].
  destruct (GetLibrarySections db) as [sections|e]; [|by eexists _, _].
  destruct (Nat.eqb _ 0); [by eexists _, _|].
  destruct (sectionsLoop _ _ _ _ _ _) as [[ops [e|]] p] eqn:Hloop; [by eexists _, _|].
  apply sectionsLoop_no_line in Hloop as ->; [|exact Hno].
  destruct (Nat.eqb _ 0); [by eexists _, _|].
  unfold ConfirmProceed. destruct (DryRun config).
  - cbn [negb]. rewrite executeAll_dry. eexists _, _. by split.
  - unfold askYesNo, readLine. cbn [display stdin NewPrompter].
    rewrite (ReadString_no_delim _ _ Hno). cbn. by eexists _, _.
Qed.

End Run.

Lemma dry_run_changes_nothing_witness :
  exists err s,
    run (H := asciiCase) quiet opened dryConfig "" disk = (Done err, s) /\ world s = disk
    /\ match reported s with
       | Some box =>
         err = None /\ skipped box = 0 /\ failed box = 0 /\ failures box = []
         /\ exists shown more,
              previewed s = Some (shown, more)
              /\ Z.of_nat (succeeded box)
                 = (Z.of_nat (List.length shown)
                    + match more with Some n => n | None => 0 end)%Z
       | None => True
       end.
Proof.
  apply (@dry_run_changes_nothing asciiCase quiet opened dryConfig "" disk); reflexivity.
Defined.

Lemma run_error_means_nothing_executed_witness :
  let s := {| prompter := NewPrompter ""; world := disk;
              previewed := None; reported := None |} in
  reported s = None
  /\ ((forall e, ErrOpenDatabase (SqlError "unable to open database file")
                 <> ErrScriptFile e) -> world s = disk).
Proof.
  intros s.
  apply (@run_error_means_nothing_executed asciiCase quiet unreadable
           (config "/out" ModeMove "" "" false false) "" disk
           (ErrOpenDatabase (SqlError "unable to open database file")) s).
  reflexivity.
Defined.


Lemma nothing_runs_without_a_typed_line_witness :
  let config := config "/out" ModeMove "" "" true false in
  exists err s,
    run (H := asciiCase) quiet opened config "y" disk = (Done err, s) /\ world s = disk
    /\ (DryRun config = false -> reported s = None).
Proof.
  intros config.
  apply (@nothing_runs_without_a_typed_line asciiCase quiet opened config "y" disk).
  - reflexivity.
  - cbn. intros [Hc|[]]. discriminate Hc.
Defined.

End RunFacts.
